(** * Space Habitat Builder: connection validation and habitat state

    A shallow embedding of the connection validator
    (src/utils/connectionValidator.js), of the tables it reads
    (data/connectionTypes, data/moduleDefinitions) and of the habitat
    reducer (contexts/HabitatContext), with the properties the
    specification states about them.

    JavaScript numbers are IEEE 754 binary64 values: they are Rocq's
    primitive floats, and every arithmetic operation and comparison below
    is the binary64 one the engine performs.  [Math.cos] and [Math.sin],
    which ECMAScript only fixes at a few arguments, are parameters. *)

From Stdlib Require Import PrimFloat DecimalString Permutation Sorted.
From stdpp Require Import gmap strings list.

Set Warnings "-inexact-float,-clear-no-such-hyp".

(** ** Vectors *)

(** A three-element array of numbers. *)
Definition vec3 : Set := (float * float * float)%type.

Definition vx (v : vec3) : float := v.1.1.
Definition vy (v : vec3) : float := v.1.2.
Definition vz (v : vec3) : float := v.2.

(** ** data/connectionTypes *)

Module connectionTypes.

Inductive connectionType : Set := structural | utility | external.

Definition connectionType_eqb (a b : connectionType) : bool :=
  match a, b with
  | structural, structural | utility, utility | external, external => true
  | _, _ => false
  end.

(** [Array.prototype.includes] on an array of connection types. *)
Definition includes (l : list connectionType) (t : connectionType) : bool :=
  existsb (connectionType_eqb t) l.

(** The three keys are the only point types of the catalog, so the
    [|| []] fallback of [canConnect] is never taken. *)
Definition connectionRules (t : connectionType) : list connectionType :=
  match t with
  | structural => [structural]
  | utility => [structural; utility]
  | external => []
  end.

Definition MAX_CONNECTION_DISTANCE : float := 0.5%float.
(** [Math.PI * 0.8]: 144 degrees. *)
Definition MIN_ALIGNMENT_ANGLE : float := (0x1.921fb54442d18p+1 * 0.8)%float.
Definition GRID_SNAP : float := 0.1%float.
Definition COLLISION_BUFFER : float := 0.2%float.

End connectionTypes.
Export connectionTypes.

(** ** data/moduleDefinitions *)

Record ConnectionPoint : Set := {
  p_id : string;
  p_position : vec3;
  p_normal : vec3;
  p_type : connectionType
}.

Record Dimensions : Set := { width : float; height : float; depth : float }.

Record ModuleDefinition : Set := {
  def_id : string;
  def_name : string;
  def_type : string;
  def_description : string;
  dimensions : Dimensions;
  mass : float;
  crewCapacity : float;
  powerConsumption : float;
  powerGeneration : float;
  connectionPoints : list ConnectionPoint;
  color : string;
  cost : float
}.

Module moduleDefinitions.

Definition pt (i : string) (pos nrm : vec3) (t : connectionType) : ConnectionPoint :=
  {| p_id := i; p_position := pos; p_normal := nrm; p_type := t |}.

Definition central_hub : ModuleDefinition := {|
  def_id := "central-hub"; def_name := "Central Hub"; def_type := "Central Hub";
  def_description := "Primary structural node with multi-port connectivity";
  dimensions := {| width := 4.2; height := 4.2; depth := 4.2 |};
  mass := 15000; crewCapacity := 0; powerConsumption := 500; powerGeneration := 0;
  connectionPoints :=
    [ pt "north" (0, 0, 2.1)%float (0, 0, 1)%float structural;
      pt "south" (0, 0, -2.1)%float (0, 0, -1)%float structural;
      pt "east" (2.1, 0, 0)%float (1, 0, 0)%float structural;
      pt "west" (-2.1, 0, 0)%float (-1, 0, 0)%float structural;
      pt "up" (0, 2.1, 0)%float (0, 1, 0)%float structural;
      pt "down" (0, -2.1, 0)%float (0, -1, 0)%float structural ];
  color := "#4fc3f7"; cost := 25000000 |}.

Definition living_quarters : ModuleDefinition := {|
  def_id := "living-quarters"; def_name := "Living Quarters"; def_type := "Living Quarters";
  def_description := "Residential module with sleeping and personal areas";
  dimensions := {| width := 4.2; height := 4.2; depth := 8.5 |};
  mass := 12000; crewCapacity := 4; powerConsumption := 800; powerGeneration := 0;
  connectionPoints :=
    [ pt "front" (0, 0, 4.25)%float (0, 0, 1)%float structural;
      pt "back" (0, 0, -4.25)%float (0, 0, -1)%float structural ];
  color := "#81c784"; cost := 18000000 |}.

Definition laboratory : ModuleDefinition := {|
  def_id := "laboratory"; def_name := "Research Laboratory"; def_type := "Research Lab";
  def_description := "Advanced research facility with specialized equipment";
  dimensions := {| width := 4.2; height := 4.2; depth := 10.7 |};
  mass := 14000; crewCapacity := 2; powerConsumption := 1500; powerGeneration := 0;
  connectionPoints :=
    [ pt "front" (0, 0, 5.35)%float (0, 0, 1)%float structural;
      pt "back" (0, 0, -5.35)%float (0, 0, -1)%float structural;
      pt "utility" (2.1, 0, 0)%float (1, 0, 0)%float utility ];
  color := "#ba68c8"; cost := 35000000 |}.

Definition airlock : ModuleDefinition := {|
  def_id := "airlock"; def_name := "EVA Airlock"; def_type := "EVA Airlock";
  def_description := "Pressurized chamber for extravehicular activities";
  dimensions := {| width := 4.2; height := 4.2; depth := 3.0 |};
  mass := 8000; crewCapacity := 2; powerConsumption := 300; powerGeneration := 0;
  connectionPoints :=
    [ pt "inner" (0, 0, -1.5)%float (0, 0, -1)%float structural;
      pt "outer" (0, 0, 1.5)%float (0, 0, 1)%float external ];
  color := "#ffb74d"; cost := 12000000 |}.

Definition storage : ModuleDefinition := {|
  def_id := "storage"; def_name := "Storage Module"; def_type := "Storage";
  def_description := "High-capacity storage for supplies and equipment";
  dimensions := {| width := 4.2; height := 4.2; depth := 6.0 |};
  mass := 5000; crewCapacity := 0; powerConsumption := 100; powerGeneration := 0;
  connectionPoints :=
    [ pt "front" (0, 0, 3.0)%float (0, 0, 1)%float structural;
      pt "back" (0, 0, -3.0)%float (0, 0, -1)%float structural ];
  color := "#f06292"; cost := 8000000 |}.

Definition recreation : ModuleDefinition := {|
  def_id := "recreation"; def_name := "Recreation Module"; def_type := "Recreation";
  def_description := "Multi-purpose space for exercise and relaxation";
  dimensions := {| width := 6.0; height := 6.0; depth := 8.0 |};
  mass := 10000; crewCapacity := 8; powerConsumption := 600; powerGeneration := 0;
  connectionPoints :=
    [ pt "front" (0, 0, 4.0)%float (0, 0, 1)%float structural;
      pt "back" (0, 0, -4.0)%float (0, 0, -1)%float structural ];
  color := "#4db6ac"; cost := 15000000 |}.

Definition moduleDefinitions : list ModuleDefinition :=
  [central_hub; living_quarters; laboratory; airlock; storage; recreation].

(** [moduleDefinitions.find(def => def.id === definitionId)] *)
Definition findDefinition (definitionId : string) : option ModuleDefinition :=
  List.find (fun def => String.eqb (def_id def) definitionId) moduleDefinitions.

End moduleDefinitions.
Export moduleDefinitions.

(** ** Habitat data *)

(** A placed module.  Sample configurations carry no timestamp. *)
Record ModuleInstance : Set := {
  m_id : string;
  definitionId : string;
  position : vec3;
  rotation : vec3;
  m_timestamp : option float
}.

Record Connection : Set := {
  c_id : string;
  moduleId1 : string;
  pointId1 : string;
  moduleId2 : string;
  pointId2 : string;
  c_timestamp : option float
}.

(** [modules.find(m => m.id === id)] *)
Definition findModule (modules : list ModuleInstance) (id : string) : option ModuleInstance :=
  List.find (fun m => String.eqb (m_id m) id) modules.

(** ** utils/connectionValidator *)

Definition distance3D (point1 point2 : vec3) : float :=
  let dx := (vx point1 - vx point2)%float in
  let dy := (vy point1 - vy point2)%float in
  let dz := (vz point1 - vz point2)%float in
  PrimFloat.sqrt (dx * dx + dy * dy + dz * dz)%float.

Definition dotProduct (vec1 vec2 : vec3) : float :=
  (vx vec1 * vx vec2 + vy vec1 * vy vec2 + vz vec1 * vz vec2)%float.

Definition normalize (vector : vec3) : vec3 :=
  let length :=
    PrimFloat.sqrt (vx vector * vx vector + vy vector * vy vector + vz vector * vz vector)%float in
  if (length =? 0)%float then (0, 0, 0)%float
  else (vx vector / length, vy vector / length, vz vector / length)%float.

(** A connection point of the catalog spread into world space:
    [{...point, worldPosition, worldNormal, moduleId}]. *)
Record WorldPoint : Set := {
  point : ConnectionPoint;
  worldPosition : vec3;
  worldNormal : vec3;
  moduleId : string
}.

(** The reason string of [canConnect] is one of four templates; the value
    keeps the template and the quantities it is formatted from. *)
Inductive Reason : Set :=
| IncompatibleTypes (type1 type2 : connectionType)
| TooFarApart (dist : float)
| NotAligned (alignment : float)
| ConnectionValid.

Record ConnectResult : Set := { r_canConnect : bool; reason : Reason }.

Definition canConnect (point1 point2 : WorldPoint) : ConnectResult :=
  let type1Rules := connectionRules (p_type (point point1)) in
  if negb (includes type1Rules (p_type (point point2))) then
    {| r_canConnect := false;
       reason := IncompatibleTypes (p_type (point point1)) (p_type (point point2)) |}
  else
    let dist := distance3D (worldPosition point1) (worldPosition point2) in
    if (MAX_CONNECTION_DISTANCE <? dist)%float then
      {| r_canConnect := false; reason := TooFarApart dist |}
    else
      let alignment := dotProduct (worldNormal point1) (worldNormal point2) in
      if (-0.7 <? alignment)%float then
        {| r_canConnect := false; reason := NotAligned alignment |}
      else {| r_canConnect := true; reason := ConnectionValid |}.

Definition checkModuleCollision (module1 module2 : ModuleInstance) : bool :=
  match findDefinition (definitionId module1), findDefinition (definitionId module2) with
  | Some def1, Some def2 =>
      let pos1 := position module1 in
      let pos2 := position module2 in
      let dim1 := dimensions def1 in
      let dim2 := dimensions def2 in
      let buffer := COLLISION_BUFFER in
      let overlapX :=
        (PrimFloat.abs (vx pos1 - vx pos2) <? (width dim1 + width dim2) / 2 + buffer)%float in
      let overlapY :=
        (PrimFloat.abs (vy pos1 - vy pos2) <? (height dim1 + height dim2) / 2 + buffer)%float in
      let overlapZ :=
        (PrimFloat.abs (vz pos1 - vz pos2) <? (depth dim1 + depth dim2) / 2 + buffer)%float in
      overlapX && overlapY && overlapZ
  | _, _ => false
  end.

(** [Array.prototype.sort(comparefn)]: the sort is stable, and a result of
    [comparefn] that is NaN counts as [+0].  For a consistent comparator
    every stable sort returns the same array; the model is the insertion
    sort that moves an element right past those it is strictly greater
    than. *)
Section ArraySort.
Context {A : Type} (comparefn : A → A → float).

Definition sortsAfter (a b : A) : bool := (0 <? comparefn a b)%float.

Fixpoint sortInsert (a : A) (l : list A) : list A :=
  match l with
  | [] => [a]
  | b :: l' => if sortsAfter a b then b :: sortInsert a l' else a :: l
  end.

Definition sort (l : list A) : list A := foldr sortInsert [] l.

End ArraySort.

Record PotentialConnection : Set := {
  targetPoint : WorldPoint;
  existingPoint : WorldPoint;
  existingModule : ModuleInstance;
  distance : float
}.

(** One entry of a validation report.  The entries are object literals with
    different fields; an absent field is [None]. *)
Inductive Message : Set :=
| Text (s : string)
| OfReason (r : Reason).

Record Issue : Set := {
  i_type : string;
  message : Message;
  moduleIds : option (list string);
  connectionId : option string;
  severity : option string
}.

Record ValidationReport : Set := {
  errors : list Issue;
  warnings : list Issue;
  isValid : bool
}.

Definition collisionError (a b : ModuleInstance) : Issue :=
  {| i_type := "collision";
     message := Text ("Modules " +:+ m_id a +:+ " and " +:+ m_id b +:+ " are colliding");
     moduleIds := Some [m_id a; m_id b];
     connectionId := None; severity := None |}.

(** The nested [for] loops over [i < j]. *)
Fixpoint collisionErrors (modules : list ModuleInstance) : list Issue :=
  match modules with
  | [] => []
  | mi :: rest =>
      flat_map (fun mj => if checkModuleCollision mi mj then [collisionError mi mj] else []) rest
      ++ collisionErrors rest
  end.

Definition connectionIssue (type : string) (msg : Message) (c : Connection) : Issue :=
  {| i_type := type; message := msg; moduleIds := None;
     connectionId := Some (c_id c); severity := None |}.

(** [`${n}`] for an array length. *)
Definition showNat (n : nat) : string := NilZero.string_of_uint (Nat.to_uint n).

Definition disconnectedWarning (unreached : nat) : Issue :=
  {| i_type := "disconnected_modules";
     message := Text (showNat unreached +:+ " module(s) are not connected to the main structure");
     moduleIds := None; connectionId := None; severity := Some "warning" |}.

(** The [forEach] inside the reachability loop: the ids pushed while
    visiting [currentId].  [toVisit] is used as a stack only (push and pop
    at the end of the array); the list holds it top first. *)
Definition pushNeighbours (connections : list Connection) (connected : gset string)
    (currentId : string) (toVisit : list string) : list string :=
  foldl (fun stack connection =>
           if String.eqb (moduleId1 connection) currentId
              && negb (bool_decide (moduleId2 connection ∈ connected))
           then moduleId2 connection :: stack
           else if String.eqb (moduleId2 connection) currentId
                   && negb (bool_decide (moduleId1 connection ∈ connected))
           then moduleId1 connection :: stack
           else stack)
        toVisit connections.

(** The [while (toVisit.length > 0)] loop, by iterations left; [None] when
    they run out before the stack is empty. *)
Fixpoint visit (fuel : nat) (connections : list Connection)
    (connected : gset string) (toVisit : list string) : option (gset string) :=
  match fuel with
  | 0 => None
  | S fuel' =>
      match toVisit with
      | [] => Some connected
      | currentId :: rest =>
          if bool_decide (currentId ∈ connected) then visit fuel' connections connected rest
          else
            let connected' := {[currentId]} ∪ connected in
            visit fuel' connections connected'
                  (pushNeighbours connections connected' currentId rest)
      end
  end.

(** Iterations that always suffice: the loop adds at most
    [1 + 2 * connections.length] ids, each add pushes at most
    [connections.length] ids, and every iteration pops one. *)
Definition visitFuel (connections : list Connection) : nat :=
  2 + length connections * S (2 * length connections).

Definition connectivityWarnings (modules : list ModuleInstance)
    (connections : list Connection) : option (list Issue) :=
  match modules with
  | first :: _ :: _ =>
      connected ← visit (visitFuel connections) connections ∅ [m_id first];
      Some (if bool_decide (size connected < length modules)
            then [disconnectedWarning (length modules - size connected)]
            else [])
  | _ => Some []
  end.

Section Transforms.
(** [Math.cos] and [Math.sin] of the host. *)
Variables Math_cos Math_sin : float → float.

Definition transformPoint (localPoint position rotation : vec3) : vec3 :=
  let cos := Math_cos (vy rotation) in
  let sin := Math_sin (vy rotation) in
  let rotatedX := (vx localPoint * cos - vz localPoint * sin)%float in
  let rotatedY := vy localPoint in
  let rotatedZ := (vx localPoint * sin + vz localPoint * cos)%float in
  (rotatedX + vx position, rotatedY + vy position, rotatedZ + vz position)%float.

Definition transformNormal (localNormal rotation : vec3) : vec3 :=
  let cos := Math_cos (vy rotation) in
  let sin := Math_sin (vy rotation) in
  normalize (vx localNormal * cos - vz localNormal * sin,
             vy localNormal,
             vx localNormal * sin + vz localNormal * cos)%float.

Definition getWorldConnectionPoints (module : ModuleInstance) : list WorldPoint :=
  match findDefinition (definitionId module) with
  | None => []
  | Some definition =>
      map (fun p => {| point := p;
                       worldPosition := transformPoint (p_position p) (position module) (rotation module);
                       worldNormal := transformNormal (p_normal p) (rotation module);
                       moduleId := m_id module |})
          (connectionPoints definition)
  end.

(** [{ ...module, position }] *)
Definition withPosition (module : ModuleInstance) (position : vec3) : ModuleInstance :=
  {| m_id := m_id module; definitionId := definitionId module;
     position := position; rotation := rotation module;
     m_timestamp := m_timestamp module |}.

(** The candidates in the order the three nested [forEach] push them. *)
Definition potentialConnections (targetModule : ModuleInstance) (targetPosition : vec3)
    (existingModules : list ModuleInstance) : list PotentialConnection :=
  let tempModule := withPosition targetModule targetPosition in
  let targetPoints := getWorldConnectionPoints tempModule in
  flat_map (fun existingModule =>
    if String.eqb (m_id existingModule) (m_id targetModule) then []
    else
      let existingPoints := getWorldConnectionPoints existingModule in
      flat_map (fun targetPoint =>
        flat_map (fun existingPoint =>
          if r_canConnect (canConnect targetPoint existingPoint) then
            [ {| targetPoint := targetPoint; existingPoint := existingPoint;
                 existingModule := existingModule;
                 distance := distance3D (worldPosition targetPoint) (worldPosition existingPoint) |} ]
          else [])
        existingPoints)
      targetPoints)
    existingModules.

Definition byDistance (a b : PotentialConnection) : float := (distance a - distance b)%float.

Definition findPotentialConnections (targetModule : ModuleInstance) (targetPosition : vec3)
    (existingModules : list ModuleInstance) : list PotentialConnection :=
  sort byDistance (potentialConnections targetModule targetPosition existingModules).

(** The body of [connections.forEach] in [validateHabitat]: the errors one
    connection adds. *)
Definition connectionErrors (modules : list ModuleInstance) (connection : Connection) : list Issue :=
  match findModule modules (moduleId1 connection), findModule modules (moduleId2 connection) with
  | Some module1, Some module2 =>
      let points1 := getWorldConnectionPoints module1 in
      let points2 := getWorldConnectionPoints module2 in
      match List.find (fun p => String.eqb (p_id (point p)) (pointId1 connection)) points1,
            List.find (fun p => String.eqb (p_id (point p)) (pointId2 connection)) points2 with
      | Some point1, Some point2 =>
          let validation := canConnect point1 point2 in
          if negb (r_canConnect validation) then
            [connectionIssue "invalid_connection" (OfReason (reason validation)) connection]
          else []
      | _, _ =>
          [connectionIssue "invalid_connection_point"
             (Text "Connection references invalid connection point") connection]
      end
  | _, _ =>
      [connectionIssue "invalid_connection"
         (Text "Connection references non-existent module") connection]
  end.

Definition reportErrors (modules : list ModuleInstance) (connections : list Connection) : list Issue :=
  collisionErrors modules ++ flat_map (connectionErrors modules) connections.

Definition validateHabitat (modules : list ModuleInstance) (connections : list Connection)
    : option ValidationReport :=
  let errors := reportErrors modules connections in
  warnings ← connectivityWarnings modules connections;
  Some {| errors := errors; warnings := warnings;
          isValid := Nat.eqb (length errors) 0 |}.

End Transforms.

(** ** contexts/HabitatContext *)

Record Statistics : Set := {
  totalMass : float;
  totalCrewCapacity : float;
  totalPowerConsumption : float;
  totalPowerGeneration : float;
  totalCost : float;
  totalModules : nat;
  powerBalance : float
}.

Record HabitatState : Set := {
  modules : list ModuleInstance;
  selectedModuleId : option string;
  connections : list Connection;
  validationErrors : list Issue;
  statistics : Statistics
}.

(** The accumulator of the [reduce] in [calculateStatistics]. *)
Record Totals : Set := {
  acc_totalMass : float;
  acc_totalCrewCapacity : float;
  acc_totalPowerConsumption : float;
  acc_totalPowerGeneration : float;
  acc_totalCost : float
}.

Definition addDefinition (acc : Totals) (module : ModuleInstance) : Totals :=
  match findDefinition (definitionId module) with
  | Some definition =>
      {| acc_totalMass := (acc_totalMass acc + mass definition)%float;
         acc_totalCrewCapacity := (acc_totalCrewCapacity acc + crewCapacity definition)%float;
         acc_totalPowerConsumption := (acc_totalPowerConsumption acc + powerConsumption definition)%float;
         acc_totalPowerGeneration := (acc_totalPowerGeneration acc + powerGeneration definition)%float;
         acc_totalCost := (acc_totalCost acc + cost definition)%float |}
  | None => acc
  end.

Definition zeroTotals : Totals :=
  {| acc_totalMass := 0; acc_totalCrewCapacity := 0; acc_totalPowerConsumption := 0;
     acc_totalPowerGeneration := 0; acc_totalCost := 0 |}.

Definition calculateStatistics (modules : list ModuleInstance) : Statistics :=
  let stats := foldl addDefinition zeroTotals modules in
  {| totalMass := acc_totalMass stats;
     totalCrewCapacity := acc_totalCrewCapacity stats;
     totalPowerConsumption := acc_totalPowerConsumption stats;
     totalPowerGeneration := acc_totalPowerGeneration stats;
     totalCost := acc_totalCost stats;
     totalModules := length modules;
     powerBalance := (acc_totalPowerGeneration stats - acc_totalPowerConsumption stats)%float |}.

Definition initialState : HabitatState :=
  {| modules := []; selectedModuleId := None; connections := []; validationErrors := [];
     statistics :=
       {| totalModules := 0; totalMass := 0; totalCrewCapacity := 0; totalPowerConsumption := 0;
          totalPowerGeneration := 0; powerBalance := 0; totalCost := 0 |} |}.

(** The [updates] object of UPDATE_MODULE: the fields it carries replace
    the module's. *)
Record ModuleUpdates : Set := {
  u_id : option string;
  u_definitionId : option string;
  u_position : option vec3;
  u_rotation : option vec3;
  u_timestamp : option (option float)
}.

Definition applyUpdates (module : ModuleInstance) (updates : ModuleUpdates) : ModuleInstance :=
  {| m_id := default (m_id module) (u_id updates);
     definitionId := default (definitionId module) (u_definitionId updates);
     position := default (position module) (u_position updates);
     rotation := default (rotation module) (u_rotation updates);
     m_timestamp := default (m_timestamp module) (u_timestamp updates) |}.

Inductive Action : Set :=
| ADD_MODULE (payload : ModuleInstance)
| REMOVE_MODULE (payload : string)
| UPDATE_MODULE (id : string) (updates : ModuleUpdates)
| SELECT_MODULE (payload : string)
| DESELECT_MODULE
| SET_MODULES (payload : list ModuleInstance)
| ADD_CONNECTION (payload : Connection)
| REMOVE_CONNECTION (payload : string)
| SET_VALIDATION_ERRORS (payload : list Issue)
| CLEAR_VALIDATION_ERRORS
| LOAD_CONFIGURATION (payload_modules : option (list ModuleInstance))
                     (payload_connections : option (list Connection))
| RESET_HABITAT
| OTHER_ACTION (type : string).

Definition habitatReducer (state : HabitatState) (action : Action) : HabitatState :=
  match action with
  | ADD_MODULE payload =>
      let newModules := modules state ++ [payload] in
      {| modules := newModules;
         selectedModuleId := selectedModuleId state;
         connections := connections state;
         validationErrors := validationErrors state;
         statistics := calculateStatistics newModules |}
  | REMOVE_MODULE payload =>
      let filteredModules :=
        List.filter (fun module => negb (String.eqb (m_id module) payload)) (modules state) in
      {| modules := filteredModules;
         selectedModuleId :=
           match selectedModuleId state with
           | Some selected => if String.eqb selected payload then None else Some selected
           | None => None
           end;
         connections := connections state;
         validationErrors := validationErrors state;
         statistics := calculateStatistics filteredModules |}
  | UPDATE_MODULE id updates =>
      let updatedModules :=
        map (fun module => if String.eqb (m_id module) id then applyUpdates module updates else module)
            (modules state) in
      {| modules := updatedModules;
         selectedModuleId := selectedModuleId state;
         connections := connections state;
         validationErrors := validationErrors state;
         statistics := calculateStatistics updatedModules |}
  | SELECT_MODULE payload =>
      {| modules := modules state; selectedModuleId := Some payload;
         connections := connections state; validationErrors := validationErrors state;
         statistics := statistics state |}
  | DESELECT_MODULE =>
      {| modules := modules state; selectedModuleId := None;
         connections := connections state; validationErrors := validationErrors state;
         statistics := statistics state |}
  | SET_MODULES payload =>
      {| modules := payload; selectedModuleId := selectedModuleId state;
         connections := connections state; validationErrors := validationErrors state;
         statistics := calculateStatistics payload |}
  | ADD_CONNECTION payload =>
      {| modules := modules state; selectedModuleId := selectedModuleId state;
         connections := connections state ++ [payload];
         validationErrors := validationErrors state; statistics := statistics state |}
  | REMOVE_CONNECTION payload =>
      {| modules := modules state; selectedModuleId := selectedModuleId state;
         connections := List.filter (fun conn => negb (String.eqb (c_id conn) payload)) (connections state);
         validationErrors := validationErrors state; statistics := statistics state |}
  | SET_VALIDATION_ERRORS payload =>
      {| modules := modules state; selectedModuleId := selectedModuleId state;
         connections := connections state; validationErrors := payload;
         statistics := statistics state |}
  | CLEAR_VALIDATION_ERRORS =>
      {| modules := modules state; selectedModuleId := selectedModuleId state;
         connections := connections state; validationErrors := [];
         statistics := statistics state |}
  | LOAD_CONFIGURATION payload_modules payload_connections =>
      let configModules := default [] payload_modules in
      {| modules := configModules; selectedModuleId := None;
         connections := default [] payload_connections; validationErrors := [];
         statistics := calculateStatistics configModules |}
  | RESET_HABITAT =>
      {| modules := modules initialState; selectedModuleId := selectedModuleId initialState;
         connections := connections initialState;
         validationErrors := validationErrors initialState;
         statistics := calculateStatistics [] |}
  | OTHER_ACTION _ => state
  end.

(** What one call of an action creator draws from its environment:
    the value of [uuidv4()] and of [Date.now()]. *)
Record Host : Set := { uuidv4 : string; Date_now : float }.

(** The result of an action creator: the value it returns, the state after
    its dispatches, and the lines it wrote with [console.error]. *)
Record Outcome (R : Type) : Type := {
  returned : R;
  state_after : HabitatState;
  console_error : list string
}.
Arguments returned {R}.
Arguments state_after {R}.
Arguments console_error {R}.

(** [addModule]; [None] is the [undefined] of the bare [return]. *)
Definition addModule (host : Host) (state : HabitatState)
    (definitionId : string) (position rotation : vec3) : Outcome (option string) :=
  match findDefinition definitionId with
  | None =>
      {| returned := None; state_after := state;
         console_error := ["Module definition not found: " +:+ definitionId] |}
  | Some definition =>
      let newModule :=
        {| m_id := uuidv4 host; definitionId := definitionId;
           position := position; rotation := rotation;
           m_timestamp := Some (Date_now host) |} in
      {| returned := Some (m_id newModule);
         state_after := habitatReducer state (ADD_MODULE newModule);
         console_error := [] |}
  end.

Definition removeModule (state : HabitatState) (moduleId : string) : HabitatState :=
  habitatReducer state (REMOVE_MODULE moduleId).

Definition addConnection (host : Host) (state : HabitatState)
    (moduleId1 pointId1 moduleId2 pointId2 : string) : Outcome string :=
  let connection :=
    {| c_id := uuidv4 host; moduleId1 := moduleId1; pointId1 := pointId1;
       moduleId2 := moduleId2; pointId2 := pointId2; c_timestamp := Some (Date_now host) |} in
  {| returned := c_id connection;
     state_after := habitatReducer state (ADD_CONNECTION connection);
     console_error := [] |}.

(** The states the provider can be in: [initialState] and what the reducer
    makes of it. *)
Inductive reachable : HabitatState → Prop :=
| reachable_initial : reachable initialState
| reachable_step state action : reachable state → reachable (habitatReducer state action).

(** ** Host functions of the hooks *)

From Stdlib Require Uint63.

(** A number tested by [x !== x]. *)
Definition isNaN (x : float) : bool := negb (x =? x)%float.

Definition isNegativeZero (x : float) : bool :=
  match PrimFloat.classify x with FloatClass.NZero => true | _ => false end.

Definition isPositiveZero (x : float) : bool :=
  match PrimFloat.classify x with FloatClass.PZero => true | _ => false end.

(** [Math.min] of two numbers: NaN when one of them is, [-0] below [+0]. *)
Definition Math_min (x y : float) : float :=
  if isNaN x || isNaN y then nan
  else if isNegativeZero y && isPositiveZero x then y
  else if (y <? x)%float then y else x.

(** [Math.max] of two numbers: NaN when one of them is, [+0] above [-0]. *)
Definition Math_max (x y : float) : float :=
  if isNaN x || isNaN y then nan
  else if isPositiveZero y && isNegativeZero x then y
  else if (x <? y)%float then y else x.

(** An array length as a number. *)
Definition lengthNumber {A : Type} (l : list A) : float :=
  PrimFloat.of_uint63 (Uint63.of_Z (Z.of_nat (length l))).

(** The truth value of a string or of [undefined]: the empty string is
    falsy. *)
Definition truthy (s : option string) : bool :=
  match s with Some id => negb (String.eqb id "") | None => false end.

(** ** contexts/HabitatContext, the getters and the remaining action creators *)

Definition getModule (state : HabitatState) (moduleId : string) : option ModuleInstance :=
  findModule (modules state) moduleId.

(** [null] and [undefined] are both [None]. *)
Definition getModuleDefinition (state : HabitatState) (moduleId : string)
    : option ModuleDefinition :=
  match getModule state moduleId with
  | None => None
  | Some module => findDefinition (definitionId module)
  end.

Definition getSelectedModule (state : HabitatState) : option ModuleInstance :=
  if truthy (selectedModuleId state)
  then match selectedModuleId state with
       | Some id => getModule state id
       | None => None
       end
  else None.

Definition getSelectedModuleDefinition (state : HabitatState) : option ModuleDefinition :=
  match getSelectedModule state with
  | None => None
  | Some selectedModule => findDefinition (definitionId selectedModule)
  end.

Definition updateModule (state : HabitatState) (moduleId : string) (updates : ModuleUpdates)
    : HabitatState :=
  habitatReducer state (UPDATE_MODULE moduleId updates).

Definition selectModule (state : HabitatState) (moduleId : string) : HabitatState :=
  habitatReducer state (SELECT_MODULE moduleId).

Definition deselectModule (state : HabitatState) : HabitatState :=
  habitatReducer state DESELECT_MODULE.

Definition removeConnection (state : HabitatState) (connectionId : string) : HabitatState :=
  habitatReducer state (REMOVE_CONNECTION connectionId).

Definition setValidationErrors (state : HabitatState) (errors : list Issue) : HabitatState :=
  habitatReducer state (SET_VALIDATION_ERRORS errors).

Definition clearValidationErrors (state : HabitatState) : HabitatState :=
  habitatReducer state CLEAR_VALIDATION_ERRORS.

Definition resetHabitat (state : HabitatState) : HabitatState :=
  habitatReducer state RESET_HABITAT.

(** A configuration object: what [exportConfiguration] returns and what
    [loadConfiguration] takes.  The sample configurations have neither
    connections nor statistics. *)
Record Configuration : Set := {
  cfg_name : string;
  cfg_description : string;
  cfg_modules : option (list ModuleInstance);
  cfg_connections : option (list Connection);
  cfg_statistics : option Statistics;
  exportTimestamp : option float
}.

Definition loadConfiguration (state : HabitatState) (config : Configuration) : HabitatState :=
  habitatReducer state (LOAD_CONFIGURATION (cfg_modules config) (cfg_connections config)).

Definition exportConfiguration (host : Host) (state : HabitatState) : Configuration :=
  {| cfg_name := "Custom Habitat Configuration";
     cfg_description := "User-designed space habitat";
     cfg_modules := Some (modules state);
     cfg_connections := Some (connections state);
     cfg_statistics := Some (statistics state);
     exportTimestamp := Some (Date_now host) |}.

(** The updates [{ position }] and [{ rotation }]. *)
Definition positionUpdate (position : vec3) : ModuleUpdates :=
  {| u_id := None; u_definitionId := None; u_position := Some position;
     u_rotation := None; u_timestamp := None |}.

Definition rotationUpdate (rotation : vec3) : ModuleUpdates :=
  {| u_id := None; u_definitionId := None; u_position := None;
     u_rotation := Some rotation; u_timestamp := None |}.

(** ** hooks/useModuleManager *)

Record Box : Set := { box_min : vec3; box_max : vec3 }.

(** The accumulator of the [forEach] in [getBoundingBox]. *)
Definition growBox (state : HabitatState) (box : Box) (module : ModuleInstance) : Box :=
  match getModuleDefinition state (m_id module) with
  | Some definition =>
      let width := width (dimensions definition) in
      let height := height (dimensions definition) in
      let depth := depth (dimensions definition) in
      let x := vx (position module) in
      let y := vy (position module) in
      let z := vz (position module) in
      {| box_min := (Math_min (vx (box_min box)) (x - width / 2),
                     Math_min (vy (box_min box)) (y - height / 2),
                     Math_min (vz (box_min box)) (z - depth / 2))%float;
         box_max := (Math_max (vx (box_max box)) (x + width / 2),
                     Math_max (vy (box_max box)) (y + height / 2),
                     Math_max (vz (box_max box)) (z + depth / 2))%float |}
  | None => box
  end.

Definition getBoundingBox (state : HabitatState) : Box :=
  match modules state with
  | [] => {| box_min := (0, 0, 0)%float; box_max := (0, 0, 0)%float |}
  | _ =>
      foldl (growBox state)
            {| box_min := (infinity, infinity, infinity);
               box_max := (neg_infinity, neg_infinity, neg_infinity) |}
            (modules state)
  end.

Definition getModuleDensity (state : HabitatState) : float :=
  let bbox := getBoundingBox state in
  let volume :=
    ((vx (box_max bbox) - vx (box_min bbox))
     * (vy (box_max bbox) - vy (box_min bbox))
     * (vz (box_max bbox) - vz (box_min bbox)))%float in
  if (0 <? volume)%float then (lengthNumber (modules state) / volume)%float else 0%float.

(** [definition ? definition.mass : 0] for the module found under the id. *)
Definition massOf (state : HabitatState) (module : ModuleInstance) : float :=
  match getModuleDefinition state (m_id module) with
  | Some definition => mass definition
  | None => 0%float
  end.

Definition getCenterOfMass (state : HabitatState) : vec3 :=
  match modules state with
  | [] => (0, 0, 0)%float
  | _ =>
      let totalMass := foldl (fun sum module => (sum + massOf state module)%float) 0%float
                             (modules state) in
      if (totalMass =? 0)%float then (0, 0, 0)%float
      else
        let weightedSum :=
          foldl (fun sum module =>
                   let mass := massOf state module in
                   (vx sum + vx (position module) * mass,
                    vy sum + vy (position module) * mass,
                    vz sum + vz (position module) * mass)%float)
                (0, 0, 0)%float (modules state) in
        (vx weightedSum / totalMass, vy weightedSum / totalMass, vz weightedSum / totalMass)%float
  end.

(** [modules[modules.length - 1]] *)
Definition lastModule (state : HabitatState) : option ModuleInstance := last (modules state).

Section Hooks.
(** [Math.round], [Math.cos] and [Math.sin] of the host. *)
Variables Math_round Math_cos Math_sin : float → float.

(** [position.map(coord => Math.round(coord / gridSize) * gridSize)] *)
Definition snapToGrid (position : vec3) (gridSize : float) : vec3 :=
  (Math_round (vx position / gridSize) * gridSize,
   Math_round (vy position / gridSize) * gridSize,
   Math_round (vz position / gridSize) * gridSize)%float.

Definition addModuleAtPosition (host : Host) (state : HabitatState) (definitionId : string)
    (position : vec3) (snapToGridEnabled : bool) : Outcome (option string) :=
  let finalPosition := if snapToGridEnabled then snapToGrid position 0.5 else position in
  let added := addModule host state definitionId finalPosition (0, 0, 0)%float in
  let moduleId := returned added in
  {| returned := moduleId;
     state_after :=
       if truthy moduleId
       then match moduleId with
            | Some id => selectModule (state_after added) id
            | None => state_after added
            end
       else state_after added;
     console_error := console_error added |}.

Definition moveModule (state : HabitatState) (moduleId : string) (newPosition : vec3)
    (snapToGridEnabled : bool) : HabitatState :=
  let finalPosition := if snapToGridEnabled then snapToGrid newPosition 0.1 else newPosition in
  updateModule state moduleId (positionUpdate finalPosition).

Definition rotateModule (state : HabitatState) (moduleId : string) (rotation : vec3)
    : HabitatState :=
  updateModule state moduleId (rotationUpdate rotation).

Definition deleteSelectedModule (state : HabitatState) : HabitatState :=
  if truthy (selectedModuleId state)
  then match selectedModuleId state with
       | Some id => deselectModule (removeModule state id)
       | None => state
       end
  else state.

(** [cloneModule]; the outer [None] is the [null] returned for a missing
    source. *)
Definition cloneModule (host : Host) (state : HabitatState) (sourceModuleId : string)
    (offset : vec3) : Outcome (option string) :=
  match getModule state sourceModuleId with
  | None => {| returned := None; state_after := state; console_error := [] |}
  | Some sourceModule =>
      let newPosition :=
        (vx (position sourceModule) + vx offset,
         vy (position sourceModule) + vy offset,
         vz (position sourceModule) + vz offset)%float in
      addModuleAtPosition host state (definitionId sourceModule) newPosition true
  end.

Definition findOptimalPosition (state : HabitatState) (definitionId : string)
    (targetModuleId : option string) : vec3 :=
  match modules state with
  | [] => (0, 0, 0)%float
  | _ =>
      match findDefinition definitionId with
      | None => (0, 0, 0)%float
      | Some definition =>
          let referencePosition :=
            if truthy targetModuleId
            then match targetModuleId with
                 | Some id =>
                     match getModule state id with
                     | Some targetModule => position targetModule
                     | None => (0, 0, 0)%float
                     end
                 | None => (0, 0, 0)%float
                 end
            else match lastModule state with
                 | Some lastModule => position lastModule
                 | None => (0, 0, 0)%float
                 end in
          let spacing := 8%float in
          let candidates :=
            [ (vx referencePosition + spacing, vy referencePosition, vz referencePosition);
              (vx referencePosition - spacing, vy referencePosition, vz referencePosition);
              (vx referencePosition, vy referencePosition, vz referencePosition + spacing);
              (vx referencePosition, vy referencePosition, vz referencePosition - spacing);
              (vx referencePosition, vy referencePosition + spacing, vz referencePosition);
              (vx referencePosition, vy referencePosition - spacing, vz referencePosition)
            ]%float in
          match candidates with
          | first :: _ => snapToGrid first 0.5
          | [] => (0, 0, 0)%float
          end
      end
  end.

(** ** hooks/useConnectionValidator *)

(** [validateAndUpdateErrors]: the report, and the state whose validation
    errors are [[...errors, ...warnings]]. *)
Definition validateAndUpdateErrors (state : HabitatState)
    : option (ValidationReport * HabitatState) :=
  validation ← validateHabitat Math_cos Math_sin (modules state) (connections state);
  Some (validation, setValidationErrors state (errors validation ++ warnings validation)).

(** The effect that runs when the modules or the connections change. *)
Definition autoValidate (state : HabitatState) : option HabitatState :=
  match modules state with
  | [] => Some (clearValidationErrors state)
  | _ => snd <$> validateAndUpdateErrors state
  end.

Definition getAllConnectionPoints (state : HabitatState) : list WorldPoint :=
  flat_map (getWorldConnectionPoints Math_cos Math_sin) (modules state).

Definition getPotentialConnections (state : HabitatState) (moduleId : string)
    (candidatePosition : option vec3) : list PotentialConnection :=
  match findModule (modules state) moduleId with
  | None => []
  | Some targetModule =>
      let moduleAtPosition :=
        match candidatePosition with
        | Some newPosition => withPosition targetModule newPosition
        | None => targetModule
        end in
      let otherModules :=
        List.filter (fun m => negb (String.eqb (m_id m) moduleId)) (modules state) in
      findPotentialConnections Math_cos Math_sin moduleAtPosition
        (position moduleAtPosition) otherModules
  end.

(** [potentials.length > 0 ? potentials[0] : null] *)
Definition getClosestConnection (state : HabitatState) (moduleId : string)
    (candidatePosition : option vec3) : option PotentialConnection :=
  head (getPotentialConnections state moduleId candidatePosition).

Definition autoConnect (host : Host) (state : HabitatState) (moduleId : string)
    : Outcome (option string) :=
  match getClosestConnection state moduleId None with
  | Some closest =>
      let added :=
        addConnection host state moduleId (p_id (point (targetPoint closest)))
          (m_id (existingModule closest)) (p_id (point (existingPoint closest))) in
      {| returned := Some (returned added);
         state_after := state_after added;
         console_error := console_error added |}
  | None => {| returned := None; state_after := state; console_error := [] |}
  end.

(** The answer of [canModulesConnect]: its reason is a fixed text or the
    reason of [canConnect]. *)
Record ModulesConnectResult : Set := { mc_canConnect : bool; mc_reason : Message }.

Definition canModulesConnect (state : HabitatState)
    (moduleId1 pointId1 moduleId2 pointId2 : string) : ModulesConnectResult :=
  match findModule (modules state) moduleId1, findModule (modules state) moduleId2 with
  | Some module1, Some module2 =>
      let points1 := getWorldConnectionPoints Math_cos Math_sin module1 in
      let points2 := getWorldConnectionPoints Math_cos Math_sin module2 in
      match List.find (fun p => String.eqb (p_id (point p)) pointId1) points1,
            List.find (fun p => String.eqb (p_id (point p)) pointId2) points2 with
      | Some point1, Some point2 =>
          {| mc_canConnect := r_canConnect (canConnect point1 point2);
             mc_reason := OfReason (reason (canConnect point1 point2)) |}
      | _, _ => {| mc_canConnect := false; mc_reason := Text "Connection point not found" |}
      end
  | _, _ => {| mc_canConnect := false; mc_reason := Text "Module not found" |}
  end.

Definition getModuleConnections (state : HabitatState) (moduleId : string) : list Connection :=
  List.filter (fun conn => String.eqb (moduleId1 conn) moduleId
                           || String.eqb (moduleId2 conn) moduleId)
              (connections state).

(** [isModuleConnected]: the walk of [validateHabitat], started at
    [moduleId]. *)
Definition isModuleConnected (state : HabitatState) (moduleId : string) : option bool :=
  if length (modules state) <=? 1 then Some true
  else
    visited ← visit (visitFuel (connections state)) (connections state) ∅ [moduleId];
    Some (size visited =? length (modules state)).

Record ConnectionValidity : Set := {
  cv_isValid : bool;
  cv_reason : Message;
  cv_connectionId : option string
}.

Definition validateConnection (state : HabitatState) (connectionId : string)
    : ConnectionValidity :=
  match List.find (fun c => String.eqb (c_id c) connectionId) (connections state) with
  | None =>
      {| cv_isValid := false; cv_reason := Text "Connection not found"; cv_connectionId := None |}
  | Some connection =>
      let validation :=
        canModulesConnect state (moduleId1 connection) (pointId1 connection)
          (moduleId2 connection) (pointId2 connection) in
      {| cv_isValid := mc_canConnect validation;
         cv_reason := mc_reason validation;
         cv_connectionId := Some connectionId |}
  end.

End Hooks.

Record ValidationSummary : Set := {
  vs_isValid : bool;
  errorCount : nat;
  warningCount : nat;
  totalIssues : nat;
  criticalIssues : nat
}.

(** [error.type === 'error' || !error.severity] *)
Definition countsAsError (error : Issue) : bool :=
  String.eqb (i_type error) "error" || negb (truthy (severity error)).

(** [error.severity === 'warning'] *)
Definition countsAsWarning (error : Issue) : bool :=
  match severity error with Some s => String.eqb s "warning" | None => false end.

Definition countsAsCritical (error : Issue) : bool :=
  String.eqb (i_type error) "collision" || String.eqb (i_type error) "invalid_connection".

Definition getValidationSummary (state : HabitatState) : ValidationSummary :=
  let errors := List.filter countsAsError (validationErrors state) in
  let warnings := List.filter countsAsWarning (validationErrors state) in
  {| vs_isValid := length errors =? 0;
     errorCount := length errors;
     warningCount := length warnings;
     totalIssues := length (validationErrors state);
     criticalIssues := length (List.filter countsAsCritical errors) |}.

(** [validationErrors.filter((_, index) => index !== errorIndex)], from the
    index [index] on. *)
Fixpoint withoutIndex {A : Type} (l : list A) (index errorIndex : nat) : list A :=
  match l with
  | [] => []
  | x :: l' =>
      if index =? errorIndex then withoutIndex l' (S index) errorIndex
      else x :: withoutIndex l' (S index) errorIndex
  end.

Definition dismissValidationError (state : HabitatState) (errorIndex : nat) : HabitatState :=
  setValidationErrors state (withoutIndex (validationErrors state) 0 errorIndex).

(** ** Vocabulary of the statements *)

(** [linked connections a b]: some connection joins [a] and [b], in either
    direction. *)
Definition linked (connections : list Connection) (a b : string) : Prop :=
  ∃ c, c ∈ connections
       ∧ ((moduleId1 c = a ∧ moduleId2 c = b) ∨ (moduleId2 c = a ∧ moduleId1 c = b)).

(** The undirected connection relation, closed under paths. *)
Definition connectedTo (connections : list Connection) : string → string → Prop :=
  rtc (linked connections).

(** The ids the connections mention. *)
Definition mentioned (connections : list Connection) : gset string :=
  list_to_set (flat_map (fun c => [moduleId1 c; moduleId2 c]) connections).

(** What one connection pushes while [currentId] is visited: the body of
    the [forEach] in the reachability loop. *)
Definition pushedBy (connected : gset string) (currentId : string) (c : Connection)
    : option string :=
  if String.eqb (moduleId1 c) currentId && negb (bool_decide (moduleId2 c ∈ connected))
  then Some (moduleId2 c)
  else if String.eqb (moduleId2 c) currentId && negb (bool_decide (moduleId1 c ∈ connected))
  then Some (moduleId1 c)
  else None.

(** The loop invariant of the reachability walk from [start]: what is in
    the set or on the stack is connected to [start]; the neighbours of a
    visited id are visited or on the stack; [start] is not lost. *)
Definition walkInvariant (connections : list Connection) (start : string)
    (connected : gset string) (toVisit : list string) : Prop :=
  (∀ x, x ∈ connected ∨ x ∈ toVisit → connectedTo connections start x)
  ∧ (∀ x y, x ∈ connected → linked connections x y → y ∈ connected ∨ y ∈ toVisit)
  ∧ (start ∈ connected ∨ start ∈ toVisit).

(** The ids the walk from [start] can ever meet. *)
Definition walkUniverse (connections : list Connection) (start : string) : gset string :=
  {[start]} ∪ mentioned connections.

(** A bound on the iterations the loop still makes. *)
Definition walkPotential (connections : list Connection) (start : string)
    (connected : gset string) (toVisit : list string) : nat :=
  length toVisit + length connections * size (walkUniverse connections start ∖ connected).

(** The modules whose id is not in the set the walk returned. *)
Definition unreachedModules (reached : gset string) (modules : list ModuleInstance)
    : list ModuleInstance :=
  filter (λ m, m_id m ∉ reached) modules.

(** No connection mentions the module. *)
Definition isolated (connections : list Connection) (module : ModuleInstance) : Prop :=
  m_id module ∉ mentioned connections.

(** Every connection joins two modules of the list. *)
Definition noDanglingConnection (modules : list ModuleInstance) (connections : list Connection)
    : Prop :=
  ∀ x, x ∈ mentioned connections → x ∈ m_id <$> modules.

(** An issue refers to an id when the id is among its module ids, is its
    connection id, or occurs in its message text. *)
Definition refersTo (issue : Issue) (id : string) : bool :=
  match moduleIds issue with Some ids => existsb (String.eqb id) ids | None => false end
  || match connectionId issue with Some c => String.eqb id c | None => false end
  || match message issue with
     | Text text => match String.index 0 id text with Some _ => true | None => false end
     | OfReason _ => false
     end.

(** The error [validateHabitat] pushes for a connection one of whose
    modules is not in the module list. *)
Definition danglingError (connection : Connection) : Issue :=
  connectionIssue "invalid_connection" (Text "Connection references non-existent module") connection.

(** The errors of a report that carry the id of [connection]. *)
Definition errorsAbout (connection : Connection) (issues : list Issue) : list Issue :=
  List.filter (fun e => bool_decide (connectionId e = Some (c_id connection))) issues.

Definition isCollision (e : Issue) : bool := String.eqb (i_type e) "collision".

Definition hasDefinition (module : ModuleInstance) : bool :=
  match findDefinition (definitionId module) with Some _ => true | None => false end.

(** [comparefn] is a consistent comparator on the elements of [l], as
    ECMAScript asks of the argument of [sort]: no two elements sort after
    each other, and not sorting after is transitive. *)
Definition consistentOn {A : Type} (comparefn : A → A → float) (l : list A) : Prop :=
  (∀ a b, In a l → In b l → sortsAfter comparefn a b = true → sortsAfter comparefn b a = false)
  ∧ (∀ a b c, In a l → In b l → In c l →
       sortsAfter comparefn a b = false → sortsAfter comparefn b c = false →
       sortsAfter comparefn a c = false).

(** The check of [consistentOn] over all pairs and triples of [l]. *)
Definition consistentOnb {A : Type} (comparefn : A → A → float) (l : list A) : bool :=
  forallb (fun a =>
    forallb (fun b =>
      (negb (sortsAfter comparefn a b) || negb (sortsAfter comparefn b a))
      && forallb (fun c =>
           sortsAfter comparefn a b || sortsAfter comparefn b c
           || negb (sortsAfter comparefn a c)) l) l) l.

(** Neither of the two elements sorts after the other. *)
Definition ties {A : Type} (comparefn : A → A → float) (x y : A) : bool :=
  negb (sortsAfter comparefn x y) && negb (sortsAfter comparefn y x).

(** [a] does not sort after [b]: [a] may come first. *)
Definition inOrder {A : Type} (comparefn : A → A → float) (a b : A) : Prop :=
  sortsAfter comparefn a b = false.

(** The dot product the specification gives for the alignment threshold:
    the cosine of [MIN_ALIGNMENT_ANGLE]. *)
Definition specifiedAlignmentThreshold : float := (-0.809)%float.

(** ** Example data *)

(** A host whose [Math.cos] and [Math.sin] are Taylor polynomials.  At
    the argument [0], the only rotation the examples use, every host
    returns what these return: [1] and [0]. *)
Definition taylor_cos (x : float) : float :=
  let x2 := (x * x)%float in
  (1 - x2 / 2 * (1 - x2 / 12 * (1 - x2 / 30 * (1 - x2 / 56 * (1 - x2 / 90 *
   (1 - x2 / 132 * (1 - x2 / 182 * (1 - x2 / 240 * (1 - x2 / 306 * (1 - x2 / 380))))))))))%float.

Definition taylor_sin (x : float) : float :=
  let x2 := (x * x)%float in
  (x * (1 - x2 / 6 * (1 - x2 / 20 * (1 - x2 / 42 * (1 - x2 / 72 * (1 - x2 / 110 *
   (1 - x2 / 156 * (1 - x2 / 210 * (1 - x2 / 272 * (1 - x2 / 342 * (1 - x2 / 420)))))))))))%float.

(** A module placed without rotation, as the sample configurations write
    it. *)
Definition placed (id definitionId : string) (position : vec3) : ModuleInstance :=
  {| m_id := id; definitionId := definitionId; position := position;
     rotation := (0, 0, 0)%float; m_timestamp := None |}.

Definition connect (id moduleId1 pointId1 moduleId2 pointId2 : string) : Connection :=
  {| c_id := id; moduleId1 := moduleId1; pointId1 := pointId1;
     moduleId2 := moduleId2; pointId2 := pointId2; c_timestamp := None |}.

(** A connection point given directly in world space. *)
Definition worldPoint (id : string) (type : connectionType) (worldPosition worldNormal : vec3)
    : WorldPoint :=
  {| point := {| p_id := id; p_position := worldPosition; p_normal := worldNormal; p_type := type |};
     worldPosition := worldPosition; worldNormal := worldNormal; moduleId := "m" |}.

(** A utility port and a structural port 0.3 apart, facing each other. *)
Definition utilityPort : WorldPoint :=
  worldPoint "utility" utility (2.1, 0, 0)%float (1, 0, 0)%float.
Definition structuralPort : WorldPoint :=
  worldPoint "west" structural (2.4, 0, 0)%float (-1, 0, 0)%float.

(** Structural ports facing each other at 0.5 and just past 0.5. *)
Definition portAtOrigin : WorldPoint :=
  worldPoint "front" structural (0, 0, 0)%float (0, 0, 1)%float.
Definition portAtHalfMetre : WorldPoint :=
  worldPoint "back" structural (0, 0, 0.5)%float (0, 0, -1)%float.
Definition portPastHalfMetre : WorldPoint :=
  worldPoint "back" structural (0, 0, 0.5000000000000001)%float (0, 0, -1)%float.

(** Ports away from the axes: one whose three coordinates all differ from
    the origin's and which is exactly 0.5 from it, and a corner port with
    ports 0.2 and 0.3 further along every axis. *)
Definition portDiagonalHalfMetre : WorldPoint :=
  worldPoint "back" structural (0.125, 0.375, 0.30618621784789724)%float (0, 0, -1)%float.
Definition portCorner : WorldPoint :=
  worldPoint "front" structural (1, 2, 3)%float (0, 0, 1)%float.
Definition portDiagonalNear : WorldPoint :=
  worldPoint "back" structural (1.2, 2.2, 3.2)%float (0, 0, -1)%float.
Definition portDiagonalFar : WorldPoint :=
  worldPoint "back" structural (1.3, 2.3, 3.3)%float (0, 0, -1)%float.

(** Two structural ports at the same place whose normals make an angle of
    about 138.6 degrees: their dot product is -0.75. *)
Definition portFacingUp : WorldPoint :=
  worldPoint "north" structural (0, 0, 2.1)%float (0, 0, 1)%float.
Definition portTilted : WorldPoint :=
  worldPoint "back" structural (0, 0, 2.1)%float (0.6614378277661477, 0, -0.75)%float.

Definition hubAtOrigin : ModuleInstance := placed "hub-1" "central-hub" (0, 0, 0)%float.
Definition hubWest : ModuleInstance := placed "hub-2" "central-hub" (-4.2, 0, 0)%float.
Definition hubAbove : ModuleInstance := placed "hub-3" "central-hub" (0, 4.2, 0)%float.
Definition quartersNorth : ModuleInstance := placed "quarters-1" "living-quarters" (0, 0, 6.35)%float.
Definition quartersOverlapping : ModuleInstance :=
  placed "quarters-2" "living-quarters" (0, 0, 1)%float.
Definition labSouth : ModuleInstance := placed "lab-1" "laboratory" (0, 0, -7.45)%float.
Definition storageFar : ModuleInstance := placed "storage-1" "storage" (20, 0, 0)%float.
Definition airlockFar : ModuleInstance := placed "airlock-1" "airlock" (-20, 0, 0)%float.
Definition ghostAtOrigin : ModuleInstance := placed "ghost-1" "greenhouse" (0, 0, 0)%float.

Definition hubToLab : Connection := connect "conn-1" "hub-1" "south" "lab-1" "front".
Definition hubToQuarters : Connection := connect "conn-2" "hub-1" "north" "quarters-1" "back".

Definition someHost : Host :=
  {| uuidv4 := "3f2b8c1e-0d4a-4b7e-9a61-5c2d7e8f9a10"; Date_now := 1759500000000 |}.

Definition hubOnly : HabitatState := habitatReducer initialState (ADD_MODULE hubAtOrigin).

(** Hub and laboratory, connected, the laboratory selected. *)
Definition hubAndLab : HabitatState :=
  habitatReducer
    (habitatReducer
       (habitatReducer (habitatReducer initialState (ADD_MODULE hubAtOrigin)) (ADD_MODULE labSouth))
       (ADD_CONNECTION hubToLab))
    (SELECT_MODULE "lab-1").

(** The point ids, the module and the distance of a candidate. *)
Definition summary (c : PotentialConnection) : string * string * string * float :=
  (p_id (point (targetPoint c)), p_id (point (existingPoint c)),
   m_id (existingModule c), distance c).

(** A host [Math.round] for the examples: the nearest integer, halves
    upwards, by the float operations; numbers of magnitude 2^52 or more are
    integers already. *)
Definition roundHalfUp (x : float) : float :=
  let two52 := 4503599627370496%float in
  if isNaN x || (x =? 0)%float || negb (PrimFloat.abs x <? two52)%float then x
  else
    let nearest := if (0 <? x)%float then (x + two52 - two52)%float
                   else (x - two52 + two52)%float in
    let floor := if (x <? nearest)%float then (nearest - 1)%float else nearest in
    let rounded := if (x - floor <? 0.5)%float then floor else (floor + 1)%float in
    if (rounded =? 0)%float && (x <? 0)%float then (-0)%float else rounded.

Definition storageEast : ModuleInstance := placed "storage-2" "storage" (8, 0, 0)%float.

(** The storage module east of the hub was placed first. *)
Definition storageThenHub : HabitatState :=
  habitatReducer (habitatReducer initialState (ADD_MODULE storageEast)) (ADD_MODULE hubAtOrigin).

(** Two modules whose definitions are not in the catalog. *)
Definition ghostsOnly : HabitatState :=
  habitatReducer
    (habitatReducer initialState (ADD_MODULE ghostAtOrigin))
    (ADD_MODULE (placed "ghost-2" "greenhouse" (5, 5, 5)%float)).

(** The connection [autoConnect] adds for the candidate [closest]. *)
Definition autoConnection (host : Host) (moduleId : string) (closest : PotentialConnection)
    : Connection :=
  {| c_id := uuidv4 host; moduleId1 := moduleId;
     pointId1 := p_id (point (targetPoint closest));
     moduleId2 := m_id (existingModule closest);
     pointId2 := p_id (point (existingPoint closest));
     c_timestamp := Some (Date_now host) |}.

(** Hub and quarters, the quarters flush at the hub's north port. *)
Definition hubAndQuarters : HabitatState :=
  habitatReducer (habitatReducer initialState (ADD_MODULE hubAtOrigin)) (ADD_MODULE quartersNorth).

(** Hub and quarters, connected at the hub's north port. *)
Definition hubJoinedToQuarters : HabitatState :=
  habitatReducer hubAndQuarters (ADD_CONNECTION hubToQuarters).

(** Hub and quarters, the hub connected to a module that is not there. *)
Definition hubJoinedToGhost : HabitatState :=
  habitatReducer hubAndQuarters
    (ADD_CONNECTION (connect "conn-3" "hub-1" "south" "ghost-9" "front")).

(** The joined hub and quarters with both modules removed: the connection
    stays. *)
Definition connectionWithoutModules : HabitatState :=
  habitatReducer (habitatReducer hubJoinedToQuarters (REMOVE_MODULE "hub-1"))
    (REMOVE_MODULE "quarters-1").

(** Hub, overlapping quarters and a far storage module; hub and quarters
    are joined at a port the quarters do not have. *)
Definition habitatWithIssues : HabitatState :=
  habitatReducer
    (habitatReducer
       (habitatReducer (habitatReducer initialState (ADD_MODULE hubAtOrigin))
          (ADD_MODULE quartersOverlapping))
       (ADD_MODULE storageFar))
    (ADD_CONNECTION (connect "conn-4" "hub-1" "north" "quarters-2" "side")).

(** Hub, quarters, laboratory and storage, the hub joined to the quarters
    and to the laboratory, after the laboratory is removed: its connection
    stays. *)
Definition habitatAfterLabRemoved : HabitatState :=
  habitatReducer
    (habitatReducer
       (habitatReducer
          (habitatReducer
             (habitatReducer
                (habitatReducer
                   (habitatReducer initialState (ADD_MODULE hubAtOrigin))
                   (ADD_MODULE quartersNorth))
                (ADD_MODULE labSouth))
             (ADD_MODULE storageFar))
          (ADD_CONNECTION hubToQuarters))
       (ADD_CONNECTION hubToLab))
    (REMOVE_MODULE "lab-1").

(** ** The compatibility rule *)

Lemma canConnect_cases point1 point2 :
  let dist := distance3D (worldPosition point1) (worldPosition point2) in
  let alignment := dotProduct (worldNormal point1) (worldNormal point2) in
  canConnect point1 point2 =
    if includes (connectionRules (p_type (point point1))) (p_type (point point2)) then
      if (0.5 <? dist)%float then {| r_canConnect := false; reason := TooFarApart dist |}
      else if (-0.7 <? alignment)%float then
             {| r_canConnect := false; reason := NotAligned alignment |}
           else {| r_canConnect := true; reason := ConnectionValid |}
    else {| r_canConnect := false;
            reason := IncompatibleTypes (p_type (point point1)) (p_type (point point2)) |}.
Proof.
  unfold canConnect.
  destruct (includes _ _); reflexivity.
Qed.

Lemma canConnect_ok_iff point1 point2 :
  r_canConnect (canConnect point1 point2) = true ↔
  includes (connectionRules (p_type (point point1))) (p_type (point point2)) = true
  ∧ (MAX_CONNECTION_DISTANCE <? distance3D (worldPosition point1) (worldPosition point2))%float = false
  ∧ (-0.7 <? dotProduct (worldNormal point1) (worldNormal point2))%float = false.
Proof.
  rewrite canConnect_cases. cbv zeta.
  change MAX_CONNECTION_DISTANCE with 0.5%float.
  destruct (includes _ _), (PrimFloat.ltb 0.5 _), (PrimFloat.ltb (-0.7) _);
    simpl; intuition congruence.
Qed.

(** The answer is "incompatible types" exactly when the table, read at the
    first point's type, does not list the second point's type. *)
Lemma canConnect_incompatible point1 point2 :
  (∃ type1 type2, reason (canConnect point1 point2) = IncompatibleTypes type1 type2)
  ↔ includes (connectionRules (p_type (point point1))) (p_type (point point2)) = false.
Proof.
  rewrite canConnect_cases. cbv zeta.
  destruct (includes _ _).
  - split; [|discriminate]. intros (type1 & type2 & Hreason).
    destruct (PrimFloat.ltb 0.5 _); [discriminate|].
    destruct (PrimFloat.ltb (-0.7) _); discriminate.
  - split; [reflexivity|]. intros _. eauto.
Qed.

(** C1: the type check of [canConnect] reads the table at the first
    point's type only.  With the table
    structural -> [structural], utility -> [structural, utility],
    external -> [], a utility point A and a structural point B that are
    within the maximum distance and whose normals pass the alignment check
    connect as (A, B) and are refused as (B, A) for incompatible types. *)
Theorem canConnect_directional (A B : WorldPoint) :
  p_type (point A) = utility →
  p_type (point B) = structural →
  (MAX_CONNECTION_DISTANCE <? distance3D (worldPosition A) (worldPosition B))%float = false →
  (-0.7 <? dotProduct (worldNormal A) (worldNormal B))%float = false →
  connectionRules structural = [structural]
  ∧ connectionRules utility = [structural; utility]
  ∧ connectionRules external = []
  ∧ (∀ point1 point2,
       (∃ type1 type2, reason (canConnect point1 point2) = IncompatibleTypes type1 type2)
       ↔ includes (connectionRules (p_type (point point1))) (p_type (point point2)) = false)
  ∧ canConnect A B = {| r_canConnect := true; reason := ConnectionValid |}
  ∧ canConnect B A = {| r_canConnect := false; reason := IncompatibleTypes structural utility |}.
Proof.
  intros HA HB Hdist Halign.
  split; [reflexivity|]. split; [reflexivity|]. split; [reflexivity|].
  split; [exact canConnect_incompatible|]. split.
  - rewrite canConnect_cases. cbv zeta. rewrite HA, HB. simpl.
    change MAX_CONNECTION_DISTANCE with 0.5%float in Hdist.
    rewrite Hdist, Halign. reflexivity.
  - rewrite canConnect_cases. cbv zeta. rewrite HA, HB. reflexivity.
Qed.

Lemma canConnect_directional_witness :
  connectionRules structural = [structural]
  ∧ connectionRules utility = [structural; utility]
  ∧ connectionRules external = []
  ∧ (∀ point1 point2,
       (∃ type1 type2, reason (canConnect point1 point2) = IncompatibleTypes type1 type2)
       ↔ includes (connectionRules (p_type (point point1))) (p_type (point point2)) = false)
  ∧ canConnect utilityPort structuralPort = {| r_canConnect := true; reason := ConnectionValid |}
  ∧ canConnect structuralPort utilityPort =
      {| r_canConnect := false; reason := IncompatibleTypes structural utility |}.
Proof.
  apply (canConnect_directional utilityPort structuralPort); reflexivity.
Defined.

(** C7: among pairs that pass the type check, [canConnect] answers
    "too far apart" exactly when the Euclidean distance between the world
    positions, the square root of the sum of the squared coordinate
    differences, is strictly greater than 0.5; at a distance of exactly
    0.5 the distance check passes. *)
Theorem canConnect_too_far (point1 point2 : WorldPoint) (x1 y1 z1 x2 y2 z2 d : float) :
  includes (connectionRules (p_type (point point1))) (p_type (point point2)) = true →
  worldPosition point1 = (x1, y1, z1) →
  worldPosition point2 = (x2, y2, z2) →
  d = PrimFloat.sqrt ((x1 - x2) * (x1 - x2) + (y1 - y2) * (y1 - y2)
                      + (z1 - z2) * (z1 - z2))%float →
  MAX_CONNECTION_DISTANCE = 0.5%float
  ∧ (canConnect point1 point2 = {| r_canConnect := false; reason := TooFarApart d |}
     ↔ (0.5 <? d)%float = true)
  ∧ ((∃ d', reason (canConnect point1 point2) = TooFarApart d')
     ↔ (0.5 <? d)%float = true)
  ∧ (d = 0.5%float → ∀ d', reason (canConnect point1 point2) ≠ TooFarApart d').
Proof.
  intros Htype Hposition1 Hposition2 ->. rewrite canConnect_cases. cbv zeta. rewrite Htype.
  unfold distance3D. rewrite Hposition1, Hposition2. cbn [vx vy vz fst snd].
  split; [reflexivity|].
  destruct (PrimFloat.ltb 0.5 _) eqn:Hfar.
  - repeat split; try done; eauto.
    intros Heq. rewrite Heq in Hfar. discriminate Hfar.
  - destruct (PrimFloat.ltb (-0.7) _); simpl;
      (repeat split; [done | done | intros [d Hd]; done | done | intros _ d Hd; done]).
Qed.

(** Off the axes: a port 0.3 further along every axis than the corner port
    is about 0.52 away and too far, one 0.2 further along every axis
    connects, and the port at (0.125, 0.375, 0.306...) is exactly 0.5 from
    the origin and connects.  Along one axis: 0.5 connects and the next
    number after 0.5 is too far. *)
Lemma canConnect_too_far_witness :
  canConnect portCorner portDiagonalFar
    = {| r_canConnect := false; reason := TooFarApart 0.51961524227066302 |}
  ∧ canConnect portCorner portDiagonalNear
    = {| r_canConnect := true; reason := ConnectionValid |}
  ∧ (∀ d, reason (canConnect portAtOrigin portDiagonalHalfMetre) ≠ TooFarApart d)
  ∧ canConnect portAtOrigin portDiagonalHalfMetre
    = {| r_canConnect := true; reason := ConnectionValid |}
  ∧ canConnect portAtOrigin portPastHalfMetre
    = {| r_canConnect := false; reason := TooFarApart 0.5000000000000001 |}
  ∧ (∀ d, reason (canConnect portAtOrigin portAtHalfMetre) ≠ TooFarApart d)
  ∧ canConnect portAtOrigin portAtHalfMetre = {| r_canConnect := true; reason := ConnectionValid |}.
Proof.
  split; [|split; [|split; [|split; [|split; [|split]]]]].
  - apply (canConnect_too_far portCorner portDiagonalFar 1 2 3 1.3 2.3 3.3 _
             eq_refl eq_refl eq_refl eq_refl).
    reflexivity.
  - reflexivity.
  - apply (canConnect_too_far portAtOrigin portDiagonalHalfMetre
             0 0 0 0.125 0.375 0.30618621784789724 _ eq_refl eq_refl eq_refl eq_refl).
    reflexivity.
  - reflexivity.
  - apply (canConnect_too_far portAtOrigin portPastHalfMetre 0 0 0 0 0 0.5000000000000001 _
             eq_refl eq_refl eq_refl eq_refl).
    reflexivity.
  - apply (canConnect_too_far portAtOrigin portAtHalfMetre 0 0 0 0 0 0.5 _
             eq_refl eq_refl eq_refl eq_refl).
    reflexivity.
  - reflexivity.
Defined.

(** The alignment check as the code has it: among pairs that pass the type
    and distance checks, the answer is "not aligned" exactly when the dot
    product of the world normals is strictly greater than -0.7. *)
Lemma canConnect_not_aligned (point1 point2 : WorldPoint) :
  includes (connectionRules (p_type (point point1))) (p_type (point point2)) = true →
  (0.5 <? distance3D (worldPosition point1) (worldPosition point2))%float = false →
  (canConnect point1 point2
     = {| r_canConnect := false;
          reason := NotAligned (dotProduct (worldNormal point1) (worldNormal point2)) |}
   ↔ (-0.7 <? dotProduct (worldNormal point1) (worldNormal point2))%float = true)
  ∧ (dotProduct (worldNormal point1) (worldNormal point2) = (-0.7)%float →
     canConnect point1 point2 = {| r_canConnect := true; reason := ConnectionValid |}).
Proof.
  intros Htype Hdist. rewrite canConnect_cases. cbv zeta. rewrite Htype, Hdist.
  destruct (PrimFloat.ltb (-0.7) _) eqn:Hdot.
  - split; [done|]. intros Heq. rewrite Heq in Hdot. discriminate Hdot.
  - split; [split; done | done].
Qed.

(** C2: the threshold of the alignment check.  Among pairs that pass the
    type and distance checks the answer is "not aligned" exactly when the
    dot product of the world normals is strictly greater than the literal
    -0.7 (an angle of about 134.4 degrees), and at -0.7 exactly the pair
    passes.  The literal is not the cosine of [MIN_ALIGNMENT_ANGLE]
    (144 degrees, about -0.809): normals with dot product -0.75 are
    accepted although they are less opposed than 144 degrees. *)
Theorem canConnect_alignment_threshold :
  (∀ point1 point2,
     includes (connectionRules (p_type (point point1))) (p_type (point point2)) = true →
     (0.5 <? distance3D (worldPosition point1) (worldPosition point2))%float = false →
     (canConnect point1 point2
        = {| r_canConnect := false;
             reason := NotAligned (dotProduct (worldNormal point1) (worldNormal point2)) |}
      ↔ (-0.7 <? dotProduct (worldNormal point1) (worldNormal point2))%float = true)
     ∧ (dotProduct (worldNormal point1) (worldNormal point2) = (-0.7)%float →
        canConnect point1 point2 = {| r_canConnect := true; reason := ConnectionValid |}))
  ∧ dotProduct (worldNormal portFacingUp) (worldNormal portTilted) = (-0.75)%float
  ∧ (specifiedAlignmentThreshold <? -0.75)%float = true
  ∧ (taylor_cos MIN_ALIGNMENT_ANGLE <? -0.75)%float = true
  ∧ (-0.7 <? -0.75)%float = false
  ∧ canConnect portFacingUp portTilted = {| r_canConnect := true; reason := ConnectionValid |}.
Proof.
  split; [exact canConnect_not_aligned|]. repeat split.
Qed.

(** ** The habitat reducer *)

Lemma reachable_statistics state :
  reachable state → statistics state = calculateStatistics (modules state).
Proof.
  induction 1 as [|state action _ IH]; [reflexivity|].
  destruct action; simpl; try assumption; reflexivity.
Qed.

Lemma calculateStatistics_powerBalance modules :
  powerBalance (calculateStatistics modules)
  = (totalPowerGeneration (calculateStatistics modules)
     - totalPowerConsumption (calculateStatistics modules))%float.
Proof. reflexivity. Qed.

Lemma filter_other_ids (modules : list ModuleInstance) id :
  (∀ m, In m modules → m_id m ≠ id) →
  List.filter (fun module => negb (String.eqb (m_id module) id)) modules = modules.
Proof.
  induction modules as [|m modules IH]; intros Hfresh; [reflexivity|].
  simpl. destruct (String.eqb_spec (m_id m) id) as [Heq|_].
  - exfalso. apply (Hfresh m); [left; reflexivity | exact Heq].
  - simpl. f_equal. apply IH. intros m' Hin. apply Hfresh. right. exact Hin.
Qed.

Lemma remove_added_module (modules : list ModuleInstance) module :
  (∀ m, In m modules → m_id m ≠ m_id module) →
  List.filter (fun m => negb (String.eqb (m_id m) (m_id module))) (modules ++ [module]) = modules.
Proof.
  intros Hfresh. rewrite List.filter_app, filter_other_ids by exact Hfresh.
  simpl. rewrite String.eqb_refl. simpl. apply app_nil_r.
Qed.

Lemma foldl_addDefinition_snoc modules module definition :
  findDefinition (definitionId module) = Some definition →
  foldl addDefinition zeroTotals (modules ++ [module])
  = let acc := foldl addDefinition zeroTotals modules in
    {| acc_totalMass := (acc_totalMass acc + mass definition)%float;
       acc_totalCrewCapacity := (acc_totalCrewCapacity acc + crewCapacity definition)%float;
       acc_totalPowerConsumption := (acc_totalPowerConsumption acc + powerConsumption definition)%float;
       acc_totalPowerGeneration := (acc_totalPowerGeneration acc + powerGeneration definition)%float;
       acc_totalCost := (acc_totalCost acc + cost definition)%float |}.
Proof.
  intros Hdef. rewrite foldl_app. simpl. unfold addDefinition at 1. rewrite Hdef. reflexivity.
Qed.

(** C8: statistics are computed from the module list.  In every state of
    the provider, adding a module whose definition exists raises
    totalMass, totalCost and totalCrewCapacity by the definition's values,
    and removing that module again (its id being new, as [uuidv4] makes
    it) gives back the statistics from before the addition;
    powerBalance is totalPowerGeneration minus totalPowerConsumption
    throughout. *)
Theorem statistics_round_trip (state : HabitatState) (module : ModuleInstance)
    (definition : ModuleDefinition) :
  reachable state →
  findDefinition (definitionId module) = Some definition →
  (∀ m, In m (modules state) → m_id m ≠ m_id module) →
  statistics state = calculateStatistics (modules state)
  ∧ totalMass (statistics (habitatReducer state (ADD_MODULE module)))
    = (totalMass (statistics state) + mass definition)%float
  ∧ totalCost (statistics (habitatReducer state (ADD_MODULE module)))
    = (totalCost (statistics state) + cost definition)%float
  ∧ totalCrewCapacity (statistics (habitatReducer state (ADD_MODULE module)))
    = (totalCrewCapacity (statistics state) + crewCapacity definition)%float
  ∧ statistics (habitatReducer (habitatReducer state (ADD_MODULE module))
                               (REMOVE_MODULE (m_id module)))
    = statistics state
  ∧ Forall (fun s => powerBalance (statistics s)
                     = (totalPowerGeneration (statistics s)
                        - totalPowerConsumption (statistics s))%float)
      [ state;
        habitatReducer state (ADD_MODULE module);
        habitatReducer (habitatReducer state (ADD_MODULE module)) (REMOVE_MODULE (m_id module)) ].
Proof.
  intros Hreach Hdef Hfresh.
  pose proof (reachable_statistics state Hreach) as Hstats.
  split; [exact Hstats|].
  rewrite Hstats. simpl.
  rewrite (foldl_addDefinition_snoc _ _ _ Hdef). simpl.
  repeat (split; [reflexivity|]).
  rewrite remove_added_module by exact Hfresh.
  split; [reflexivity|].
  repeat constructor; simpl; rewrite ?Hstats; reflexivity.
Qed.

Lemma statistics_round_trip_witness :
  statistics hubOnly = calculateStatistics [hubAtOrigin]
  ∧ totalMass (statistics (habitatReducer hubOnly (ADD_MODULE quartersNorth))) = 27000%float
  ∧ totalCost (statistics (habitatReducer hubOnly (ADD_MODULE quartersNorth))) = 43000000%float
  ∧ totalCrewCapacity (statistics (habitatReducer hubOnly (ADD_MODULE quartersNorth))) = 4%float
  ∧ statistics (habitatReducer (habitatReducer hubOnly (ADD_MODULE quartersNorth))
                               (REMOVE_MODULE "quarters-1"))
    = statistics hubOnly.
Proof.
  assert (Hfresh : ∀ m, In m (modules hubOnly) → m_id m ≠ m_id quartersNorth).
  { intros m [<-|[]]. discriminate. }
  destruct (statistics_round_trip hubOnly quartersNorth living_quarters
              (reachable_step _ _ reachable_initial) eq_refl Hfresh)
    as (Hstats & Hmass & Hcost & Hcrew & Hback & _).
  split; [exact Hstats|].
  split; [rewrite Hmass; reflexivity|].
  split; [rewrite Hcost; reflexivity|].
  split; [rewrite Hcrew; reflexivity|].
  exact Hback.
Defined.

(** C9: [addModule] with a definition id that is not in the catalog
    returns no module id and leaves the habitat state as it was: no module
    is created and the statistics are those from before the call. *)
Theorem addModule_unknown_definition (host : Host) (state : HabitatState)
    (definitionId : string) (position rotation : vec3) :
  findDefinition definitionId = None →
  returned (addModule host state definitionId position rotation) = None
  ∧ state_after (addModule host state definitionId position rotation) = state
  ∧ modules (state_after (addModule host state definitionId position rotation)) = modules state
  ∧ statistics (state_after (addModule host state definitionId position rotation))
    = statistics state.
Proof.
  intros Hnone. unfold addModule. rewrite Hnone. simpl. repeat split.
Qed.

Lemma addModule_unknown_definition_witness :
  returned (addModule someHost hubOnly "greenhouse" (8, 0, 0)%float (0, 0, 0)%float) = None
  ∧ state_after (addModule someHost hubOnly "greenhouse" (8, 0, 0)%float (0, 0, 0)%float) = hubOnly
  ∧ modules (state_after (addModule someHost hubOnly "greenhouse" (8, 0, 0)%float (0, 0, 0)%float))
    = modules hubOnly
  ∧ statistics (state_after (addModule someHost hubOnly "greenhouse" (8, 0, 0)%float (0, 0, 0)%float))
    = statistics hubOnly.
Proof.
  apply (addModule_unknown_definition someHost hubOnly "greenhouse"). reflexivity.
Defined.

(** With a definition of the catalog [addModule] appends the new module
    and returns its id. *)
Lemma addModule_known_definition (host : Host) (state : HabitatState)
    (definitionId : string) (position rotation : vec3) definition :
  findDefinition definitionId = Some definition →
  returned (addModule host state definitionId position rotation) = Some (uuidv4 host)
  ∧ modules (state_after (addModule host state definitionId position rotation))
    = modules state ++ [ {| m_id := uuidv4 host; definitionId := definitionId;
                            position := position; rotation := rotation;
                            m_timestamp := Some (Date_now host) |} ].
Proof.
  intros Hsome. unfold addModule. rewrite Hsome. simpl. split; reflexivity.
Qed.

(** C5, as the reducer has it: REMOVE_MODULE drops every module with the
    given id and clears the selection when it pointed at that id; the
    connections are left as they were, whether or not they reference the
    removed module. *)
Theorem remove_module_effect (state : HabitatState) (moduleId : string) :
  connections (habitatReducer state (REMOVE_MODULE moduleId)) = connections state
  ∧ (∀ m, In m (modules (habitatReducer state (REMOVE_MODULE moduleId)))
          ↔ In m (modules state) ∧ m_id m ≠ moduleId)
  ∧ (selectedModuleId state = Some moduleId →
     selectedModuleId (habitatReducer state (REMOVE_MODULE moduleId)) = None)
  ∧ (selectedModuleId state ≠ Some moduleId →
     selectedModuleId (habitatReducer state (REMOVE_MODULE moduleId)) = selectedModuleId state).
Proof.
  simpl. split; [reflexivity|]. split; [|split].
  - intros m. rewrite List.filter_In.
    destruct (String.eqb_spec (m_id m) moduleId); simpl; intuition congruence.
  - intros ->. rewrite String.eqb_refl. reflexivity.
  - intros Hother. destruct (selectedModuleId state) as [selected|]; [|reflexivity].
    destruct (String.eqb_spec selected moduleId) as [->|_]; [|reflexivity].
    exfalso. apply Hother. reflexivity.
Qed.

(** After the laboratory is removed the connection that references it is
    still in the state. *)
Lemma remove_module_keeps_connections :
  modules (removeModule hubAndLab "lab-1") = [hubAtOrigin]
  ∧ selectedModuleId (removeModule hubAndLab "lab-1") = None
  ∧ connections (removeModule hubAndLab "lab-1") = [hubToLab]
  ∧ moduleId2 hubToLab = "lab-1".
Proof. repeat split. Qed.

(** ** The reachability walk *)

Lemma elem_of_mentioned connections x :
  x ∈ mentioned connections ↔ ∃ c, c ∈ connections ∧ (moduleId1 c = x ∨ moduleId2 c = x).
Proof.
  unfold mentioned. rewrite elem_of_list_to_set, list_elem_of_In, in_flat_map.
  split.
  - intros (c & Hc & Hx). exists c. rewrite list_elem_of_In. simpl in Hx. tauto.
  - intros (c & Hc & Hx). exists c. rewrite <- list_elem_of_In. simpl. tauto.
Qed.

Lemma size_list_to_set_le (l : list string) : size (list_to_set l : gset string) ≤ length l.
Proof.
  induction l as [|x l IH].
  - rewrite list_to_set_nil, size_empty. simpl. lia.
  - rewrite list_to_set_cons, size_union_alt, size_singleton.
    assert (Hle : size (list_to_set l ∖ {[x]} : gset string) ≤ size (list_to_set l : gset string)).
    { apply subseteq_size. set_solver. }
    simpl. lia.
Qed.

Lemma size_mentioned connections : size (mentioned connections) ≤ 2 * length connections.
Proof.
  unfold mentioned. etrans; [apply size_list_to_set_le|].
  induction connections as [|c connections IH]; simpl; lia.
Qed.

Section Walk.
Variable connections : list Connection.

Lemma pushNeighbours_app (cs : list Connection) connected currentId toVisit :
  pushNeighbours cs connected currentId toVisit
  = reverse (omap (pushedBy connected currentId) cs) ++ toVisit.
Proof.
  revert toVisit. induction cs as [|c cs IH]; intros toVisit; [reflexivity|].
  simpl. unfold pushNeighbours in IH |- *. simpl. rewrite IH.
  unfold pushedBy at 2.
  destruct (String.eqb (moduleId1 c) currentId && negb (bool_decide (moduleId2 c ∈ connected))).
  { rewrite reverse_cons, <- app_assoc. reflexivity. }
  destruct (String.eqb (moduleId2 c) currentId && negb (bool_decide (moduleId1 c ∈ connected))).
  { rewrite reverse_cons, <- app_assoc. reflexivity. }
  reflexivity.
Qed.

Lemma length_omap_le connected currentId (cs : list Connection) :
  length (omap (pushedBy connected currentId) cs) ≤ length cs.
Proof.
  induction cs as [|c cs IH]; csimpl; [lia|].
  destruct (pushedBy connected currentId c); csimpl; lia.
Qed.

Lemma pushNeighbours_length connected currentId toVisit :
  length (pushNeighbours connections connected currentId toVisit)
  ≤ length connections + length toVisit.
Proof.
  rewrite pushNeighbours_app, length_app, length_reverse.
  pose proof (length_omap_le connected currentId connections). lia.
Qed.

Lemma pushedBy_linked connected currentId c x :
  c ∈ connections → pushedBy connected currentId c = Some x → linked connections currentId x.
Proof.
  intros Hc. unfold pushedBy.
  destruct (String.eqb_spec (moduleId1 c) currentId) as [H1|_]; simpl.
  - destruct (bool_decide (moduleId2 c ∈ connected)); simpl.
    + destruct (String.eqb_spec (moduleId2 c) currentId) as [H2|_]; simpl; [|discriminate].
      destruct (bool_decide (moduleId1 c ∈ connected)); simpl; [discriminate|].
      intros [= <-]. exists c. auto.
    + intros [= <-]. exists c. auto.
  - destruct (String.eqb_spec (moduleId2 c) currentId) as [H2|_]; simpl; [|discriminate].
    destruct (bool_decide (moduleId1 c ∈ connected)); simpl; [discriminate|].
    intros [= <-]. exists c. auto.
Qed.

Lemma pushNeighbours_sound connected currentId toVisit x :
  x ∈ pushNeighbours connections connected currentId toVisit →
  x ∈ toVisit ∨ linked connections currentId x.
Proof.
  rewrite pushNeighbours_app, elem_of_app, elem_of_reverse, list_elem_of_omap.
  intros [(c & Hc & Hx)|Hin]; [right|left; exact Hin].
  eapply pushedBy_linked; eassumption.
Qed.

Lemma pushNeighbours_keeps connected currentId toVisit x :
  x ∈ toVisit → x ∈ pushNeighbours connections connected currentId toVisit.
Proof. rewrite pushNeighbours_app, elem_of_app. auto. Qed.

Lemma pushNeighbours_complete connected currentId toVisit x :
  currentId ∈ connected →
  linked connections currentId x →
  x ∈ connected ∨ x ∈ pushNeighbours connections connected currentId toVisit.
Proof.
  intros Hcur (c & Hc & Hends).
  destruct (decide (x ∈ connected)) as [Hx|Hx]; [left; exact Hx|right].
  rewrite pushNeighbours_app, elem_of_app, elem_of_reverse, list_elem_of_omap.
  left. exists c. split; [exact Hc|].
  unfold pushedBy. destruct Hends as [[H1 H2]|[H2 H1]]; subst.
  - rewrite String.eqb_refl, bool_decide_eq_false_2 by exact Hx. reflexivity.
  - rewrite (bool_decide_eq_true_2 (moduleId2 c ∈ connected)) by exact Hcur.
    rewrite andb_false_r, String.eqb_refl, bool_decide_eq_false_2 by exact Hx. reflexivity.
Qed.

Variable start : string.

Lemma connectedTo_universe x :
  connectedTo connections start x → x ∈ walkUniverse connections start.
Proof.
  unfold walkUniverse. revert x.
  apply rtc_ind_r; [set_solver|].
  intros y z _ (c & Hc & Hends) _.
  apply elem_of_union_r, elem_of_mentioned. exists c. split; [exact Hc|].
  destruct Hends as [[_ ->]|[_ ->]]; auto.
Qed.

Lemma walkInvariant_closed connected x :
  walkInvariant connections start connected [] →
  connectedTo connections start x → x ∈ connected.
Proof.
  intros (_ & Hclosed & Hstart). revert x.
  apply rtc_ind_r; [|intros y z _ Hstep IH].
  - destruct Hstart as [Hin|Hin]; [exact Hin|]. inversion Hin.
  - destruct (Hclosed y z IH Hstep) as [Hin|Hin]; [exact Hin|]. inversion Hin.
Qed.

Lemma walkInvariant_skip connected currentId rest :
  currentId ∈ connected →
  walkInvariant connections start connected (currentId :: rest) →
  walkInvariant connections start connected rest.
Proof.
  intros Hcur (Hsound & Hclosed & Hstart). split; [|split].
  - intros x [Hx|Hx]; apply Hsound; [left; exact Hx | right; right; exact Hx].
  - intros x y Hx Hstep.
    destruct (Hclosed x y Hx Hstep) as [Hy|Hy]; [left; exact Hy|].
    apply elem_of_cons in Hy as [->|Hy]; auto.
  - destruct Hstart as [Hin|Hin]; [left; exact Hin|].
    apply elem_of_cons in Hin as [->|Hin]; auto.
Qed.

Lemma walkInvariant_visit connected currentId rest :
  walkInvariant connections start connected (currentId :: rest) →
  walkInvariant connections start ({[currentId]} ∪ connected)
    (pushNeighbours connections ({[currentId]} ∪ connected) currentId rest).
Proof.
  intros (Hsound & Hclosed & Hstart).
  assert (Hcur : connectedTo connections start currentId).
  { apply Hsound. right. left. }
  split; [|split].
  - intros x [Hx|Hx].
    + apply elem_of_union in Hx as [Hx|Hx].
      * apply elem_of_singleton in Hx as ->. exact Hcur.
      * apply Hsound. left. exact Hx.
    + apply pushNeighbours_sound in Hx as [Hx|Hx].
      * apply Hsound. right. right. exact Hx.
      * eapply rtc_r; eassumption.
  - intros x y Hx Hstep. apply elem_of_union in Hx as [Hx|Hx].
    + apply elem_of_singleton in Hx as ->.
      apply pushNeighbours_complete; [set_solver | exact Hstep].
    + destruct (Hclosed x y Hx Hstep) as [Hy|Hy]; [left; set_solver|].
      apply elem_of_cons in Hy as [->|Hy]; [left; set_solver|].
      right. apply pushNeighbours_keeps. exact Hy.
  - destruct Hstart as [Hin|Hin]; [left; set_solver|].
    apply elem_of_cons in Hin as [->|Hin]; [left; set_solver|].
    right. apply pushNeighbours_keeps. exact Hin.
Qed.

Lemma walkPotential_skip connected currentId rest :
  walkPotential connections start connected rest
  < walkPotential connections start connected (currentId :: rest).
Proof. unfold walkPotential. simpl. lia. Qed.

Lemma walkPotential_visit connected currentId rest :
  currentId ∉ connected →
  currentId ∈ walkUniverse connections start →
  walkPotential connections start ({[currentId]} ∪ connected)
    (pushNeighbours connections ({[currentId]} ∪ connected) currentId rest)
  < walkPotential connections start connected (currentId :: rest).
Proof.
  intros Hnew Hin. unfold walkPotential.
  pose proof (pushNeighbours_length ({[currentId]} ∪ connected) currentId rest) as Hlen.
  assert (Hsize : size (walkUniverse connections start ∖ ({[currentId]} ∪ connected))
                  < size (walkUniverse connections start ∖ connected)).
  { apply subset_size. set_solver. }
  simpl. nia.
Qed.

(** The loop ends within the iterations the potential gives, and the set
    it returns holds exactly the ids connected to [start]. *)
Lemma visit_spec fuel connected toVisit :
  walkInvariant connections start connected toVisit →
  walkPotential connections start connected toVisit < fuel →
  ∃ reached, visit fuel connections connected toVisit = Some reached
             ∧ ∀ x, x ∈ reached ↔ connectedTo connections start x.
Proof.
  revert connected toVisit.
  induction fuel as [|fuel IH]; intros connected toVisit Hinv Hfuel; [lia|].
  destruct toVisit as [|currentId rest]; simpl.
  - exists connected. split; [reflexivity|]. intros x. split.
    + intros Hx. apply Hinv. left. exact Hx.
    + apply walkInvariant_closed. exact Hinv.
  - case_bool_decide as Hseen.
    + apply IH; [eapply walkInvariant_skip; eassumption|].
      pose proof (walkPotential_skip connected currentId rest). lia.
    + apply IH; [apply walkInvariant_visit; exact Hinv|].
      assert (Hin : currentId ∈ walkUniverse connections start).
      { apply connectedTo_universe, Hinv. right. left. }
      pose proof (walkPotential_visit connected currentId rest Hseen Hin). lia.
Qed.

Lemma walkInvariant_start : walkInvariant connections start ∅ [start].
Proof.
  split; [|split].
  - intros x [Hx|Hx]; [set_solver|].
    apply list_elem_of_singleton in Hx as ->. apply rtc_refl.
  - intros x y Hx. set_solver.
  - right. left.
Qed.

Lemma walkPotential_start :
  walkPotential connections start ∅ [start] < visitFuel connections.
Proof.
  unfold walkPotential, visitFuel, walkUniverse.
  assert (size (({[start]} ∪ mentioned connections) ∖ ∅) ≤ S (2 * length connections)).
  { etrans; [apply subseteq_size, (subseteq_difference_l _ _ _ (reflexivity _))|].
    rewrite size_union_alt, size_singleton.
    pose proof (size_mentioned connections).
    assert (size (mentioned connections ∖ {[start]}) ≤ size (mentioned connections)).
    { apply subseteq_size, subseteq_difference_l. reflexivity. }
    lia. }
  simpl. nia.
Qed.

(** The walk of [validateHabitat] from [start] always ends, with the set
    of the ids connected to [start]. *)
Lemma visit_from_start :
  ∃ reached, visit (visitFuel connections) connections ∅ [start] = Some reached
             ∧ ∀ x, x ∈ reached ↔ connectedTo connections start x.
Proof. apply visit_spec; [apply walkInvariant_start | apply walkPotential_start]. Qed.

End Walk.

(** ** The validation report *)

Lemma checkModuleCollision_unknown (module1 module2 : ModuleInstance) :
  findDefinition (definitionId module1) = None ∨ findDefinition (definitionId module2) = None →
  checkModuleCollision module1 module2 = false.
Proof.
  intros [Hnone|Hnone]; unfold checkModuleCollision; rewrite Hnone; [reflexivity|].
  destruct (findDefinition (definitionId module1)); reflexivity.
Qed.

Lemma checkModuleCollision_known (module1 module2 : ModuleInstance) :
  checkModuleCollision module1 module2 = true →
  is_Some (findDefinition (definitionId module1)) ∧ is_Some (findDefinition (definitionId module2)).
Proof.
  intros Hhit.
  destruct (findDefinition (definitionId module1)) eqn:H1;
    destruct (findDefinition (definitionId module2)) eqn:H2; eauto;
    rewrite checkModuleCollision_unknown in Hhit by auto; discriminate Hhit.
Qed.

Lemma collisionErrors_In (modules : list ModuleInstance) (e : Issue) :
  In e (collisionErrors modules) →
  ∃ module1 module2,
    In module1 modules ∧ In module2 modules
    ∧ e = collisionError module1 module2
    ∧ checkModuleCollision module1 module2 = true.
Proof.
  induction modules as [|mi rest IH]; simpl; [intros []|].
  rewrite in_app_iff, in_flat_map. intros [(mj & Hmj & He)|He].
  - destruct (checkModuleCollision mi mj) eqn:Hhit; [|destruct He].
    destruct He as [<-|[]]. exists mi, mj. auto.
  - destruct (IH He) as (m1 & m2 & H1 & H2 & Heq & Hhit).
    exists m1, m2. auto.
Qed.

Lemma collisionErrors_connectionId (modules : list ModuleInstance) (e : Issue) :
  In e (collisionErrors modules) → connectionId e = None.
Proof.
  intros He. destruct (collisionErrors_In modules e He) as (m1 & m2 & _ & _ & -> & _).
  reflexivity.
Qed.

Lemma filter_nil_iff {A} (f : A → bool) (l : list A) :
  List.filter f l = [] ↔ ∀ x, In x l → f x = false.
Proof.
  induction l as [|x l IH]; simpl; [tauto|].
  destruct (f x) eqn:Hfx.
  - split; [discriminate|]. intros Hall.
    rewrite Hall in Hfx by (left; reflexivity). discriminate.
  - rewrite IH. split.
    + intros Hall y [<-|Hy]; [exact Hfx | apply Hall; exact Hy].
    + intros Hall y Hy. apply Hall. right. exact Hy.
Qed.

Lemma filter_all {A} (f : A → bool) (l : list A) :
  (∀ x, In x l → f x = true) → List.filter f l = l.
Proof.
  induction l as [|x l IH]; intros Hall; simpl; [reflexivity|].
  rewrite Hall by (left; reflexivity). f_equal.
  apply IH. intros y Hy. apply Hall. right. exact Hy.
Qed.

Lemma filter_collisionErrors (modules : list ModuleInstance) :
  List.filter isCollision (collisionErrors modules) = collisionErrors modules.
Proof.
  apply filter_all. intros e He.
  destruct (collisionErrors_In _ _ He) as (a & b & _ & _ & -> & _). reflexivity.
Qed.

Lemma collisions_with_known (mi : ModuleInstance) (rest : list ModuleInstance) :
  flat_map (fun mj => if checkModuleCollision mi mj then [collisionError mi mj] else []) rest
  = flat_map (fun mj => if checkModuleCollision mi mj then [collisionError mi mj] else [])
             (List.filter hasDefinition rest).
Proof.
  induction rest as [|mj rest IH]; simpl; [reflexivity|].
  unfold hasDefinition at 1. destruct (findDefinition (definitionId mj)) eqn:Hdef; simpl.
  - rewrite IH. reflexivity.
  - rewrite checkModuleCollision_unknown by auto. exact IH.
Qed.

Lemma collisions_with_unknown (mi : ModuleInstance) (rest : list ModuleInstance) :
  findDefinition (definitionId mi) = None →
  flat_map (fun mj => if checkModuleCollision mi mj then [collisionError mi mj] else []) rest = [].
Proof.
  intros Hnone. induction rest as [|mj rest IH]; simpl; [reflexivity|].
  rewrite checkModuleCollision_unknown by auto. exact IH.
Qed.

Lemma collisionErrors_known (modules : list ModuleInstance) :
  collisionErrors modules = collisionErrors (List.filter hasDefinition modules).
Proof.
  induction modules as [|mi rest IH]; simpl; [reflexivity|].
  unfold hasDefinition at 1. destruct (findDefinition (definitionId mi)) eqn:Hdef; simpl.
  - rewrite collisions_with_known, IH. reflexivity.
  - rewrite collisions_with_unknown by exact Hdef. exact IH.
Qed.

Section Report.
Variables Math_cos Math_sin : float → float.

Local Abbreviation connectionErrors := (connectionErrors Math_cos Math_sin).
Local Abbreviation reportErrors := (reportErrors Math_cos Math_sin).
Local Abbreviation validateHabitat := (validateHabitat Math_cos Math_sin).

Lemma connectionErrors_dangling modules connection :
  findModule modules (moduleId1 connection) = None
  ∨ findModule modules (moduleId2 connection) = None →
  connectionErrors modules connection = [danglingError connection].
Proof.
  intros [Hnone|Hnone]; unfold connectionErrors; rewrite Hnone; [reflexivity|].
  destruct (findModule modules (moduleId1 connection)); reflexivity.
Qed.

Lemma connectionErrors_shape modules connection e :
  In e (connectionErrors modules connection) →
  connectionId e = Some (c_id connection) ∧ moduleIds e = None
  ∧ (i_type e = "invalid_connection" ∨ i_type e = "invalid_connection_point").
Proof.
  unfold connectionErrors.
  destruct (findModule modules (moduleId1 connection)) as [module1|];
    [destruct (findModule modules (moduleId2 connection)) as [module2|]|].
  - destruct (List.find _ (getWorldConnectionPoints _ _ module1)) as [point1|];
      [destruct (List.find _ (getWorldConnectionPoints _ _ module2)) as [point2|]|].
    + destruct (negb _); [|intros []]. intros [<-|[]]. simpl. auto.
    + intros [<-|[]]. simpl. auto.
    + intros [<-|[]]. simpl. auto.
  - intros [<-|[]]. simpl. auto.
  - intros [<-|[]]. simpl. auto.
Qed.

Lemma errorsAbout_app connection issues1 issues2 :
  errorsAbout connection (issues1 ++ issues2)
  = errorsAbout connection issues1 ++ errorsAbout connection issues2.
Proof. apply List.filter_app. Qed.

Lemma errorsAbout_none connection issues :
  (∀ e, In e issues → connectionId e ≠ Some (c_id connection)) →
  errorsAbout connection issues = [].
Proof.
  induction issues as [|e issues IH]; intros Hother; [reflexivity|].
  simpl. rewrite bool_decide_eq_false_2 by (apply Hother; left; reflexivity).
  apply IH. intros e' He'. apply Hother. right. exact He'.
Qed.

Lemma errorsAbout_other_connections modules connection (others : list Connection) :
  (∀ c, In c others → c_id c ≠ c_id connection) →
  errorsAbout connection (flat_map (connectionErrors modules) others) = [].
Proof.
  intros Hids. apply errorsAbout_none. intros e He.
  apply in_flat_map in He as (c & Hc & He).
  apply connectionErrors_shape in He as (-> & _). intros [= Heq]. exact (Hids c Hc Heq).
Qed.

(** The loop of [validateHabitat] over the connections ends for every
    input, so the function returns a report: its warnings are decided by
    the size of the set of ids connected to the first module. *)
Lemma connectivityWarnings_spec modules connections :
  ∃ issues, connectivityWarnings modules connections = Some issues
    ∧ match modules with
      | first :: _ :: _ =>
          ∃ reached : gset string,
            (∀ x, x ∈ reached ↔ connectedTo connections (m_id first) x)
            ∧ issues = if bool_decide (size reached < length modules)
                       then [disconnectedWarning (length modules - size reached)]
                       else []
      | _ => issues = []
      end.
Proof.
  destruct modules as [|first [|second rest]]; [eexists; split; reflexivity..|].
  destruct (visit_from_start connections (m_id first)) as (reached & Hvisit & Hreached).
  unfold connectivityWarnings. rewrite Hvisit. simpl.
  eexists. split; [reflexivity|]. exists reached. split; [exact Hreached|reflexivity].
Qed.

Lemma validateHabitat_spec modules connections :
  ∃ issues, connectivityWarnings modules connections = Some issues
    ∧ validateHabitat modules connections
      = Some {| errors := reportErrors modules connections;
                warnings := issues;
                isValid := Nat.eqb (length (reportErrors modules connections)) 0 |}.
Proof.
  destruct (connectivityWarnings_spec modules connections) as (issues & Hsome & _).
  exists issues. split; [exact Hsome|].
  unfold validateHabitat. rewrite Hsome. reflexivity.
Qed.

(** C4: a connection that references a module id absent from the module
    list makes [validateHabitat] return a report (the call does not throw)
    in which this connection accounts for one error, the invalid-reference
    one with the connection's id: the errors are those of the habitat
    without the connection, with that error inserted, and when no other
    connection shares the id it is the only error of the report with this
    id.  The error carries the fixed text and no reason of [canConnect]:
    the distance and alignment checks are not applied to the connection. *)
Theorem dangling_connection_reported (modules : list ModuleInstance)
    (before after : list Connection) (connection : Connection) :
  findModule modules (moduleId1 connection) = None
  ∨ findModule modules (moduleId2 connection) = None →
  ∃ report without,
    validateHabitat modules (before ++ connection :: after) = Some report
    ∧ validateHabitat modules (before ++ after) = Some without
    ∧ (∃ errors1 errors2,
         errors without = errors1 ++ errors2
         ∧ errors report = errors1 ++ danglingError connection :: errors2)
    ∧ ((∀ c, In c (before ++ after) → c_id c ≠ c_id connection) →
       errorsAbout connection (errors report) = [danglingError connection])
    ∧ message (danglingError connection) = Text "Connection references non-existent module"
    ∧ isValid report = false.
Proof.
  intros Hdangling.
  destruct (validateHabitat_spec modules (before ++ connection :: after)) as (w1 & _ & ->).
  destruct (validateHabitat_spec modules (before ++ after)) as (w2 & _ & ->).
  eexists _, _. split; [reflexivity|]. split; [reflexivity|]. simpl.
  unfold reportErrors. rewrite !flat_map_app. simpl.
  rewrite (connectionErrors_dangling _ _ Hdangling). simpl.
  split; [|split; [|split]].
  - exists (collisionErrors modules ++ flat_map (connectionErrors modules) before),
           (flat_map (connectionErrors modules) after).
    rewrite <- !app_assoc. split; reflexivity.
  - intros Hids. rewrite !errorsAbout_app.
    rewrite (errorsAbout_none _ (collisionErrors modules)).
    2:{ intros e He. rewrite (collisionErrors_connectionId _ _ He). discriminate. }
    rewrite errorsAbout_other_connections
      by (intros c Hc; apply Hids, in_or_app; left; exact Hc).
    simpl. rewrite bool_decide_eq_true_2 by reflexivity.
    rewrite errorsAbout_other_connections
      by (intros c Hc; apply Hids, in_or_app; right; exact Hc).
    reflexivity.
  - reflexivity.
  - rewrite !length_app. simpl.
    destruct (length (collisionErrors modules)); simpl; [|reflexivity].
    destruct (length (flat_map (connectionErrors modules) before)); reflexivity.
Qed.

(** C10: [checkModuleCollision] answers false as soon as one of the two
    definitions is not in the catalog, whatever the positions; so every
    collision error of a report of [validateHabitat] is for two modules
    whose definitions are both known, and the collision errors are those
    of the module list without the modules of unknown definition. *)
Theorem unknown_definition_never_collides (modules : list ModuleInstance)
    (connections : list Connection) (module1 module2 : ModuleInstance) :
  findDefinition (definitionId module1) = None ∨ findDefinition (definitionId module2) = None →
  checkModuleCollision module1 module2 = false
  ∧ ∃ report,
      validateHabitat modules connections = Some report
      ∧ (∀ e, In e (errors report) → i_type e = "collision" →
           ∃ a b, In a modules ∧ In b modules ∧ e = collisionError a b
                  ∧ checkModuleCollision a b = true
                  ∧ is_Some (findDefinition (definitionId a))
                  ∧ is_Some (findDefinition (definitionId b)))
      ∧ List.filter isCollision (errors report)
        = collisionErrors (List.filter hasDefinition modules).
Proof.
  intros Hunknown. split; [apply checkModuleCollision_unknown; exact Hunknown|].
  destruct (validateHabitat_spec modules connections) as (issues & _ & ->).
  eexists. split; [reflexivity|]. simpl. split.
  - intros e He Htype. unfold reportErrors in He. apply in_app_or in He as [He|He].
    + destruct (collisionErrors_In _ _ He) as (a & b & Ha & Hb & -> & Hhit).
      exists a, b. pose proof (checkModuleCollision_known _ _ Hhit) as [? ?]. auto 10.
    + apply in_flat_map in He as (c & _ & He).
      apply connectionErrors_shape in He as (_ & _ & [Hty|Hty]);
        rewrite Hty in Htype; discriminate.
  - unfold reportErrors. rewrite List.filter_app, filter_collisionErrors.
    rewrite (proj2 (filter_nil_iff isCollision _)), app_nil_r.
    + apply collisionErrors_known.
    + intros e He. apply in_flat_map in He as (c & _ & He).
      apply connectionErrors_shape in He as (_ & _ & [Hty|Hty]);
        unfold isCollision; rewrite Hty; reflexivity.
Qed.

End Report.

(** ** The disconnection warning *)

Lemma connectedTo_mentioned connections start x :
  connectedTo connections start x → x = start ∨ x ∈ mentioned connections.
Proof.
  intros Hpath. apply connectedTo_universe in Hpath.
  unfold walkUniverse in Hpath. set_solver.
Qed.

Lemma connectedTo_isolated connections (module : ModuleInstance) x :
  isolated connections module →
  connectedTo connections (m_id module) x → x = m_id module.
Proof.
  intros Hiso Hpath.
  inversion Hpath as [|? y ? (c & Hc & Hends) _]; subst; [reflexivity|].
  exfalso. apply Hiso, elem_of_mentioned. exists c. split; [exact Hc|].
  destruct Hends as [[-> _]|[-> _]]; auto.
Qed.

Lemma length_reached_unreached (reached : gset string) (modules : list ModuleInstance) :
  length modules
  = length (filter (λ m, m_id m ∈ reached) modules) + length (unreachedModules reached modules).
Proof.
  unfold unreachedModules.
  rewrite <- length_app, (filter_app_complement (λ m, m_id m ∈ reached) modules). reflexivity.
Qed.

(** With distinct module ids, the reached set is at least as large as the
    list of the modules it holds. *)
Lemma reached_modules_le (reached : gset string) (modules : list ModuleInstance) :
  NoDup (m_id <$> modules) →
  length (filter (λ m, m_id m ∈ reached) modules) ≤ size reached.
Proof.
  intros Hdistinct.
  rewrite <- (length_fmap m_id), <- (size_list_to_set (C := gset string)).
  - apply subseteq_size. intros x Hx.
    apply elem_of_list_to_set, list_elem_of_fmap in Hx as (m & -> & Hm).
    apply list_elem_of_filter in Hm as [Hm _]. exact Hm.
  - apply (sublist_NoDup _ (m_id <$> modules)); [exact Hdistinct | apply fmap_sublist, sublist_filter].
Qed.

(** When in addition the set holds module ids only, the sizes agree. *)
Lemma reached_modules_size (reached : gset string) (modules : list ModuleInstance) :
  NoDup (m_id <$> modules) →
  (∀ x, x ∈ reached → x ∈ m_id <$> modules) →
  size reached = length (filter (λ m, m_id m ∈ reached) modules).
Proof.
  intros Hdistinct Hids.
  apply Nat.le_antisymm; [|apply reached_modules_le; exact Hdistinct].
  rewrite <- (length_fmap m_id), <- (size_list_to_set (C := gset string)).
  - apply subseteq_size. intros x Hx.
    apply elem_of_list_to_set, list_elem_of_fmap.
    destruct (proj1 (list_elem_of_fmap _ _ _) (Hids x Hx)) as (m & -> & Hm).
    exists m. split; [reflexivity|]. apply list_elem_of_filter. auto.
  - apply (sublist_NoDup _ (m_id <$> modules)); [exact Hdistinct | apply fmap_sublist, sublist_filter].
Qed.

(** The warnings of a non-empty module list, by the set of the ids
    connected to the first module. *)
Lemma connectivityWarnings_reached (first : ModuleInstance) (rest : list ModuleInstance)
    (connections : list Connection) :
  ∃ reached : gset string,
    (∀ x, x ∈ reached ↔ connectedTo connections (m_id first) x)
    ∧ connectivityWarnings (first :: rest) connections
      = Some (if bool_decide (2 ≤ length (first :: rest)
                              ∧ size reached < length (first :: rest))
              then [disconnectedWarning (length (first :: rest) - size reached)]
              else []).
Proof.
  destruct (visit_from_start connections (m_id first)) as (reached & Hvisit & Hreached).
  exists reached. split; [exact Hreached|].
  destruct rest as [|second rest].
  - rewrite bool_decide_eq_false_2 by (simpl; lia). reflexivity.
  - unfold connectivityWarnings. rewrite Hvisit.
    change (length (first :: second :: rest)) with (S (S (length rest))).
    cbn [mbind option_bind].
    destruct (decide (size reached < S (S (length rest)))) as [Hlt|Hge].
    + rewrite !bool_decide_eq_true_2 by lia. reflexivity.
    + rewrite !bool_decide_eq_false_2 by lia. reflexivity.
Qed.

Lemma unreached_exists (reached : gset string) (modules : list ModuleInstance) :
  NoDup (m_id <$> modules) →
  size reached < length modules →
  ∃ m, In m modules ∧ m_id m ∉ reached.
Proof.
  intros Hdistinct Hlt.
  pose proof (reached_modules_le reached modules Hdistinct) as Hle.
  pose proof (length_reached_unreached reached modules) as Hsplit.
  destruct (unreachedModules reached modules) as [|m unreached] eqn:Hunreached.
  - simpl in Hsplit. lia.
  - exists m.
    assert (Hm : m ∈ unreachedModules reached modules) by (rewrite Hunreached; left).
    apply list_elem_of_filter in Hm as [Hout Hm]. rewrite <- list_elem_of_In. auto.
Qed.

Lemma reached_within_modules (first : ModuleInstance) (rest : list ModuleInstance)
    (connections : list Connection) (reached : gset string) :
  noDanglingConnection (first :: rest) connections →
  (∀ x, x ∈ reached ↔ connectedTo connections (m_id first) x) →
  ∀ x, x ∈ reached → x ∈ m_id <$> first :: rest.
Proof.
  intros Hclosed Hreached x Hx.
  apply Hreached, connectedTo_mentioned in Hx as [->|Hx]; [left|].
  apply Hclosed. exact Hx.
Qed.

(** Without dangling connections and with distinct module ids, the
    warning counts the modules that are not connected to the first one. *)
Lemma connectivityWarnings_unreached (first : ModuleInstance) (rest : list ModuleInstance)
    (connections : list Connection) :
  NoDup (m_id <$> first :: rest) →
  noDanglingConnection (first :: rest) connections →
  ∃ reached : gset string,
    (∀ x, x ∈ reached ↔ connectedTo connections (m_id first) x)
    ∧ connectivityWarnings (first :: rest) connections
      = Some match unreachedModules reached (first :: rest) with
             | [] => []
             | unreached => [disconnectedWarning (length unreached)]
             end.
Proof.
  intros Hdistinct Hclosed.
  destruct (connectivityWarnings_reached first rest connections) as (reached & Hreached & ->).
  exists reached. split; [exact Hreached|]. f_equal.
  pose proof (reached_modules_size reached (first :: rest) Hdistinct
                (reached_within_modules _ _ _ _ Hclosed Hreached)) as Hsize.
  pose proof (length_reached_unreached reached (first :: rest)) as Hsplit.
  assert (Hfirst : first ∉ unreachedModules reached (first :: rest)).
  { intros Hin. apply list_elem_of_filter in Hin as [Hout _].
    apply Hout, Hreached, rtc_refl. }
  destruct (unreachedModules reached (first :: rest)) as [|m unreached] eqn:Hunreached.
  - rewrite bool_decide_eq_false_2; [reflexivity|].
    change (length (@nil ModuleInstance)) with 0 in Hsplit. lia.
  - assert (Hm : m ∈ first :: rest).
    { assert (Hin : m ∈ unreachedModules reached (first :: rest)) by (rewrite Hunreached; left).
      apply list_elem_of_filter in Hin as [_ Hin]. exact Hin. }
    assert (m ≠ first) by (intros ->; apply Hfirst; left).
    assert (2 ≤ length (first :: rest)).
    { apply elem_of_cons in Hm as [->|Hm]; [done|]. destruct rest; [inversion Hm|simpl; lia]. }
    assert (0 < length (m :: unreached)) by (simpl; lia).
    rewrite bool_decide_eq_true_2 by lia.
    repeat f_equal. lia.
Qed.

(** An isolated module among at least two leaves some module unreached. *)
Lemma isolated_unreached (first : ModuleInstance) (rest : list ModuleInstance)
    (connections : list Connection) (reached : gset string) (module : ModuleInstance) :
  NoDup (m_id <$> first :: rest) →
  (∀ x, x ∈ reached ↔ connectedTo connections (m_id first) x) →
  rest ≠ [] →
  module ∈ first :: rest →
  isolated connections module →
  unreachedModules reached (first :: rest) ≠ [].
Proof.
  intros Hdistinct Hreached Hrest Hin Hiso Hnone.
  assert (Hall : ∀ m, m ∈ first :: rest → m_id m ∈ reached).
  { intros m Hm. destruct (decide (m_id m ∈ reached)) as [Hyes|Hno]; [exact Hyes|].
    assert (Hun : m ∈ unreachedModules reached (first :: rest))
      by (apply list_elem_of_filter; auto).
    rewrite Hnone in Hun. inversion Hun. }
  destruct rest as [|second rest]; [done|].
  change (m_id <$> first :: second :: rest)
    with (m_id first :: (m_id <$> second :: rest)) in Hdistinct.
  apply NoDup_cons in Hdistinct as [Hfresh _].
  apply elem_of_cons in Hin as [->|Hin].
  - (* the first module is the isolated one: the second cannot be reached *)
    assert (Hsecond : m_id second = m_id first).
    { eapply connectedTo_isolated; [exact Hiso|]. apply Hreached, Hall. right. left. }
    apply Hfresh. rewrite <- Hsecond. apply list_elem_of_fmap. exists second. split; [reflexivity|left].
  - (* another module is isolated: it is not reached from the first *)
    assert (Hpath : connectedTo connections (m_id first) (m_id module)).
    { apply Hreached, Hall. right. exact Hin. }
    apply connectedTo_mentioned in Hpath as [Heq|Hmentioned]; [|exact (Hiso Hmentioned)].
    apply Hfresh. rewrite <- Heq. apply list_elem_of_fmap. eauto.
Qed.

Lemma validateHabitat_warnings Math_cos Math_sin modules connections issues :
  connectivityWarnings modules connections = Some issues →
  ∃ report, validateHabitat Math_cos Math_sin modules connections = Some report
            ∧ warnings report = issues.
Proof.
  intros Hsome. unfold validateHabitat. rewrite Hsome.
  eexists. split; reflexivity.
Qed.

Section Warnings.
Variables Math_cos Math_sin : float → float.

Local Abbreviation validateHabitat := (validateHabitat Math_cos Math_sin).

(** C6: the disconnection warning.  [validateHabitat] always returns a
    report, with at most one disconnection warning, and with none for
    zero or one module.  With distinct module ids a warning is only given
    when there are at least two modules and some module is not connected
    to the first one.  The test compares the number of ids the walk
    reached from the first module, ids of modules or not, with the number
    of modules.  In the habitat that removing the laboratory leaves (hub,
    quarters and storage, the hub still joined to the quarters and to the
    removed laboratory) the walk counts the laboratory: three ids for
    three modules, and no warning is given although the storage module is
    isolated.  Without the connection to the removed laboratory the same
    modules get the warning, with the count 1. *)
Theorem validateHabitat_misses_isolated_module :
  (∀ (modules : list ModuleInstance) (connections : list Connection),
     ∃ report,
       validateHabitat modules connections = Some report
       ∧ (length modules ≤ 1 → warnings report = [])
       ∧ (warnings report = [] ∨ ∃ n, 0 < n ∧ warnings report = [disconnectedWarning n])
       ∧ (NoDup (m_id <$> modules) → warnings report ≠ [] →
          ∃ first second rest m,
            modules = first :: second :: rest ∧ In m modules
            ∧ ¬ connectedTo connections (m_id first) (m_id m))
       ∧ (∀ first rest, modules = first :: rest →
          ∃ reached : gset string,
            (∀ x, x ∈ reached ↔ connectedTo connections (m_id first) x)
            ∧ warnings report
              = if bool_decide (2 ≤ length modules ∧ size reached < length modules)
                then [disconnectedWarning (length modules - size reached)]
                else []))
  ∧ reachable habitatAfterLabRemoved
  ∧ modules habitatAfterLabRemoved = [hubAtOrigin; quartersNorth; storageFar]
  ∧ connections habitatAfterLabRemoved = [hubToQuarters; hubToLab]
  ∧ isolated (connections habitatAfterLabRemoved) storageFar
  ∧ ¬ connectedTo (connections habitatAfterLabRemoved) (m_id hubAtOrigin) (m_id storageFar)
  ∧ option_map warnings
      (validateHabitat (modules habitatAfterLabRemoved) (connections habitatAfterLabRemoved))
    = Some []
  ∧ option_map warnings (validateHabitat (modules habitatAfterLabRemoved) [hubToQuarters])
    = Some [disconnectedWarning 1].
Proof.
  split.
  { intros modules connections. destruct modules as [|first rest].
    { destruct (validateHabitat_warnings Math_cos Math_sin [] connections [] eq_refl)
        as (report & Hreport & Hw).
      exists report. rewrite Hw. split; [exact Hreport|].
      split; [reflexivity|]. split; [left; reflexivity|].
      split; [intros _ Hne; contradiction|]. intros first rest [=]. }
    destruct (connectivityWarnings_reached first rest connections)
      as (reached & Hreached & Hsome).
    destruct (validateHabitat_warnings Math_cos Math_sin _ _ _ Hsome) as (report & Hreport & Hw).
    exists report. split; [exact Hreport|]. rewrite Hw. clear Hw Hreport report.
    split; [|split; [|split]].
    - intros Hshort. rewrite bool_decide_eq_false_2 by lia. reflexivity.
    - case_bool_decide as Hlt; [right|left; reflexivity].
      eexists. split; [|reflexivity]. lia.
    - intros Hdistinct. case_bool_decide as Hlt; [intros _|intros Hne; contradiction].
      destruct Hlt as [Htwo Hlt].
      destruct (unreached_exists reached _ Hdistinct Hlt) as (m & Hm & Hout).
      destruct rest as [|second rest]; [simpl in Htwo; lia|].
      exists first, second, rest, m. split; [reflexivity|]. split; [exact Hm|].
      intros Hpath. apply Hout, Hreached, Hpath.
    - intros first' rest' [= <- <-]. exists reached. split; [exact Hreached|reflexivity]. }
  split; [unfold habitatAfterLabRemoved; repeat apply reachable_step; apply reachable_initial|].
  split; [reflexivity|]. split; [reflexivity|].
  assert (Hisolated : isolated (connections habitatAfterLabRemoved) storageFar).
  { intros Hin. apply elem_of_mentioned in Hin as (c & Hc & Hx).
    apply elem_of_cons in Hc as [->|Hc]; [destruct Hx as [Hx|Hx]; discriminate Hx|].
    apply list_elem_of_singleton in Hc as ->. destruct Hx as [Hx|Hx]; discriminate Hx. }
  split; [exact Hisolated|]. split.
  { intros Hpath. apply connectedTo_mentioned in Hpath as [Heq|Hin]; [discriminate Heq|].
    exact (Hisolated Hin). }
  split.
  - assert (Hnone : connectivityWarnings (modules habitatAfterLabRemoved)
                      (connections habitatAfterLabRemoved) = Some [])
      by (vm_compute; reflexivity).
    destruct (validateHabitat_warnings Math_cos Math_sin _ _ _ Hnone) as (report & -> & Hw).
    simpl. rewrite Hw. reflexivity.
  - assert (Hone : connectivityWarnings (modules habitatAfterLabRemoved) [hubToQuarters]
                   = Some [disconnectedWarning 1])
      by (vm_compute; reflexivity).
    destruct (validateHabitat_warnings Math_cos Math_sin _ _ _ Hone) as (report & -> & Hw).
    simpl. rewrite Hw. reflexivity.
Qed.

End Warnings.

(** The warning for the isolated storage module names no module: it has
    no id field, its text holds the count only, and it is the warning
    given when another module is the isolated one. *)
Lemma disconnectedWarning_names_no_module :
  validateHabitat taylor_cos taylor_sin [hubAtOrigin; quartersNorth; storageFar] [hubToQuarters]
  = Some {| errors := [collisionError hubAtOrigin quartersNorth];
            warnings := [disconnectedWarning 1];
            isValid := false |}
  ∧ disconnectedWarning 1
    = {| i_type := "disconnected_modules";
         message := Text "1 module(s) are not connected to the main structure";
         moduleIds := None; connectionId := None; severity := Some "warning" |}
  ∧ refersTo (disconnectedWarning 1) (m_id storageFar) = false
  ∧ option_map warnings
      (validateHabitat taylor_cos taylor_sin [hubAtOrigin; quartersNorth; airlockFar] [hubToQuarters])
    = Some [disconnectedWarning 1].
Proof. vm_compute. repeat split. Qed.

(** ** Sorting the candidates *)

Section ArraySortFacts.
Context {A : Type} (comparefn : A → A → float).

Lemma sortInsert_Permutation (a : A) (l : list A) :
  Permutation (sortInsert comparefn a l) (a :: l).
Proof.
  induction l as [|b l IH]; simpl; [reflexivity|].
  destruct (sortsAfter comparefn a b); [|reflexivity].
  rewrite IH. apply perm_swap.
Qed.

Lemma sort_Permutation (l : list A) : Permutation (sort comparefn l) l.
Proof.
  induction l as [|a l IH]; simpl; [reflexivity|].
  rewrite sortInsert_Permutation, IH. reflexivity.
Qed.

Lemma sort_In (l : list A) (x : A) : In x (sort comparefn l) ↔ In x l.
Proof.
  split; apply Permutation_in; [|symmetry]; apply sort_Permutation.
Qed.

Section Consistent.
Variable domain : list A.
Hypothesis Hconsistent : consistentOn comparefn domain.

Lemma inOrder_trans (a b c : A) :
  In a domain → In b domain → In c domain →
  inOrder comparefn a b → inOrder comparefn b c → inOrder comparefn a c.
Proof. intros. eapply (proj2 Hconsistent a b c); eassumption. Qed.

Lemma sortsAfter_inOrder (a b : A) :
  In a domain → In b domain → sortsAfter comparefn a b = true → inOrder comparefn b a.
Proof. intros. apply (proj1 Hconsistent a b); assumption. Qed.

Lemma sortInsert_sorted (a : A) (l : list A) :
  In a domain → incl l domain →
  StronglySorted (inOrder comparefn) l →
  StronglySorted (inOrder comparefn) (sortInsert comparefn a l).
Proof.
  intros Ha Hl Hsorted.
  induction Hsorted as [|b l Hsorted IH Hb]; simpl; [repeat constructor|].
  assert (Hbd : In b domain) by (apply Hl; left; reflexivity).
  assert (Hld : incl l domain) by (intros x Hx; apply Hl; right; exact Hx).
  destruct (sortsAfter comparefn a b) eqn:Hab.
  - constructor; [apply IH; exact Hld|].
    apply Forall_forall. intros x Hx. apply list_elem_of_In in Hx.
    apply (Permutation_in _ (sortInsert_Permutation a l)) in Hx as [<-|Hx].
    + apply sortsAfter_inOrder; assumption.
    + exact (proj1 (Forall_forall _ _) Hb x (proj2 (list_elem_of_In _ _) Hx)).
  - constructor; [constructor; assumption|].
    constructor; [exact Hab|].
    apply Forall_forall. intros x Hx.
    apply (inOrder_trans a b x); auto.
    + apply Hld, list_elem_of_In. exact Hx.
    + exact (proj1 (Forall_forall _ _) Hb x Hx).
Qed.

Lemma sort_sorted (l : list A) :
  incl l domain → StronglySorted (inOrder comparefn) (sort comparefn l).
Proof.
  induction l as [|a l IH]; intros Hl; simpl; [constructor|].
  apply sortInsert_sorted.
  - apply Hl. left. reflexivity.
  - intros x Hx. apply Hl. right. apply sort_In. exact Hx.
  - apply IH. intros x Hx. apply Hl. right. exact Hx.
Qed.

(** Elements that tie with [x] are not moved past each other. *)
Lemma sortInsert_stable (x a : A) (l : list A) :
  In x domain → In a domain → incl l domain →
  List.filter (ties comparefn x) (sortInsert comparefn a l)
  = List.filter (ties comparefn x) (a :: l).
Proof.
  intros Hx Ha Hl. induction l as [|b l IH]; [reflexivity|].
  assert (Hbd : In b domain) by (apply Hl; left; reflexivity).
  assert (Hld : incl l domain) by (intros y Hy; apply Hl; right; exact Hy).
  simpl. destruct (sortsAfter comparefn a b) eqn:Hab; [|reflexivity].
  simpl. rewrite (IH Hld). simpl.
  destruct (ties comparefn x a) eqn:Hxa; [|reflexivity].
  destruct (ties comparefn x b) eqn:Hxb; [|reflexivity].
  (* [a] and [b] both tie with [x], so [a] cannot sort after [b] *)
  exfalso. unfold ties in Hxa, Hxb.
  apply andb_prop in Hxa as [_ Hax]. apply andb_prop in Hxb as [Hxb _].
  apply negb_true_iff in Hax, Hxb.
  rewrite (inOrder_trans a x b Ha Hx Hbd Hax Hxb) in Hab. discriminate Hab.
Qed.

Lemma sort_stable (x : A) (l : list A) :
  In x domain → incl l domain →
  List.filter (ties comparefn x) (sort comparefn l) = List.filter (ties comparefn x) l.
Proof.
  intros Hx. induction l as [|a l IH]; intros Hl; [reflexivity|].
  simpl sort. rewrite sortInsert_stable.
  - simpl. rewrite IH; [reflexivity|]. intros y Hy. apply Hl. right. exact Hy.
  - exact Hx.
  - apply Hl. left. reflexivity.
  - intros y Hy. apply Hl. right. apply sort_In. exact Hy.
Qed.

Lemma ties_refl (a : A) : In a domain → ties comparefn a a = true.
Proof.
  intros Ha. unfold ties.
  destruct (sortsAfter comparefn a a) eqn:Haa; [|reflexivity].
  rewrite (sortsAfter_inOrder a a Ha Ha Haa) in Haa. discriminate Haa.
Qed.

(** A sorted list is fixed by its elements and the order within each class
    of ties. *)
Lemma stable_sorted_unique (l1 l2 : list A) :
  incl l1 domain → Permutation l1 l2 →
  StronglySorted (inOrder comparefn) l1 → StronglySorted (inOrder comparefn) l2 →
  (∀ x, In x l1 → List.filter (ties comparefn x) l1 = List.filter (ties comparefn x) l2) →
  l1 = l2.
Proof.
  revert l2. induction l1 as [|a l1 IH]; intros l2 Hdom Hperm Hs1 Hs2 Hties.
  - apply Permutation_nil in Hperm. congruence.
  - destruct l2 as [|b l2]; [symmetry in Hperm; apply Permutation_nil in Hperm; discriminate|].
    assert (Ha : In a domain) by (apply Hdom; left; reflexivity).
    apply StronglySorted_inv in Hs1 as [Hs1 Hfirst1].
    apply StronglySorted_inv in Hs2 as [Hs2 Hfirst2].
    rewrite Forall_forall in Hfirst1, Hfirst2.
    assert (Hab : a = b).
    { pose proof (Hties a (or_introl eq_refl)) as Hfilter. simpl in Hfilter.
      rewrite (ties_refl a Ha) in Hfilter.
      destruct (ties comparefn a b) eqn:Htie; [congruence|].
      exfalso. clear Hfilter.
      assert (Hb : In b (a :: l1)) by (apply (Permutation_in _ (Permutation_sym Hperm)); left; reflexivity).
      assert (Ha2 : In a (b :: l2)) by (apply (Permutation_in _ Hperm); left; reflexivity).
      destruct Hb as [->|Hb]; [rewrite (ties_refl b Ha) in Htie; discriminate|].
      destruct Ha2 as [->|Ha2]; [rewrite (ties_refl a Ha) in Htie; discriminate|].
      unfold ties in Htie.
      rewrite (Hfirst1 b (proj2 (list_elem_of_In _ _) Hb)) in Htie.
      rewrite (Hfirst2 a (proj2 (list_elem_of_In _ _) Ha2)) in Htie.
      discriminate Htie. }
    subst b. f_equal. apply IH.
    + intros x Hx. apply Hdom. right. exact Hx.
    + eapply Permutation_cons_inv. exact Hperm.
    + exact Hs1.
    + exact Hs2.
    + intros x Hx. pose proof (Hties x (or_intror Hx)) as Hfilter. simpl in Hfilter.
      destruct (ties comparefn x a); [congruence|exact Hfilter].
Qed.

(** For a consistent comparator the result of a stable sort does not
    depend on the algorithm: a sorted permutation that keeps the order of
    ties is the list [sort] returns. *)
Lemma sort_unique (l sorted : list A) :
  incl l domain → Permutation sorted l →
  StronglySorted (inOrder comparefn) sorted →
  (∀ x, In x l → List.filter (ties comparefn x) sorted = List.filter (ties comparefn x) l) →
  sorted = sort comparefn l.
Proof.
  intros Hdom Hperm Hsorted Hstable.
  apply stable_sorted_unique.
  - intros x Hx. apply Hdom. apply (Permutation_in _ Hperm). exact Hx.
  - rewrite Hperm. symmetry. apply sort_Permutation.
  - exact Hsorted.
  - apply sort_sorted. exact Hdom.
  - intros x Hx. apply (Permutation_in _ Hperm) in Hx.
    rewrite Hstable, sort_stable by auto. reflexivity.
Qed.

End Consistent.
End ArraySortFacts.

Lemma consistentOnb_sound {A : Type} (comparefn : A → A → float) (l : list A) :
  consistentOnb comparefn l = true → consistentOn comparefn l.
Proof.
  unfold consistentOnb. rewrite forallb_forall. intros Hall. split.
  - intros a b Ha Hb Hab.
    specialize (Hall a Ha). rewrite forallb_forall in Hall. specialize (Hall b Hb).
    apply andb_prop in Hall as [Hasym _]. rewrite Hab in Hasym. simpl in Hasym.
    apply negb_true_iff. exact Hasym.
  - intros a b c Ha Hb Hc Hab Hbc.
    specialize (Hall a Ha). rewrite forallb_forall in Hall. specialize (Hall b Hb).
    apply andb_prop in Hall as [_ Htrans]. rewrite forallb_forall in Htrans.
    specialize (Htrans c Hc). rewrite Hab, Hbc in Htrans. simpl in Htrans.
    apply negb_true_iff. exact Htrans.
Qed.

(** The consistency of the comparator cannot be dropped: next to a NaN,
    which sorts after nothing and which nothing sorts after, the
    subtraction comparator leaves 0.3 before 0.1. *)
Remark sort_with_nan :
  consistentOnb (fun a b : float => (a - b)%float) [0.3; nan; 0.1]%float = false
  ∧ sort (fun a b : float => (a - b)%float) [0.3; nan; 0.1]%float = [0.3; nan; 0.1]%float
  ∧ sort (fun a b : float => (a - b)%float) [0.3; 0.2; 0.1]%float = [0.1; 0.2; 0.3]%float.
Proof. repeat split. Qed.

Section Candidates.
Variables Math_cos Math_sin : float → float.

(** The candidates are the pairs of a point of the target module, moved to
    the target position, and a point of another module that [canConnect]
    accepts, each with the distance between the two world positions. *)
Lemma potentialConnections_In targetModule targetPosition existingModules c :
  In c (potentialConnections Math_cos Math_sin targetModule targetPosition existingModules) ↔
  ∃ existingModule targetPoint existingPoint,
    In existingModule existingModules
    ∧ m_id existingModule ≠ m_id targetModule
    ∧ In targetPoint
        (getWorldConnectionPoints Math_cos Math_sin (withPosition targetModule targetPosition))
    ∧ In existingPoint (getWorldConnectionPoints Math_cos Math_sin existingModule)
    ∧ r_canConnect (canConnect targetPoint existingPoint) = true
    ∧ c = {| targetPoint := targetPoint; existingPoint := existingPoint;
             existingModule := existingModule;
             distance := distance3D (worldPosition targetPoint) (worldPosition existingPoint) |}.
Proof.
  unfold potentialConnections. rewrite in_flat_map. split.
  - intros (em & Hem & Hc).
    destruct (String.eqb_spec (m_id em) (m_id targetModule)) as [|Hother]; [destruct Hc|].
    apply in_flat_map in Hc as (tp & Htp & Hc).
    apply in_flat_map in Hc as (ep & Hep & Hc).
    destruct (r_canConnect (canConnect tp ep)) eqn:Hok; [|destruct Hc].
    destruct Hc as [<-|[]]. exists em, tp, ep. auto 10.
  - intros (em & tp & ep & Hem & Hother & Htp & Hep & Hok & ->).
    exists em. split; [exact Hem|].
    destruct (String.eqb_spec (m_id em) (m_id targetModule)) as [Hsame|_]; [contradiction|].
    apply in_flat_map. exists tp. split; [exact Htp|].
    apply in_flat_map. exists ep. split; [exact Hep|].
    rewrite Hok. left. reflexivity.
Qed.

(** C3, as the code has it.  [findPotentialConnections] returns the pairs
    of a target point and a point of another module that [canConnect]
    accepts, each once per enumeration.  When the differences of their
    distances order them consistently, which a NaN distance can break, the
    result is sorted ascending by distance, and candidates whose distances
    tie stay in the
    order of the enumeration: other modules in list order, then target
    points, then the other module's points, in catalog order.  Point ids
    play no part in the order. *)
Theorem findPotentialConnections_sorted (targetModule : ModuleInstance)
    (targetPosition : vec3) (existingModules : list ModuleInstance) :
  Permutation
    (findPotentialConnections Math_cos Math_sin targetModule targetPosition existingModules)
    (potentialConnections Math_cos Math_sin targetModule targetPosition existingModules)
  ∧ (∀ c,
       In c (findPotentialConnections Math_cos Math_sin targetModule targetPosition existingModules)
       ↔ ∃ existingModule targetPoint existingPoint,
           In existingModule existingModules
           ∧ m_id existingModule ≠ m_id targetModule
           ∧ In targetPoint
               (getWorldConnectionPoints Math_cos Math_sin
                  (withPosition targetModule targetPosition))
           ∧ In existingPoint (getWorldConnectionPoints Math_cos Math_sin existingModule)
           ∧ r_canConnect (canConnect targetPoint existingPoint) = true
           ∧ c = {| targetPoint := targetPoint; existingPoint := existingPoint;
                    existingModule := existingModule;
                    distance :=
                      distance3D (worldPosition targetPoint) (worldPosition existingPoint) |})
  ∧ (consistentOn byDistance
       (potentialConnections Math_cos Math_sin targetModule targetPosition existingModules) →
     StronglySorted (fun a b => (0 <? distance a - distance b)%float = false)
       (findPotentialConnections Math_cos Math_sin targetModule targetPosition existingModules)
     ∧ ∀ x,
         In x (potentialConnections Math_cos Math_sin targetModule targetPosition existingModules) →
         List.filter (ties byDistance x)
           (findPotentialConnections Math_cos Math_sin targetModule targetPosition existingModules)
         = List.filter (ties byDistance x)
             (potentialConnections Math_cos Math_sin targetModule targetPosition existingModules)).
Proof.
  unfold findPotentialConnections.
  split; [apply sort_Permutation|]. split.
  - intros c. rewrite sort_In. apply potentialConnections_In.
  - intros Hconsistent. split.
    + apply (sort_sorted byDistance _ Hconsistent). intros x Hx. exact Hx.
    + intros x Hx. apply (sort_stable byDistance _ Hconsistent); [exact Hx|].
      intros y Hy. exact Hy.
Qed.

End Candidates.

(** The hub at the origin among a hub above it, a hub to its west and the
    quarters to its north: the two hubs touch it at distance 0 and stay in
    list order, the quarters come last. *)
Lemma findPotentialConnections_sorted_witness :
  map summary
    (findPotentialConnections taylor_cos taylor_sin hubAtOrigin (0, 0, 0)%float
       [hubAbove; quartersNorth; hubWest])
  = [ ("up", "down", "hub-3", 0%float);
      ("west", "east", "hub-2", 0%float);
      ("north", "back", "quarters-1", 4.4408920985006262e-16%float) ]
  ∧ StronglySorted (fun a b => (0 <? distance a - distance b)%float = false)
      (findPotentialConnections taylor_cos taylor_sin hubAtOrigin (0, 0, 0)%float
         [hubAbove; quartersNorth; hubWest]).
Proof.
  split; [vm_compute; reflexivity|].
  apply (findPotentialConnections_sorted taylor_cos taylor_sin hubAtOrigin (0, 0, 0)%float
           [hubAbove; quartersNorth; hubWest]).
  apply consistentOnb_sound. vm_compute. reflexivity.
Defined.

(** Two candidates at the same distance come out in the order of the list
    of modules, whichever way their point ids compare. *)
Lemma equidistant_candidates_keep_list_order :
  map summary
    (findPotentialConnections taylor_cos taylor_sin hubAtOrigin (0, 0, 0)%float [hubWest; hubAbove])
  = [ ("west", "east", "hub-2", 0%float); ("up", "down", "hub-3", 0%float) ]
  ∧ String.ltb "up" "west" = true
  ∧ String.ltb "down" "east" = true
  ∧ map summary
      (findPotentialConnections taylor_cos taylor_sin hubAtOrigin (0, 0, 0)%float [hubAbove; hubWest])
    = [ ("up", "down", "hub-3", 0%float); ("west", "east", "hub-2", 0%float) ].
Proof. vm_compute. repeat split. Qed.

(** ** The report on concrete habitats *)

(** After the laboratory is removed from [hubAndLab], the connection to it
    is the one error of the report. *)
Lemma dangling_connection_reported_witness :
  ∃ report,
    validateHabitat taylor_cos taylor_sin
      (modules (removeModule hubAndLab "lab-1")) (connections (removeModule hubAndLab "lab-1"))
    = Some report
    ∧ errors report = [danglingError hubToLab]
    ∧ errorsAbout hubToLab (errors report) = [danglingError hubToLab]
    ∧ isValid report = false.
Proof.
  destruct (dangling_connection_reported taylor_cos taylor_sin [hubAtOrigin] [] [] hubToLab)
    as (report & without & Hreport & Hwithout & (errors1 & errors2 & Hw & Hr) & Habout & _ & Hvalid).
  { right. reflexivity. }
  exists report. split; [exact Hreport|].
  assert (Hnone : errors without = []).
  { vm_compute in Hwithout. injection Hwithout as <-. reflexivity. }
  rewrite Hnone in Hw. symmetry in Hw. apply app_eq_nil in Hw as [-> ->].
  split; [exact Hr|]. split; [|exact Hvalid].
  apply Habout. intros c [].
Defined.

(** A module of unknown definition at the place of the hub collides with
    nothing; the quarters that overlap the hub are reported. *)
Lemma unknown_definition_never_collides_witness :
  checkModuleCollision ghostAtOrigin hubAtOrigin = false
  ∧ ∃ report,
      validateHabitat taylor_cos taylor_sin [hubAtOrigin; ghostAtOrigin; quartersOverlapping] []
      = Some report
      ∧ List.filter isCollision (errors report)
        = [collisionError hubAtOrigin quartersOverlapping].
Proof.
  destruct (unknown_definition_never_collides taylor_cos taylor_sin
              [hubAtOrigin; ghostAtOrigin; quartersOverlapping] [] ghostAtOrigin hubAtOrigin)
    as (Hfalse & report & Hreport & _ & Hcollisions).
  { left. reflexivity. }
  split; [exact Hfalse|].
  exists report. split; [exact Hreport|].
  rewrite Hcollisions. reflexivity.
Defined.

(** Removing the selected laboratory clears the selection and keeps the
    connections. *)
Lemma remove_module_effect_witness :
  connections (habitatReducer hubAndLab (REMOVE_MODULE "lab-1")) = connections hubAndLab
  ∧ selectedModuleId (habitatReducer hubAndLab (REMOVE_MODULE "lab-1")) = None
  ∧ selectedModuleId (habitatReducer hubAndLab (REMOVE_MODULE "hub-1")) = Some "lab-1".
Proof.
  destruct (remove_module_effect hubAndLab "lab-1") as (Hconn & _ & Hclear & _).
  destruct (remove_module_effect hubAndLab "hub-1") as (_ & _ & _ & Hkeep).
  split; [exact Hconn|]. split; [apply Hclear; reflexivity|].
  rewrite Hkeep; [reflexivity|discriminate].
Defined.

(** ** The habitat context: invariants and round trips *)

Lemma foldl_addDefinition_ids (ms ms' : list ModuleInstance) (acc : Totals) :
  map definitionId ms = map definitionId ms' →
  foldl addDefinition acc ms = foldl addDefinition acc ms'.
Proof.
  revert ms' acc. induction ms as [|m ms IH]; intros [|m' ms'] acc Hids;
    try discriminate Hids; [reflexivity|].
  injection Hids as Hid Hrest. simpl.
  unfold addDefinition at 2 4. rewrite Hid. apply IH. exact Hrest.
Qed.

(** The statistics read the definition ids of the modules, in list order,
    and nothing else. *)
Lemma calculateStatistics_ids (ms ms' : list ModuleInstance) :
  map definitionId ms = map definitionId ms' →
  calculateStatistics ms = calculateStatistics ms'.
Proof.
  intros Hids. unfold calculateStatistics.
  rewrite (foldl_addDefinition_ids ms ms' zeroTotals Hids).
  assert (Hlen : length ms = length ms').
  { rewrite <- (length_map definitionId ms), Hids. apply length_map. }
  rewrite Hlen. reflexivity.
Qed.

Lemma map_update_unknown (ms : list ModuleInstance) id updates :
  (∀ m, In m ms → m_id m ≠ id) →
  map (fun module => if String.eqb (m_id module) id then applyUpdates module updates else module) ms
  = ms.
Proof.
  induction ms as [|m ms IH]; intros Hother; [reflexivity|]. simpl.
  destruct (String.eqb_spec (m_id m) id) as [Heq|_].
  - exfalso. exact (Hother m (or_introl eq_refl) Heq).
  - f_equal. apply IH. intros m' Hm'. apply Hother. right. exact Hm'.
Qed.

Lemma map_update_definitionIds (ms : list ModuleInstance) id updates :
  u_definitionId updates = None →
  map definitionId
    (map (fun module => if String.eqb (m_id module) id then applyUpdates module updates else module)
         ms)
  = map definitionId ms.
Proof.
  intros Hnone. rewrite map_map. apply map_ext. intros m.
  destruct (String.eqb (m_id m) id); [|reflexivity].
  unfold applyUpdates. simpl. rewrite Hnone. reflexivity.
Qed.

Lemma map_update_ids (ms : list ModuleInstance) id updates :
  u_id updates = None →
  map m_id
    (map (fun module => if String.eqb (m_id module) id then applyUpdates module updates else module)
         ms)
  = map m_id ms.
Proof.
  intros Hnone. rewrite map_map. apply map_ext. intros m.
  destruct (String.eqb (m_id m) id); [|reflexivity].
  unfold applyUpdates. simpl. rewrite Hnone. reflexivity.
Qed.

Lemma findModule_app (ms : list ModuleInstance) (m : ModuleInstance) id :
  findModule (ms ++ [m]) id
  = match findModule ms id with
    | Some found => Some found
    | None => if String.eqb (m_id m) id then Some m else None
    end.
Proof.
  unfold findModule. induction ms as [|m' ms IH]; simpl.
  - destruct (String.eqb (m_id m) id); reflexivity.
  - destruct (String.eqb (m_id m') id); [reflexivity|exact IH].
Qed.

Lemma findModule_None (ms : list ModuleInstance) id :
  findModule ms id = None ↔ ∀ m, In m ms → m_id m ≠ id.
Proof.
  unfold findModule. induction ms as [|m ms IH]; simpl; [tauto|].
  destruct (String.eqb_spec (m_id m) id) as [Heq|Hne].
  - split; [discriminate|]. intros Hother. exfalso. exact (Hother m (or_introl eq_refl) Heq).
  - rewrite IH. split.
    + intros Hother m' [<-|Hm']; auto.
    + intros Hother m' Hm'. apply Hother. right. exact Hm'.
Qed.

Lemma findModule_Some (ms : list ModuleInstance) id m :
  findModule ms id = Some m → In m ms ∧ m_id m = id.
Proof.
  unfold findModule. intros Hfound. apply find_some in Hfound as [Hin Heq].
  split; [exact Hin|]. apply String.eqb_eq. exact Heq.
Qed.

Lemma findModule_filter (ms : list ModuleInstance) removed id :
  findModule (List.filter (fun module => negb (String.eqb (m_id module) removed)) ms) id
  = if String.eqb id removed then None else findModule ms id.
Proof.
  unfold findModule. induction ms as [|m ms IH]; simpl.
  - destruct (String.eqb id removed); reflexivity.
  - destruct (String.eqb_spec (m_id m) removed) as [Hrem|Hkeep]; simpl.
    + rewrite IH. destruct (String.eqb_spec id removed) as [_|Hne]; [reflexivity|].
      destruct (String.eqb_spec (m_id m) id) as [Heq|_]; [congruence|reflexivity].
    + destruct (String.eqb_spec (m_id m) id) as [Heq|_]; [|exact IH].
      destruct (String.eqb_spec id removed) as [Hrem|_]; [congruence|reflexivity].
Qed.

(** X1: in every state the provider reaches, the statistics are those
    [calculateStatistics] gives for the current modules: totalModules is
    the number of modules, powerBalance is generation minus consumption,
    and a habitat without modules has the initial statistics. *)
Theorem statistics_invariant (state : HabitatState) :
  reachable state →
  statistics state = calculateStatistics (modules state)
  ∧ totalModules (statistics state) = length (modules state)
  ∧ powerBalance (statistics state)
    = (totalPowerGeneration (statistics state) - totalPowerConsumption (statistics state))%float
  ∧ (modules state = [] → statistics state = statistics initialState).
Proof.
  intros Hreach. pose proof (reachable_statistics state Hreach) as Hstats.
  rewrite Hstats. repeat split. intros ->. reflexivity.
Qed.

Lemma statistics_invariant_witness :
  statistics hubAndLab = calculateStatistics [hubAtOrigin; labSouth]
  ∧ totalModules (statistics hubAndLab) = 2
  ∧ powerBalance (statistics hubAndLab) = (-2000)%float
  ∧ statistics (resetHabitat hubAndLab) = statistics initialState.
Proof.
  destruct (statistics_invariant hubAndLab) as (Hstats & Hcount & Hbalance & _).
  { repeat apply reachable_step. apply reachable_initial. }
  destruct (statistics_invariant (resetHabitat hubAndLab)) as (_ & _ & _ & Hempty).
  { apply reachable_step. repeat apply reachable_step. apply reachable_initial. }
  split; [exact Hstats|]. split; [exact Hcount|]. split; [rewrite Hbalance; reflexivity|].
  apply Hempty. reflexivity.
Defined.

(** X2: moving or rotating a module changes neither the statistics nor
    the ids, the definitions, the order or the number of the modules, nor
    the connections and the selection. *)
Theorem move_rotate_keep_statistics (Math_round : float → float) (state : HabitatState)
    (moduleId : string) (newPosition rotation : vec3) (snapToGridEnabled : bool) :
  reachable state →
  Forall (fun state' =>
            statistics state' = statistics state
            ∧ map m_id (modules state') = map m_id (modules state)
            ∧ map definitionId (modules state') = map definitionId (modules state)
            ∧ connections state' = connections state
            ∧ selectedModuleId state' = selectedModuleId state)
    [ moveModule Math_round state moduleId newPosition snapToGridEnabled;
      rotateModule state moduleId rotation ].
Proof.
  intros Hreach. pose proof (reachable_statistics state Hreach) as Hstats.
  repeat constructor; simpl; rewrite ?Hstats;
    try (apply calculateStatistics_ids, map_update_definitionIds; reflexivity);
    try (apply map_update_ids; reflexivity);
    apply map_update_definitionIds; reflexivity.
Qed.

Lemma move_rotate_keep_statistics_witness :
  statistics (moveModule roundHalfUp hubAndLab "lab-1" (0.26, 0, -9.94)%float true)
  = statistics hubAndLab
  ∧ map position (modules (moveModule roundHalfUp hubAndLab "lab-1" (0.26, 0, -9.94)%float true))
    = [(0, 0, 0)%float; (0.30000000000000004, 0, -9.9)%float]
  ∧ statistics (rotateModule hubAndLab "lab-1" (0, 1.5, 0)%float) = statistics hubAndLab.
Proof.
  pose proof (move_rotate_keep_statistics roundHalfUp hubAndLab "lab-1"
                (0.26, 0, -9.94)%float (0, 1.5, 0)%float true) as Hkeep.
  rewrite !Forall_cons in Hkeep.
  destruct Hkeep as ((Hmove & _) & (Hrotate & _) & _).
  { repeat apply reachable_step. apply reachable_initial. }
  split; [exact Hmove|]. split; [reflexivity|exact Hrotate].
Defined.

(** X3: updating a module id that no module has leaves the whole state as
    it was. *)
Theorem updateModule_unknown_id (state : HabitatState) (moduleId : string)
    (updates : ModuleUpdates) :
  reachable state →
  (∀ m, In m (modules state) → m_id m ≠ moduleId) →
  updateModule state moduleId updates = state.
Proof.
  intros Hreach Hother. pose proof (reachable_statistics state Hreach) as Hstats.
  unfold updateModule. simpl. rewrite (map_update_unknown _ _ _ Hother), <- Hstats.
  destruct state; reflexivity.
Qed.

Lemma updateModule_unknown_id_witness :
  updateModule hubAndLab "quarters-1" (positionUpdate (1, 2, 3)%float) = hubAndLab.
Proof.
  apply updateModule_unknown_id.
  - repeat apply reachable_step. apply reachable_initial.
  - intros m [<-|[<-|[]]]; discriminate.
Defined.

(** X4: a module added with a definition of the catalog and a new id is
    found again under the id [addModule] returns, with the definition,
    position and rotation given; every other lookup answers as before. *)
Theorem addModule_then_getModule (host : Host) (state : HabitatState)
    (definitionId : string) (position rotation : vec3) (definition : ModuleDefinition) :
  findDefinition definitionId = Some definition →
  (∀ m, In m (modules state) → m_id m ≠ uuidv4 host) →
  returned (addModule host state definitionId position rotation) = Some (uuidv4 host)
  ∧ getModule (state_after (addModule host state definitionId position rotation)) (uuidv4 host)
    = Some {| m_id := uuidv4 host; definitionId := definitionId; position := position;
              rotation := rotation; m_timestamp := Some (Date_now host) |}
  ∧ getModuleDefinition (state_after (addModule host state definitionId position rotation))
      (uuidv4 host)
    = Some definition
  ∧ (∀ other, other ≠ uuidv4 host →
       getModule (state_after (addModule host state definitionId position rotation)) other
       = getModule state other)
  ∧ length (modules (state_after (addModule host state definitionId position rotation)))
    = S (length (modules state)).
Proof.
  intros Hdef Hfresh. apply findModule_None in Hfresh.
  unfold getModuleDefinition, getModule, addModule. rewrite Hdef. simpl.
  rewrite !findModule_app, Hfresh. simpl. rewrite String.eqb_refl.
  split; [reflexivity|]. split; [reflexivity|]. split; [exact Hdef|]. split.
  - intros other Hother. rewrite findModule_app. simpl.
    destruct (findModule (modules state) other); [reflexivity|].
    destruct (String.eqb_spec (uuidv4 host) other) as [Heq|_]; [congruence|reflexivity].
  - rewrite length_app. simpl. lia.
Qed.

Lemma addModule_then_getModule_witness :
  getModule (state_after (addModule someHost hubOnly "storage" (0, 0, 8)%float (0, 0, 0)%float))
    (uuidv4 someHost)
  = Some {| m_id := uuidv4 someHost; definitionId := "storage"; position := (0, 0, 8)%float;
            rotation := (0, 0, 0)%float; m_timestamp := Some (Date_now someHost) |}
  ∧ getModule (state_after (addModule someHost hubOnly "storage" (0, 0, 8)%float (0, 0, 0)%float))
      "hub-1"
    = Some hubAtOrigin.
Proof.
  destruct (addModule_then_getModule someHost hubOnly "storage" (0, 0, 8)%float (0, 0, 0)%float
              storage eq_refl) as (_ & Hnew & _ & Hold & _).
  { intros m [<-|[]]. discriminate. }
  split; [exact Hnew|]. rewrite Hold by discriminate. reflexivity.
Defined.

(** X5: after [removeModule] no module is found under the removed id, and
    every other id is found as before. *)
Theorem removeModule_then_getModule (state : HabitatState) (moduleId : string) :
  getModule (removeModule state moduleId) moduleId = None
  ∧ getModuleDefinition (removeModule state moduleId) moduleId = None
  ∧ ∀ other, other ≠ moduleId →
      getModule (removeModule state moduleId) other = getModule state other.
Proof.
  unfold getModuleDefinition, getModule, removeModule. simpl.
  rewrite !findModule_filter, String.eqb_refl.
  split; [reflexivity|]. split; [reflexivity|].
  intros other Hother. rewrite findModule_filter.
  destruct (String.eqb_spec other moduleId) as [Heq|_]; [contradiction|reflexivity].
Qed.

Lemma filter_other_connection_ids (connections : list Connection) id :
  (∀ c, In c connections → c_id c ≠ id) →
  List.filter (fun conn => negb (String.eqb (c_id conn) id)) connections = connections.
Proof.
  intros Hother. apply filter_all. intros c Hc.
  destruct (String.eqb_spec (c_id c) id) as [Heq|_]; [|reflexivity].
  exfalso. exact (Hother c Hc Heq).
Qed.

(** X6: [addConnection] appends the connection under the id it returns,
    whatever modules and points it names, and touches nothing else;
    [removeConnection] with that id, when no older connection bears it,
    gives back the state from before. *)
Theorem addConnection_then_removeConnection (host : Host) (state : HabitatState)
    (moduleId1 pointId1 moduleId2 pointId2 : string) :
  (∀ c, In c (connections state) → c_id c ≠ uuidv4 host) →
  returned (addConnection host state moduleId1 pointId1 moduleId2 pointId2) = uuidv4 host
  ∧ connections (state_after (addConnection host state moduleId1 pointId1 moduleId2 pointId2))
    = connections state
      ++ [ {| c_id := uuidv4 host; moduleId1 := moduleId1; pointId1 := pointId1;
              moduleId2 := moduleId2; pointId2 := pointId2;
              c_timestamp := Some (Date_now host) |} ]
  ∧ modules (state_after (addConnection host state moduleId1 pointId1 moduleId2 pointId2))
    = modules state
  ∧ removeConnection
      (state_after (addConnection host state moduleId1 pointId1 moduleId2 pointId2))
      (uuidv4 host)
    = state.
Proof.
  intros Hfresh. split; [reflexivity|]. split; [reflexivity|]. split; [reflexivity|].
  unfold removeConnection. simpl.
  rewrite List.filter_app, (filter_other_connection_ids _ _ Hfresh). simpl.
  rewrite String.eqb_refl. simpl. rewrite app_nil_r. destruct state; reflexivity.
Qed.

Lemma addConnection_then_removeConnection_witness :
  connections (state_after (addConnection someHost hubAndLab "hub-1" "up" "nowhere" "down"))
  = [ hubToLab;
      {| c_id := uuidv4 someHost; moduleId1 := "hub-1"; pointId1 := "up";
         moduleId2 := "nowhere"; pointId2 := "down"; c_timestamp := Some (Date_now someHost) |} ]
  ∧ removeConnection
      (state_after (addConnection someHost hubAndLab "hub-1" "up" "nowhere" "down"))
      (uuidv4 someHost)
    = hubAndLab.
Proof.
  destruct (addConnection_then_removeConnection someHost hubAndLab "hub-1" "up" "nowhere" "down")
    as (_ & Hadded & _ & Hback).
  { intros c [<-|[]]. discriminate. }
  split; [exact Hadded|exact Hback].
Defined.

(** X7: loading what [exportConfiguration] returned for a state of the
    provider gives back its modules, connections and statistics, whatever
    the state it is loaded into; the selection and the validation errors
    are cleared. *)
Theorem export_then_load (host : Host) (state into : HabitatState) :
  reachable state →
  modules (loadConfiguration into (exportConfiguration host state)) = modules state
  ∧ connections (loadConfiguration into (exportConfiguration host state)) = connections state
  ∧ statistics (loadConfiguration into (exportConfiguration host state)) = statistics state
  ∧ cfg_statistics (exportConfiguration host state)
    = Some (statistics (loadConfiguration into (exportConfiguration host state)))
  ∧ selectedModuleId (loadConfiguration into (exportConfiguration host state)) = None
  ∧ validationErrors (loadConfiguration into (exportConfiguration host state)) = [].
Proof.
  intros Hreach. pose proof (reachable_statistics state Hreach) as Hstats.
  simpl. rewrite Hstats. repeat split.
Qed.

Lemma export_then_load_witness :
  modules (loadConfiguration initialState (exportConfiguration someHost hubAndLab))
  = [hubAtOrigin; labSouth]
  ∧ connections (loadConfiguration initialState (exportConfiguration someHost hubAndLab))
    = [hubToLab]
  ∧ statistics (loadConfiguration initialState (exportConfiguration someHost hubAndLab))
    = statistics hubAndLab
  ∧ selectedModuleId (loadConfiguration initialState (exportConfiguration someHost hubAndLab))
    = None.
Proof.
  destruct (export_then_load someHost hubAndLab initialState)
    as (Hmodules & Hconnections & Hstatistics & _ & Hselected & _).
  { repeat apply reachable_step. apply reachable_initial. }
  split; [exact Hmodules|]. split; [exact Hconnections|]. split; [exact Hstatistics|exact Hselected].
Defined.

(** ** The module manager *)

Section ModuleManager.
Variable Math_round : float → float.

Lemma addModuleAtPosition_unknown (host : Host) (state : HabitatState)
    (definitionId : string) (position : vec3) (snapToGridEnabled : bool) :
  findDefinition definitionId = None →
  returned (addModuleAtPosition Math_round host state definitionId position snapToGridEnabled)
  = None
  ∧ state_after (addModuleAtPosition Math_round host state definitionId position snapToGridEnabled)
    = state.
Proof.
  intros Hnone. unfold addModuleAtPosition, addModule. rewrite Hnone. simpl. split; reflexivity.
Qed.

Lemma addModuleAtPosition_known (host : Host) (state : HabitatState)
    (definitionId : string) (position : vec3) (snapToGridEnabled : bool) definition :
  findDefinition definitionId = Some definition →
  uuidv4 host ≠ "" →
  (∀ m, In m (modules state) → m_id m ≠ uuidv4 host) →
  returned (addModuleAtPosition Math_round host state definitionId position snapToGridEnabled)
  = Some (uuidv4 host)
  ∧ modules
      (state_after
         (addModuleAtPosition Math_round host state definitionId position snapToGridEnabled))
    = modules state
      ++ [ {| m_id := uuidv4 host; definitionId := definitionId;
              position := if snapToGridEnabled then snapToGrid Math_round position 0.5
                          else position;
              rotation := (0, 0, 0)%float;
              m_timestamp := Some (Date_now host) |} ]
  ∧ selectedModuleId
      (state_after
         (addModuleAtPosition Math_round host state definitionId position snapToGridEnabled))
    = Some (uuidv4 host)
  ∧ getSelectedModule
      (state_after
         (addModuleAtPosition Math_round host state definitionId position snapToGridEnabled))
    = Some {| m_id := uuidv4 host; definitionId := definitionId;
              position := if snapToGridEnabled then snapToGrid Math_round position 0.5
                          else position;
              rotation := (0, 0, 0)%float;
              m_timestamp := Some (Date_now host) |}.
Proof.
  intros Hdef Hid Hfresh. apply findModule_None in Hfresh.
  unfold addModuleAtPosition, addModule. rewrite Hdef. simpl.
  destruct (String.eqb_spec (uuidv4 host) "") as [Hempty|_]; [contradiction|]. simpl.
  split; [reflexivity|]. split; [reflexivity|]. split; [reflexivity|].
  unfold getSelectedModule, getModule. simpl.
  destruct (String.eqb_spec (uuidv4 host) "") as [Hempty|_]; [contradiction|]. simpl.
  rewrite findModule_app, Hfresh. simpl. rewrite String.eqb_refl. reflexivity.
Qed.

(** X8: [addModuleAtPosition] with an unknown definition returns no id
    and leaves the state, selection included, as it was; with a
    definition of the catalog it appends the module at the position
    snapped to the 0.5 grid (or as given, when snapping is off), without
    rotation, and selects it. *)
Theorem addModuleAtPosition_selects (host : Host) (state : HabitatState)
    (definitionId : string) (position : vec3) (snapToGridEnabled : bool) :
  (findDefinition definitionId = None →
   returned (addModuleAtPosition Math_round host state definitionId position snapToGridEnabled)
   = None
   ∧ state_after (addModuleAtPosition Math_round host state definitionId position snapToGridEnabled)
     = state)
  ∧ (∀ definition,
       findDefinition definitionId = Some definition →
       uuidv4 host ≠ "" →
       (∀ m, In m (modules state) → m_id m ≠ uuidv4 host) →
       returned (addModuleAtPosition Math_round host state definitionId position snapToGridEnabled)
       = Some (uuidv4 host)
       ∧ modules
           (state_after
              (addModuleAtPosition Math_round host state definitionId position snapToGridEnabled))
         = modules state
           ++ [ {| m_id := uuidv4 host; definitionId := definitionId;
                   position := if snapToGridEnabled then snapToGrid Math_round position 0.5
                               else position;
                   rotation := (0, 0, 0)%float;
                   m_timestamp := Some (Date_now host) |} ]
       ∧ selectedModuleId
           (state_after
              (addModuleAtPosition Math_round host state definitionId position snapToGridEnabled))
         = Some (uuidv4 host)
       ∧ getSelectedModule
           (state_after
              (addModuleAtPosition Math_round host state definitionId position snapToGridEnabled))
         = Some {| m_id := uuidv4 host; definitionId := definitionId;
                   position := if snapToGridEnabled then snapToGrid Math_round position 0.5
                               else position;
                   rotation := (0, 0, 0)%float;
                   m_timestamp := Some (Date_now host) |}).
Proof.
  split; [apply addModuleAtPosition_unknown|].
  intros definition. apply addModuleAtPosition_known.
Qed.

(** X9: [cloneModule] of a missing module, or of a module whose
    definition is not in the catalog, returns no id and changes nothing.
    The clone of a module of the catalog has the source's definition and
    the source's position plus the offset, snapped to the 0.5 grid; it
    does not take over the source's rotation; it is selected, and the
    source stays in place. *)
Theorem cloneModule_copies_definition (host : Host) (state : HabitatState)
    (sourceModuleId : string) (offset : vec3) :
  (getModule state sourceModuleId = None →
   returned (cloneModule Math_round host state sourceModuleId offset) = None
   ∧ state_after (cloneModule Math_round host state sourceModuleId offset) = state)
  ∧ (∀ sourceModule,
       getModule state sourceModuleId = Some sourceModule →
       findDefinition (definitionId sourceModule) = None →
       returned (cloneModule Math_round host state sourceModuleId offset) = None
       ∧ state_after (cloneModule Math_round host state sourceModuleId offset) = state)
  ∧ (∀ sourceModule definition,
       getModule state sourceModuleId = Some sourceModule →
       findDefinition (definitionId sourceModule) = Some definition →
       uuidv4 host ≠ "" →
       (∀ m, In m (modules state) → m_id m ≠ uuidv4 host) →
       returned (cloneModule Math_round host state sourceModuleId offset) = Some (uuidv4 host)
       ∧ getSelectedModule (state_after (cloneModule Math_round host state sourceModuleId offset))
         = Some {| m_id := uuidv4 host; definitionId := definitionId sourceModule;
                   position :=
                     snapToGrid Math_round
                       (vx (position sourceModule) + vx offset,
                        vy (position sourceModule) + vy offset,
                        vz (position sourceModule) + vz offset)%float 0.5;
                   rotation := (0, 0, 0)%float;
                   m_timestamp := Some (Date_now host) |}
       ∧ getModule (state_after (cloneModule Math_round host state sourceModuleId offset))
           sourceModuleId
         = Some sourceModule).
Proof.
  unfold cloneModule. split; [|split].
  - intros Hnone. rewrite Hnone. split; reflexivity.
  - intros sourceModule Hsource Hnone. rewrite Hsource.
    apply addModuleAtPosition_unknown. exact Hnone.
  - intros sourceModule definition Hsource Hdef Hid Hfresh. rewrite Hsource.
    destruct (addModuleAtPosition_known host state (definitionId sourceModule)
                (vx (position sourceModule) + vx offset,
                 vy (position sourceModule) + vy offset,
                 vz (position sourceModule) + vz offset)%float true definition Hdef Hid Hfresh)
      as (Hreturned & Hmodules & _ & Hselected).
    split; [exact Hreturned|]. split; [exact Hselected|].
    unfold getModule in *. rewrite Hmodules, findModule_app, Hsource. reflexivity.
Qed.

(** X10: [deleteSelectedModule] does nothing when no module is selected;
    otherwise no module with the selected id is left, nothing is selected
    any more, the other modules are found as before and the connections
    are untouched. *)
Theorem deleteSelectedModule_effect (state : HabitatState) :
  (truthy (selectedModuleId state) = false → deleteSelectedModule state = state)
  ∧ (∀ selected,
       selectedModuleId state = Some selected → selected ≠ "" →
       getModule (deleteSelectedModule state) selected = None
       ∧ selectedModuleId (deleteSelectedModule state) = None
       ∧ getSelectedModule (deleteSelectedModule state) = None
       ∧ (∀ other, other ≠ selected →
            getModule (deleteSelectedModule state) other = getModule state other)
       ∧ connections (deleteSelectedModule state) = connections state).
Proof.
  unfold deleteSelectedModule. split.
  - intros Hfalsy. rewrite Hfalsy. reflexivity.
  - intros selected Hselected Hid. rewrite Hselected. simpl.
    destruct (String.eqb_spec selected "") as [Hempty|_]; [contradiction|]. simpl.
    unfold getSelectedModule, getModule. simpl. rewrite findModule_filter, String.eqb_refl.
    split; [reflexivity|]. split; [reflexivity|]. split; [reflexivity|].
    split; [|reflexivity].
    intros other Hother. rewrite findModule_filter.
    destruct (String.eqb_spec other selected) as [Heq|_]; [contradiction|reflexivity].
Qed.

(** X11: [findOptimalPosition] answers the origin for an empty habitat and
    for an unknown definition.  Otherwise the answer is 8 metres along x
    from the reference position, snapped to the 0.5 grid: it is the same
    for every definition of the catalog, and a target id that no module
    has makes the origin the reference, not the last module.  No module's
    extent is consulted. *)
Theorem findOptimalPosition_cases (state : HabitatState) (definitionId : string)
    (targetModuleId : option string) :
  (modules state = [] → findOptimalPosition Math_round state definitionId targetModuleId
                        = (0, 0, 0)%float)
  ∧ (findDefinition definitionId = None →
     findOptimalPosition Math_round state definitionId targetModuleId = (0, 0, 0)%float)
  ∧ (∀ other, is_Some (findDefinition definitionId) → is_Some (findDefinition other) →
       findOptimalPosition Math_round state definitionId targetModuleId
       = findOptimalPosition Math_round state other targetModuleId)
  ∧ (modules state ≠ [] → is_Some (findDefinition definitionId) →
     (∀ target, targetModuleId = Some target → target ≠ "" → getModule state target = None →
        findOptimalPosition Math_round state definitionId targetModuleId
        = snapToGrid Math_round (8, 0, 0)%float 0.5)
     ∧ (∀ target targetModule,
          targetModuleId = Some target → target ≠ "" →
          getModule state target = Some targetModule →
          findOptimalPosition Math_round state definitionId targetModuleId
          = snapToGrid Math_round
              (vx (position targetModule) + 8, vy (position targetModule),
               vz (position targetModule))%float 0.5)
     ∧ (∀ lastModule, truthy targetModuleId = false → last (modules state) = Some lastModule →
          findOptimalPosition Math_round state definitionId targetModuleId
          = snapToGrid Math_round
              (vx (position lastModule) + 8, vy (position lastModule),
               vz (position lastModule))%float 0.5)).
Proof.
  unfold findOptimalPosition. split; [|split; [|split]].
  - intros ->. reflexivity.
  - intros ->. destruct (modules state); reflexivity.
  - intros other [d1 ->] [d2 ->]. reflexivity.
  - intros Hmodules [definition ->].
    destruct (modules state) as [|m ms] eqn:Hms; [contradiction|].
    split; [|split].
    + intros target -> Hid Hmissing. simpl.
      destruct (String.eqb_spec target "") as [Hempty|_]; [contradiction|]. simpl.
      rewrite Hmissing. reflexivity.
    + intros target targetModule -> Hid Hfound. simpl.
      destruct (String.eqb_spec target "") as [Hempty|_]; [contradiction|]. simpl.
      rewrite Hfound. reflexivity.
    + intros lastModule' Hfalsy Hlast. rewrite Hfalsy. unfold lastModule.
      rewrite Hms, Hlast. reflexivity.
Qed.

End ModuleManager.

Lemma addModuleAtPosition_selects_witness :
  returned (addModuleAtPosition roundHalfUp someHost hubOnly "greenhouse" (0.2, 0, 7.8)%float true)
  = None
  ∧ state_after
      (addModuleAtPosition roundHalfUp someHost hubOnly "greenhouse" (0.2, 0, 7.8)%float true)
    = hubOnly
  ∧ getSelectedModule
      (state_after
         (addModuleAtPosition roundHalfUp someHost hubOnly "storage" (0.2, 0, 7.8)%float true))
    = Some {| m_id := uuidv4 someHost; definitionId := "storage"; position := (0, 0, 8)%float;
              rotation := (0, 0, 0)%float; m_timestamp := Some (Date_now someHost) |}.
Proof.
  destruct (addModuleAtPosition_selects roundHalfUp someHost hubOnly "greenhouse"
              (0.2, 0, 7.8)%float true) as (Hunknown & _).
  destruct (addModuleAtPosition_selects roundHalfUp someHost hubOnly "storage"
              (0.2, 0, 7.8)%float true) as (_ & Hknown).
  destruct (Hunknown eq_refl) as (Hreturned & Hstate).
  destruct (Hknown storage eq_refl) as (_ & _ & _ & Hselected).
  { discriminate. }
  { intros m [<-|[]]. discriminate. }
  split; [exact Hreturned|]. split; [exact Hstate|exact Hselected].
Defined.

(** The clone of the rotated laboratory is not rotated. *)
Lemma cloneModule_copies_definition_witness :
  getModule (rotateModule hubAndLab "lab-1" (0, 1.5, 0)%float) "lab-1"
  = Some {| m_id := "lab-1"; definitionId := "laboratory"; position := (0, 0, -7.45)%float;
            rotation := (0, 1.5, 0)%float; m_timestamp := None |}
  ∧ getSelectedModule
      (state_after
         (cloneModule roundHalfUp someHost (rotateModule hubAndLab "lab-1" (0, 1.5, 0)%float)
            "lab-1" (2, 0, 0)%float))
    = Some {| m_id := uuidv4 someHost; definitionId := "laboratory"; position := (2, 0, -7.5)%float;
              rotation := (0, 0, 0)%float; m_timestamp := Some (Date_now someHost) |}
  ∧ returned
      (cloneModule roundHalfUp someHost hubAndLab "quarters-1" (2, 0, 0)%float)
    = None.
Proof.
  split; [reflexivity|].
  destruct (cloneModule_copies_definition roundHalfUp someHost
              (rotateModule hubAndLab "lab-1" (0, 1.5, 0)%float) "lab-1" (2, 0, 0)%float)
    as (_ & _ & Hclone).
  destruct (cloneModule_copies_definition roundHalfUp someHost hubAndLab "quarters-1"
              (2, 0, 0)%float) as (Hmissing & _).
  destruct (Hclone _ laboratory eq_refl eq_refl) as (_ & Hselected & _).
  { discriminate. }
  { intros m [<-|[<-|[]]]; discriminate. }
  split; [exact Hselected|]. apply Hmissing. reflexivity.
Defined.

Lemma deleteSelectedModule_effect_witness :
  deleteSelectedModule hubOnly = hubOnly
  ∧ modules (deleteSelectedModule hubAndLab) = [hubAtOrigin]
  ∧ getSelectedModule (deleteSelectedModule hubAndLab) = None
  ∧ connections (deleteSelectedModule hubAndLab) = [hubToLab].
Proof.
  destruct (deleteSelectedModule_effect hubOnly) as (Hnone & _).
  destruct (deleteSelectedModule_effect hubAndLab) as (_ & Hsome).
  destruct (Hsome "lab-1" eq_refl) as (_ & _ & Hselected & _ & Hconnections).
  { discriminate. }
  split; [apply Hnone; reflexivity|]. split; [reflexivity|].
  split; [exact Hselected|exact Hconnections].
Defined.

(** With the storage module 8 metres east of the hub and the hub added
    last, the position found for a new module is the storage module's. *)
Lemma findOptimalPosition_cases_witness :
  findOptimalPosition roundHalfUp storageThenHub "laboratory" None = position storageEast
  ∧ findOptimalPosition roundHalfUp storageThenHub "laboratory" (Some "lab-9") = (8, 0, 0)%float
  ∧ findOptimalPosition roundHalfUp storageThenHub "laboratory" (Some "storage-2")
    = (16, 0, 0)%float
  ∧ findOptimalPosition roundHalfUp storageThenHub "greenhouse" None = (0, 0, 0)%float.
Proof.
  destruct (findOptimalPosition_cases roundHalfUp storageThenHub "laboratory" None)
    as (_ & _ & _ & Hlast).
  destruct (findOptimalPosition_cases roundHalfUp storageThenHub "laboratory" (Some "lab-9"))
    as (_ & _ & _ & Hmissing).
  destruct (findOptimalPosition_cases roundHalfUp storageThenHub "laboratory" (Some "storage-2"))
    as (_ & _ & _ & Htarget).
  destruct (findOptimalPosition_cases roundHalfUp storageThenHub "greenhouse" None)
    as (_ & Hunknown & _).
  destruct Hlast as (_ & _ & Hlast); [discriminate | eexists; reflexivity |].
  destruct Hmissing as (Hmissing & _); [discriminate | eexists; reflexivity |].
  destruct Htarget as (_ & Htarget & _); [discriminate | eexists; reflexivity |].
  split; [rewrite (Hlast hubAtOrigin eq_refl eq_refl); reflexivity|].
  split; [rewrite (Hmissing "lab-9" eq_refl ltac:(discriminate) eq_refl); reflexivity|].
  split; [rewrite (Htarget "storage-2" storageEast eq_refl ltac:(discriminate) eq_refl);
          reflexivity|].
  apply Hunknown. reflexivity.
Defined.

(** ** Extent and centre of a habitat *)

Lemma foldl_growBox_unknown (state : HabitatState) (ms : list ModuleInstance) (box : Box) :
  (∀ m, In m ms → getModuleDefinition state (m_id m) = None) →
  foldl (growBox state) box ms = box.
Proof.
  revert box. induction ms as [|m ms IH]; intros box Hunknown; [reflexivity|].
  simpl. unfold growBox at 2. rewrite (Hunknown m (or_introl eq_refl)).
  apply IH. intros m' Hm'. apply Hunknown. right. exact Hm'.
Qed.

Lemma foldl_mass_unknown (state : HabitatState) (ms : list ModuleInstance) :
  (∀ m, In m ms → massOf state m = 0%float) →
  foldl (fun sum module => (sum + massOf state module)%float) 0%float ms = 0%float.
Proof.
  induction ms as [|m ms IH]; intros Hzero; [reflexivity|].
  simpl. rewrite (Hzero m (or_introl eq_refl)).
  change (0 + 0)%float with 0%float.
  apply IH. intros m' Hm'. apply Hzero. right. exact Hm'.
Qed.

(** X12: the bounding box of an empty habitat is the point at the origin.
    When the habitat has modules but none of them has a definition in
    the catalog, the box comes back inside out, from +Infinity to
    -Infinity on every axis; the density is 0 in both cases. *)
Theorem getBoundingBox_without_definitions (state : HabitatState) :
  (modules state = [] →
   getBoundingBox state = {| box_min := (0, 0, 0)%float; box_max := (0, 0, 0)%float |}
   ∧ getModuleDensity state = 0%float)
  ∧ (modules state ≠ [] →
     (∀ m, In m (modules state) → getModuleDefinition state (m_id m) = None) →
     getBoundingBox state
     = {| box_min := (infinity, infinity, infinity);
          box_max := (neg_infinity, neg_infinity, neg_infinity) |}
     ∧ getModuleDensity state = 0%float).
Proof.
  unfold getModuleDensity, getBoundingBox. split.
  - intros ->. split; reflexivity.
  - intros Hmodules Hunknown.
    rewrite (foldl_growBox_unknown state (modules state) _ Hunknown).
    destruct (modules state); [contradiction|]. split; reflexivity.
Qed.

Lemma getBoundingBox_without_definitions_witness :
  getBoundingBox ghostsOnly
  = {| box_min := (infinity, infinity, infinity);
       box_max := (neg_infinity, neg_infinity, neg_infinity) |}
  ∧ getModuleDensity ghostsOnly = 0%float
  ∧ getBoundingBox hubOnly
    = {| box_min := (-2.1, -2.1, -2.1)%float; box_max := (2.1, 2.1, 2.1)%float |}.
Proof.
  destruct (getBoundingBox_without_definitions ghostsOnly) as (_ & Hghosts).
  destruct Hghosts as (Hbox & Hdensity).
  { discriminate. }
  { intros m [<-|[<-|[]]]; reflexivity. }
  split; [exact Hbox|]. split; [exact Hdensity|reflexivity].
Defined.

(** X13: the centre of mass is the origin for an empty habitat and for a
    habitat in which every module weighs 0, as every module without a
    definition in the catalog does. *)
Theorem getCenterOfMass_without_mass (state : HabitatState) :
  (modules state = [] → getCenterOfMass state = (0, 0, 0)%float)
  ∧ ((∀ m, In m (modules state) → massOf state m = 0%float) →
     getCenterOfMass state = (0, 0, 0)%float)
  ∧ ((∀ m, In m (modules state) → getModuleDefinition state (m_id m) = None) →
     getCenterOfMass state = (0, 0, 0)%float).
Proof.
  assert (Hzero : (∀ m, In m (modules state) → massOf state m = 0%float) →
                  getCenterOfMass state = (0, 0, 0)%float).
  { intros Hmass. unfold getCenterOfMass.
    rewrite (foldl_mass_unknown state (modules state) Hmass).
    destruct (modules state); reflexivity. }
  split; [|split].
  - intros Hempty. unfold getCenterOfMass. rewrite Hempty. reflexivity.
  - exact Hzero.
  - intros Hunknown. apply Hzero. intros m Hm. unfold massOf.
    rewrite (Hunknown m Hm). reflexivity.
Qed.

Lemma getCenterOfMass_without_mass_witness :
  getCenterOfMass ghostsOnly = (0, 0, 0)%float
  ∧ getCenterOfMass storageThenHub = (2, 0, 0)%float.
Proof.
  destruct (getCenterOfMass_without_mass ghostsOnly) as (_ & _ & Hghosts).
  split; [|reflexivity].
  apply Hghosts. intros m [<-|[<-|[]]]; reflexivity.
Defined.

(** ** The connection validator hook *)

Lemma find_unique {A : Type} (key : A → string) (l : list A) (x : A) :
  NoDup (map key l) → In x l →
  List.find (fun y => String.eqb (key y) (key x)) l = Some x.
Proof.
  induction l as [|y l IH]; intros Hdistinct Hin; [destruct Hin|].
  simpl in Hdistinct. apply NoDup_cons in Hdistinct as [Hfresh Hdistinct]. simpl.
  destruct Hin as [->|Hin]; [rewrite String.eqb_refl; reflexivity|].
  destruct (String.eqb_spec (key y) (key x)) as [Heq|_]; [|apply IH; assumption].
  exfalso. apply Hfresh. rewrite Heq. apply list_elem_of_In, in_map. exact Hin.
Qed.

Lemma flat_map_nil {A B : Type} (f : A → list B) (l : list A) :
  (∀ x, In x l → f x = []) → flat_map f l = [].
Proof.
  induction l as [|x l IH]; intros Hall; [reflexivity|]. simpl.
  rewrite (Hall x (or_introl eq_refl)). apply IH.
  intros y Hy. apply Hall. right. exact Hy.
Qed.

Lemma withPosition_same (module : ModuleInstance) : withPosition module (position module) = module.
Proof. destruct module. reflexivity. Qed.

(** The point ids of every definition of the catalog are distinct. *)
Lemma catalog_point_ids_distinct (definitionId : string) (definition : ModuleDefinition) :
  findDefinition definitionId = Some definition →
  NoDup (map p_id (connectionPoints definition)).
Proof.
  intros Hfound. apply find_some in Hfound as [Hin _].
  assert (Hall : Forall (fun d => NoDup (map p_id (connectionPoints d))) moduleDefinitions).
  { repeat constructor; refine (bool_decide_unpack _ _); vm_compute; exact I. }
  rewrite Forall_forall in Hall. apply Hall, list_elem_of_In. exact Hin.
Qed.

Section ValidatorHook.
Variables Math_cos Math_sin : float → float.

Lemma worldPoints_ids_distinct (module : ModuleInstance) :
  NoDup (map (fun p => p_id (point p)) (getWorldConnectionPoints Math_cos Math_sin module)).
Proof.
  unfold getWorldConnectionPoints.
  destruct (findDefinition (definitionId module)) as [definition|] eqn:Hdef; [|constructor].
  rewrite map_map. simpl. eapply catalog_point_ids_distinct. exact Hdef.
Qed.

(** What [validateHabitat] pushes for a connection, by the answer of
    [canModulesConnect] for its ends. *)
Lemma connectionErrors_canModulesConnect (state : HabitatState) (connection : Connection) :
  connectionErrors Math_cos Math_sin (modules state) connection
  = if mc_canConnect
         (canModulesConnect Math_cos Math_sin state (moduleId1 connection) (pointId1 connection)
            (moduleId2 connection) (pointId2 connection))
    then []
    else [ connectionIssue
             (match mc_reason
                      (canModulesConnect Math_cos Math_sin state (moduleId1 connection)
                         (pointId1 connection) (moduleId2 connection) (pointId2 connection)) with
              | Text "Connection point not found" => "invalid_connection_point"
              | _ => "invalid_connection"
              end)
             (match mc_reason
                      (canModulesConnect Math_cos Math_sin state (moduleId1 connection)
                         (pointId1 connection) (moduleId2 connection) (pointId2 connection)) with
              | Text "Module not found" => Text "Connection references non-existent module"
              | Text "Connection point not found" =>
                  Text "Connection references invalid connection point"
              | other => other
              end)
             connection ].
Proof.
  unfold connectionErrors, canModulesConnect.
  destruct (findModule (modules state) (moduleId1 connection)) as [module1|];
    [destruct (findModule (modules state) (moduleId2 connection)) as [module2|]|];
    try reflexivity.
  destruct (List.find _ (getWorldConnectionPoints _ _ module1)) as [point1|];
    [destruct (List.find _ (getWorldConnectionPoints _ _ module2)) as [point2|]|];
    try reflexivity.
  simpl. destruct (r_canConnect (canConnect point1 point2)); reflexivity.
Qed.

(** X14: [validateHabitat] and [canModulesConnect] judge a connection
    alike: the report holds an error for the connection exactly when
    [canModulesConnect] refuses its two ends, and the report is valid
    exactly when no two modules collide and [canModulesConnect] accepts
    every connection. *)
Theorem validateHabitat_agrees_with_canModulesConnect (state : HabitatState) :
  ∃ report,
    validateHabitat Math_cos Math_sin (modules state) (connections state) = Some report
    ∧ (∀ connection,
         connectionErrors Math_cos Math_sin (modules state) connection = []
         ↔ mc_canConnect
             (canModulesConnect Math_cos Math_sin state (moduleId1 connection)
                (pointId1 connection) (moduleId2 connection) (pointId2 connection)) = true)
    ∧ (∀ connection, In connection (connections state) →
         mc_canConnect
           (canModulesConnect Math_cos Math_sin state (moduleId1 connection)
              (pointId1 connection) (moduleId2 connection) (pointId2 connection)) = false →
         ∃ e, In e (errors report) ∧ connectionId e = Some (c_id connection))
    ∧ (isValid report = true
       ↔ collisionErrors (modules state) = []
         ∧ ∀ connection, In connection (connections state) →
             mc_canConnect
               (canModulesConnect Math_cos Math_sin state (moduleId1 connection)
                  (pointId1 connection) (moduleId2 connection) (pointId2 connection)) = true).
Proof.
  destruct (validateHabitat_spec Math_cos Math_sin (modules state) (connections state))
    as (issues & _ & Hreport).
  eexists. split; [exact Hreport|]. simpl.
  assert (Hone : ∀ connection,
            connectionErrors Math_cos Math_sin (modules state) connection = []
            ↔ mc_canConnect
                (canModulesConnect Math_cos Math_sin state (moduleId1 connection)
                   (pointId1 connection) (moduleId2 connection) (pointId2 connection)) = true).
  { intros connection. rewrite connectionErrors_canModulesConnect.
    destruct (mc_canConnect _); split; intros H; try reflexivity; discriminate H. }
  split; [exact Hone|]. split.
  - intros connection Hin Hrefused.
    pose proof (connectionErrors_canModulesConnect state connection) as Herrors.
    rewrite Hrefused in Herrors.
    eexists. split.
    + unfold reportErrors. apply in_or_app. right. apply in_flat_map.
      exists connection. split; [exact Hin|]. rewrite Herrors. left. reflexivity.
    + reflexivity.
  - unfold reportErrors. rewrite Nat.eqb_eq, length_zero_iff_nil. split.
    + intros Hnone. apply app_eq_nil in Hnone as [Hcollisions Hconnections].
      split; [exact Hcollisions|]. intros connection Hin. apply Hone.
      destruct (connectionErrors Math_cos Math_sin (modules state) connection) as [|e l] eqn:He;
        [reflexivity|].
      assert (Hin' : In e (flat_map (connectionErrors Math_cos Math_sin (modules state))
                             (connections state))).
      { apply in_flat_map. exists connection. split; [exact Hin|]. rewrite He. left. reflexivity. }
      rewrite Hconnections in Hin'. destruct Hin'.
    + intros [Hcollisions Hall]. rewrite Hcollisions. simpl.
      apply flat_map_nil. intros connection Hin. apply Hone, Hall. exact Hin.
Qed.

End ValidatorHook.

Section AutoConnect.
Variables Math_cos Math_sin : float → float.

(** The candidates of [getPotentialConnections]: pairs of a point of the
    module, at its own or at the candidate position, and a point of
    another module of the habitat, accepted by [canConnect]. *)
Lemma getPotentialConnections_In (state : HabitatState) (moduleId : string)
    (candidatePosition : option vec3) (c : PotentialConnection) :
  In c (getPotentialConnections Math_cos Math_sin state moduleId candidatePosition) →
  ∃ targetModule,
    findModule (modules state) moduleId = Some targetModule
    ∧ In (existingModule c) (modules state)
    ∧ m_id (existingModule c) ≠ moduleId
    ∧ In (targetPoint c)
        (getWorldConnectionPoints Math_cos Math_sin
           (withPosition targetModule (default (position targetModule) candidatePosition)))
    ∧ In (existingPoint c) (getWorldConnectionPoints Math_cos Math_sin (existingModule c))
    ∧ r_canConnect (canConnect (targetPoint c) (existingPoint c)) = true
    ∧ distance c = distance3D (worldPosition (targetPoint c)) (worldPosition (existingPoint c)).
Proof.
  unfold getPotentialConnections.
  destruct (findModule (modules state) moduleId) as [targetModule|] eqn:Htarget; [|intros []].
  intros Hin. exists targetModule. split; [reflexivity|].
  apply findModule_Some in Htarget as [_ Hid].
  unfold findPotentialConnections in Hin. apply sort_In, potentialConnections_In in Hin.
  destruct Hin as (em & tp & ep & Hem & Hother & Htp & Hep & Hok & ->). simpl.
  apply filter_In in Hem as [Hem _].
  split; [exact Hem|]. split.
  - destruct candidatePosition; simpl in Hother; rewrite <- Hid; exact Hother.
  - split; [|auto].
    destruct candidatePosition as [newPosition|]; simpl in *.
    + exact Htp.
    + rewrite withPosition_same in *. exact Htp.
Qed.

(** X15: [autoConnect] adds nothing when the module has no candidate.
    Otherwise, the module ids being distinct, it adds one connection from
    the module to another module, between the two points of the closest
    candidate, and this connection passes: [validateHabitat] pushes no
    error for it and [canModulesConnect] accepts it. *)
Theorem autoConnect_makes_valid_connection (host : Host) (state : HabitatState)
    (moduleId : string) :
  NoDup (map m_id (modules state)) →
  (getClosestConnection Math_cos Math_sin state moduleId None = None →
   returned (autoConnect Math_cos Math_sin host state moduleId) = None
   ∧ state_after (autoConnect Math_cos Math_sin host state moduleId) = state)
  ∧ (∀ closest,
       getClosestConnection Math_cos Math_sin state moduleId None = Some closest →
       returned (autoConnect Math_cos Math_sin host state moduleId) = Some (uuidv4 host)
       ∧ connections (state_after (autoConnect Math_cos Math_sin host state moduleId))
         = connections state ++ [autoConnection host moduleId closest]
       ∧ modules (state_after (autoConnect Math_cos Math_sin host state moduleId))
         = modules state
       ∧ moduleId2 (autoConnection host moduleId closest) ≠ moduleId
       ∧ connectionErrors Math_cos Math_sin
           (modules (state_after (autoConnect Math_cos Math_sin host state moduleId)))
           (autoConnection host moduleId closest)
         = []
       ∧ mc_canConnect
           (canModulesConnect Math_cos Math_sin
              (state_after (autoConnect Math_cos Math_sin host state moduleId))
              moduleId (p_id (point (targetPoint closest)))
              (m_id (existingModule closest)) (p_id (point (existingPoint closest))))
         = true).
Proof.
  intros Hdistinct. unfold autoConnect. split.
  - intros ->. split; reflexivity.
  - intros closest Hclosest. rewrite Hclosest. simpl.
    split; [reflexivity|]. split; [reflexivity|]. split; [reflexivity|].
    assert (Hin : In closest (getPotentialConnections Math_cos Math_sin state moduleId None)).
    { unfold getClosestConnection in Hclosest.
      destruct (getPotentialConnections Math_cos Math_sin state moduleId None) as [|c l];
        [discriminate|].
      injection Hclosest as ->. left. reflexivity. }
    apply getPotentialConnections_In in Hin
      as (targetModule & Htarget & Hexisting & Hother & Htp & Hep & Hok & _).
    simpl in Htp. rewrite withPosition_same in Htp.
    split; [exact Hother|].
    assert (Hvalid : connectionErrors Math_cos Math_sin (modules state)
                       (autoConnection host moduleId closest) = []).
    { unfold connectionErrors, autoConnection. simpl. rewrite Htarget.
      unfold findModule. rewrite (find_unique m_id _ _ Hdistinct Hexisting).
      rewrite (find_unique (fun p => p_id (point p)) _ _ (worldPoints_ids_distinct _ _ _) Htp).
      rewrite (find_unique (fun p => p_id (point p)) _ _ (worldPoints_ids_distinct _ _ _) Hep).
      rewrite Hok. reflexivity. }
    split; [exact Hvalid|].
    unfold canModulesConnect. cbn [modules]. rewrite Htarget.
    unfold findModule. rewrite (find_unique m_id _ _ Hdistinct Hexisting).
    rewrite (find_unique (fun p => p_id (point p)) _ _ (worldPoints_ids_distinct _ _ _) Htp).
    rewrite (find_unique (fun p => p_id (point p)) _ _ (worldPoints_ids_distinct _ _ _) Hep).
    exact Hok.
Qed.

(** X16: [getClosestConnection] answers null exactly when the module has
    no candidate, in particular when no module has the id.  Its answer
    joins a point of the module to a point of another module of the
    habitat, is accepted by [canConnect], and, when the distance
    differences order the candidates consistently, no candidate is
    nearer. *)
Theorem getClosestConnection_nearest (state : HabitatState) (moduleId : string)
    (candidatePosition : option vec3) :
  (findModule (modules state) moduleId = None →
   getClosestConnection Math_cos Math_sin state moduleId candidatePosition = None)
  ∧ (getClosestConnection Math_cos Math_sin state moduleId candidatePosition = None
     ↔ getPotentialConnections Math_cos Math_sin state moduleId candidatePosition = [])
  ∧ (∀ closest,
       getClosestConnection Math_cos Math_sin state moduleId candidatePosition = Some closest →
       In (existingModule closest) (modules state)
       ∧ m_id (existingModule closest) ≠ moduleId
       ∧ r_canConnect (canConnect (targetPoint closest) (existingPoint closest)) = true
       ∧ distance closest
         = distance3D (worldPosition (targetPoint closest)) (worldPosition (existingPoint closest))
       ∧ (consistentOn byDistance
            (getPotentialConnections Math_cos Math_sin state moduleId candidatePosition) →
          ∀ c, In c (getPotentialConnections Math_cos Math_sin state moduleId candidatePosition) →
               (0 <? distance closest - distance c)%float = false)).
Proof.
  unfold getClosestConnection. split; [|split].
  - intros Hnone. unfold getPotentialConnections. rewrite Hnone. reflexivity.
  - destruct (getPotentialConnections _ _ _ _ _); simpl; split; intros H;
      try reflexivity; discriminate H.
  - intros closest Hclosest.
    assert (Hin : In closest
                    (getPotentialConnections Math_cos Math_sin state moduleId candidatePosition)).
    { destruct (getPotentialConnections _ _ _ _ _) as [|c l]; [discriminate|].
      injection Hclosest as ->. left. reflexivity. }
    destruct (getPotentialConnections_In _ _ _ _ Hin)
      as (targetModule & _ & Hexisting & Hother & _ & _ & Hok & Hdistance).
    split; [exact Hexisting|]. split; [exact Hother|]. split; [exact Hok|].
    split; [exact Hdistance|].
    intros Hconsistent c Hc.
    unfold getPotentialConnections in *.
    destruct (findModule (modules state) moduleId) as [targetModule'|]; [|destruct Hc].
    unfold findPotentialConnections in *.
    set (candidates := potentialConnections _ _ _ _ _) in *.
    assert (Hconsistent' : consistentOn byDistance candidates).
    { destruct Hconsistent as [Hasym Htrans]. split.
      - intros a b Ha Hb. apply Hasym; apply sort_In; assumption.
      - intros a b d Ha Hb Hd. apply Htrans; apply sort_In; assumption. }
    pose proof (sort_sorted byDistance candidates Hconsistent' candidates
                  (fun x Hx => Hx)) as Hsorted.
    destruct (sort byDistance candidates) as [|first rest]; [discriminate|].
    injection Hclosest as ->.
    apply StronglySorted_inv in Hsorted as [_ Hfirst].
    destruct Hc as [<-|Hc].
    + assert (Hties : ties byDistance closest closest = true).
      { apply (ties_refl byDistance _ Hconsistent). left. reflexivity. }
      unfold ties in Hties. apply andb_prop in Hties as [Hties _].
      apply negb_true_iff in Hties. exact Hties.
    + rewrite Forall_forall in Hfirst. apply Hfirst, list_elem_of_In. exact Hc.
Qed.

End AutoConnect.

(** The hub connects itself to the quarters at its north port. *)
Lemma autoConnect_makes_valid_connection_witness :
  connections (state_after (autoConnect taylor_cos taylor_sin someHost hubAndQuarters "hub-1"))
  = [ {| c_id := uuidv4 someHost; moduleId1 := "hub-1"; pointId1 := "north";
         moduleId2 := "quarters-1"; pointId2 := "back";
         c_timestamp := Some (Date_now someHost) |} ]
  ∧ mc_canConnect
      (canModulesConnect taylor_cos taylor_sin
         (state_after (autoConnect taylor_cos taylor_sin someHost hubAndQuarters "hub-1"))
         "hub-1" "north" "quarters-1" "back")
    = true
  ∧ returned (autoConnect taylor_cos taylor_sin someHost hubOnly "hub-1") = None.
Proof.
  destruct (autoConnect_makes_valid_connection taylor_cos taylor_sin someHost hubAndQuarters
              "hub-1") as (_ & Hsome).
  { refine (bool_decide_unpack _ _). vm_compute. exact I. }
  destruct (autoConnect_makes_valid_connection taylor_cos taylor_sin someHost hubOnly "hub-1")
    as (Hnone & _).
  { refine (bool_decide_unpack _ _). vm_compute. exact I. }
  assert (Hclosest :
    ∃ closest,
      getClosestConnection taylor_cos taylor_sin hubAndQuarters "hub-1" None = Some closest
      ∧ autoConnection someHost "hub-1" closest
        = {| c_id := uuidv4 someHost; moduleId1 := "hub-1"; pointId1 := "north";
             moduleId2 := "quarters-1"; pointId2 := "back";
             c_timestamp := Some (Date_now someHost) |}).
  { eexists. split; vm_compute; reflexivity. }
  destruct Hclosest as (closest & Hclosest & Hconnection).
  destruct (Hsome closest Hclosest) as (_ & Hconnections & _ & _ & _ & Haccepted).
  split; [rewrite Hconnections, Hconnection; reflexivity|].
  split; [|apply Hnone; reflexivity].
  injection Hconnection as Hp1 Hm2 Hp2. rewrite Hp1, Hm2, Hp2 in Haccepted. exact Haccepted.
Defined.

Lemma getClosestConnection_nearest_witness :
  option_map summary
    (getClosestConnection taylor_cos taylor_sin hubAndQuarters "quarters-1" None)
  = Some ("back", "north", "hub-1", 4.4408920985006262e-16%float)
  ∧ getClosestConnection taylor_cos taylor_sin hubAndQuarters "lab-1" None = None
  ∧ getClosestConnection taylor_cos taylor_sin hubAndQuarters "quarters-1"
      (Some (0, 0, 9)%float) = None.
Proof.
  destruct (getClosestConnection_nearest taylor_cos taylor_sin hubAndQuarters "lab-1" None)
    as (Hmissing & _).
  destruct (getClosestConnection_nearest taylor_cos taylor_sin hubAndQuarters "quarters-1"
              (Some (0, 0, 9)%float)) as (_ & Hnone & _).
  split; [vm_compute; reflexivity|]. split; [apply Hmissing; reflexivity|].
  apply Hnone. vm_compute. reflexivity.
Defined.

(** ** The reachability check of the hook *)

Lemma linked_sym connections a b : linked connections a b → linked connections b a.
Proof.
  intros (c & Hc & Hends). exists c. split; [exact Hc|].
  destruct Hends as [[H1 H2]|[H1 H2]]; [right|left]; split; assumption.
Qed.

Lemma connectedTo_sym connections a b :
  connectedTo connections a b → connectedTo connections b a.
Proof.
  intros Hpath. induction Hpath as [|x y z Hstep _ IH]; [apply rtc_refl|].
  eapply rtc_r; [exact IH|]. apply linked_sym. exact Hstep.
Qed.

(** [isModuleConnected] always answers: from the set of the ids
    connected to [moduleId]. *)
Lemma isModuleConnected_reached (state : HabitatState) (moduleId : string) :
  ∃ reached : gset string,
    (∀ x, x ∈ reached ↔ connectedTo (connections state) moduleId x)
    ∧ isModuleConnected state moduleId
      = Some (if length (modules state) <=? 1 then true
              else size reached =? length (modules state)).
Proof.
  destruct (visit_from_start (connections state) moduleId) as (reached & Hvisit & Hreached).
  exists reached. split; [exact Hreached|].
  unfold isModuleConnected. destruct (length (modules state) <=? 1); [reflexivity|].
  rewrite Hvisit. reflexivity.
Qed.

(** With distinct module ids, no dangling connection and a start among
    the modules, the walk reaches as many ids as there are modules
    exactly when every module is connected to the start. *)
Lemma reached_all_modules (modules : list ModuleInstance) (connections : list Connection)
    (start : string) (reached : gset string) :
  NoDup (m_id <$> modules) →
  noDanglingConnection modules connections →
  start ∈ m_id <$> modules →
  (∀ x, x ∈ reached ↔ connectedTo connections start x) →
  size reached = length modules
  ↔ ∀ m, m ∈ modules → connectedTo connections start (m_id m).
Proof.
  intros Hdistinct Hclosed Hstart Hreached.
  assert (Hwithin : ∀ x, x ∈ reached → x ∈ m_id <$> modules).
  { intros x Hx. apply Hreached, connectedTo_mentioned in Hx as [->|Hx]; [exact Hstart|].
    apply Hclosed. exact Hx. }
  rewrite (reached_modules_size reached modules Hdistinct Hwithin).
  pose proof (length_reached_unreached reached modules) as Hsplit.
  split.
  - intros Hsize m Hm. apply Hreached.
    destruct (decide (m_id m ∈ reached)) as [Hin|Hout]; [exact Hin|].
    assert (Hunreached : m ∈ unreachedModules reached modules).
    { apply list_elem_of_filter. split; assumption. }
    destruct (unreachedModules reached modules); [inversion Hunreached|].
    simpl in Hsplit. lia.
  - intros Hall.
    assert (Hnone : unreachedModules reached modules = []).
    { destruct (unreachedModules reached modules) as [|m unreached] eqn:Hunreached;
        [reflexivity|].
      assert (Hm : m ∈ unreachedModules reached modules) by (rewrite Hunreached; left).
      apply list_elem_of_filter in Hm as [Hout Hm]. exfalso. apply Hout, Hreached, Hall, Hm. }
    rewrite Hnone in Hsplit. simpl in Hsplit. lia.
Qed.

(** X17: [isModuleConnected] always answers.  With at most one module the
    answer is true.  With distinct module ids, no dangling connection and
    [moduleId] the id of a module, the answer is true exactly when every
    module is connected to [moduleId], and it is the same for every
    module of the habitat. *)
Theorem isModuleConnected_spec (state : HabitatState) (moduleId : string) :
  ∃ answer,
    isModuleConnected state moduleId = Some answer
    ∧ (length (modules state) ≤ 1 → answer = true)
    ∧ (NoDup (m_id <$> modules state) →
       noDanglingConnection (modules state) (connections state) →
       moduleId ∈ m_id <$> modules state →
       (answer = true
        ↔ ∀ m, m ∈ modules state → connectedTo (connections state) moduleId (m_id m))
       ∧ ∀ other, other ∈ m_id <$> modules state →
                  isModuleConnected state other = Some answer).
Proof.
  destruct (isModuleConnected_reached state moduleId) as (reached & Hreached & Hanswer).
  eexists. split; [exact Hanswer|]. split.
  - intros Hle. apply Nat.leb_le in Hle. rewrite Hle. reflexivity.
  - intros Hdistinct Hclosed Hstart.
    pose proof (reached_all_modules _ _ _ _ Hdistinct Hclosed Hstart Hreached) as Hall.
    assert (Hsingle : length (modules state) ≤ 1 →
                      ∀ m, m ∈ modules state → connectedTo (connections state) moduleId (m_id m)).
    { intros Hle m Hm.
      destruct (modules state) as [|only [|second rest]]; simpl in Hle; [inversion Hm| |lia].
      apply list_elem_of_singleton in Hm as ->.
      apply list_elem_of_singleton in Hstart as ->. apply rtc_refl. }
    split.
    + destruct (length (modules state) <=? 1) eqn:Hlen.
      * apply Nat.leb_le in Hlen. split; [intros _; apply Hsingle, Hlen | reflexivity].
      * rewrite Nat.eqb_eq. exact Hall.
    + intros other Hother.
      destruct (isModuleConnected_reached state other) as (reached' & Hreached' & ->).
      f_equal. destruct (length (modules state) <=? 1); [reflexivity|].
      pose proof (reached_all_modules _ _ _ _ Hdistinct Hclosed Hother Hreached') as Hall'.
      assert (Hsame : size reached' = length (modules state)
                      ↔ size reached = length (modules state)).
      { rewrite Hall, Hall'.
        apply list_elem_of_fmap in Hstart as (ms & -> & Hms).
        apply list_elem_of_fmap in Hother as (mo & -> & Hmo).
        split; intros Hfrom m Hm.
        - etrans; [apply connectedTo_sym, Hfrom, Hms|]. apply Hfrom, Hm.
        - etrans; [apply connectedTo_sym, Hfrom, Hmo|]. apply Hfrom, Hm. }
      destruct (size reached' =? length (modules state)) eqn:E';
        destruct (size reached =? length (modules state)) eqn:E; try reflexivity.
      * apply Nat.eqb_eq in E'. apply Nat.eqb_neq in E. tauto.
      * apply Nat.eqb_eq in E. apply Nat.eqb_neq in E'. tauto.
Qed.

(** X18: when no connection is dangling, [isModuleConnected] of the first
    module answers true exactly when [validateHabitat] gives no
    disconnection warning. *)
Theorem isModuleConnected_agrees_with_validateHabitat (Math_cos Math_sin : float → float)
    (state : HabitatState) (first : ModuleInstance) (rest : list ModuleInstance) :
  modules state = first :: rest →
  noDanglingConnection (modules state) (connections state) →
  ∃ report,
    validateHabitat Math_cos Math_sin (modules state) (connections state) = Some report
    ∧ (isModuleConnected state (m_id first) = Some true ↔ warnings report = []).
Proof.
  intros Hmodules Hclosed.
  destruct (isModuleConnected_reached state (m_id first)) as (reached & Hreached & ->).
  destruct (connectivityWarnings_reached first rest (connections state))
    as (reached' & Hreached' & Hwarnings).
  assert (Hsame : reached' = reached).
  { apply set_eq. intros x. rewrite Hreached, Hreached'. reflexivity. }
  subst reached'. rewrite <- Hmodules in Hwarnings.
  destruct (validateHabitat_warnings Math_cos Math_sin _ _ _ Hwarnings)
    as (report & Hreport & Hissues).
  exists report. split; [exact Hreport|]. rewrite Hissues.
  assert (Hle : size reached ≤ length (modules state)).
  { etrans; [|rewrite <- (length_fmap m_id); apply size_list_to_set_le].
    apply subseteq_size. intros x Hx. apply elem_of_list_to_set.
    apply Hreached, connectedTo_mentioned in Hx as [->|Hx].
    - rewrite Hmodules. left.
    - apply Hclosed. exact Hx. }
  destruct (length (modules state) <=? 1) eqn:Hlen.
  - apply Nat.leb_le in Hlen. rewrite bool_decide_eq_false_2 by lia. split; reflexivity.
  - apply Nat.leb_gt in Hlen.
    destruct (size reached =? length (modules state)) eqn:Hsize.
    + apply Nat.eqb_eq in Hsize. rewrite bool_decide_eq_false_2 by lia. split; reflexivity.
    + apply Nat.eqb_neq in Hsize. rewrite bool_decide_eq_true_2 by lia.
      split; intros H; discriminate H.
Qed.

(** Joined hub and quarters are connected, from either module.  From an id
    that only a dangling connection mentions the walk counts two ids, as
    many as there are modules, and the answer is true as well. *)
Lemma isModuleConnected_spec_witness :
  isModuleConnected hubJoinedToQuarters "hub-1" = Some true
  ∧ isModuleConnected hubJoinedToQuarters "quarters-1" = Some true
  ∧ connectedTo (connections hubJoinedToQuarters) "hub-1" "quarters-1"
  ∧ isModuleConnected hubAndQuarters "hub-1" = Some false
  ∧ isModuleConnected hubJoinedToGhost "ghost-9" = Some true.
Proof.
  destruct (isModuleConnected_spec hubJoinedToQuarters "hub-1")
    as (answer & Hanswer & _ & Hspec).
  assert (Htrue : answer = true).
  { assert (Heq : Some answer = Some true) by (rewrite <- Hanswer; vm_compute; reflexivity).
    injection Heq as ->. reflexivity. }
  subst answer.
  destruct Hspec as [Hall Hsame].
  { refine (bool_decide_unpack _ _). vm_compute. exact I. }
  { intros x Hx. apply elem_of_mentioned in Hx as (c & Hc & Hx).
    apply list_elem_of_singleton in Hc as ->.
    destruct Hx as [<-|<-]; [left|right; left]. }
  { left. }
  split; [exact Hanswer|].
  split; [apply Hsame; right; left|].
  split; [apply (proj1 Hall eq_refl quartersNorth); right; left|].
  split; vm_compute; reflexivity.
Defined.

Lemma isModuleConnected_agrees_with_validateHabitat_witness :
  ∃ report,
    validateHabitat taylor_cos taylor_sin (modules hubAndQuarters) (connections hubAndQuarters)
    = Some report
    ∧ (isModuleConnected hubAndQuarters "hub-1" = Some true ↔ warnings report = []).
Proof.
  apply (isModuleConnected_agrees_with_validateHabitat taylor_cos taylor_sin hubAndQuarters
           hubAtOrigin [quartersNorth]).
  - reflexivity.
  - intros x Hx. apply elem_of_mentioned in Hx as (c & Hc & _). inversion Hc.
Defined.

(** ** The validation summary *)

Section Summary.
Variables Math_cos Math_sin : float → float.

(** The errors of a report have no severity and one of three types. *)
Lemma reportErrors_shape (modules : list ModuleInstance) (connections : list Connection)
    (e : Issue) :
  In e (reportErrors Math_cos Math_sin modules connections) →
  severity e = None
  ∧ (i_type e = "collision" ∨ i_type e = "invalid_connection"
     ∨ i_type e = "invalid_connection_point").
Proof.
  unfold reportErrors. rewrite in_app_iff, in_flat_map. intros [He|(c & _ & He)].
  - destruct (collisionErrors_In _ _ He) as (a & b & _ & _ & -> & _). simpl. auto.
  - pose proof (connectionErrors_shape _ _ _ _ _ He) as (_ & _ & Htype).
    split; [|tauto].
    unfold connectionErrors in He.
    repeat match type of He with
           | In _ (match ?x with _ => _ end) => destruct x
           | In _ (if ?x then _ else _) => destruct x
           end;
      first [destruct He as [<-|[]]; reflexivity | destruct He].
Qed.

(** The warnings of a report are disconnection warnings. *)
Lemma connectivityWarnings_shape (modules : list ModuleInstance)
    (connections : list Connection) (issues : list Issue) (w : Issue) :
  connectivityWarnings modules connections = Some issues →
  In w issues → ∃ n, w = disconnectedWarning n.
Proof.
  intros Hsome Hw.
  destruct (connectivityWarnings_spec modules connections) as (issues' & Hsome' & Hspec).
  rewrite Hsome in Hsome'. injection Hsome' as <-.
  destruct modules as [|first [|second rest]]; try (subst issues; destruct Hw).
  destruct Hspec as (reached & _ & ->).
  destruct (bool_decide _); [|destruct Hw].
  destruct Hw as [<-|[]]. eexists. reflexivity.
Qed.

(** X19: [validateAndUpdateErrors] always returns a report and stores its
    errors followed by its warnings.  The summary of the stored list then
    counts the errors and the warnings of the report, is valid exactly
    when the report is, and counts as critical the errors other than the
    ones about an unknown connection point. *)
Theorem getValidationSummary_after_validation (state : HabitatState) :
  ∃ report validated,
    validateAndUpdateErrors Math_cos Math_sin state = Some (report, validated)
    ∧ validationErrors validated = errors report ++ warnings report
    ∧ errorCount (getValidationSummary validated) = length (errors report)
    ∧ warningCount (getValidationSummary validated) = length (warnings report)
    ∧ totalIssues (getValidationSummary validated)
      = length (errors report) + length (warnings report)
    ∧ vs_isValid (getValidationSummary validated) = isValid report
    ∧ criticalIssues (getValidationSummary validated)
      = length (List.filter
                  (fun e => negb (String.eqb (i_type e) "invalid_connection_point"))
                  (errors report)).
Proof.
  destruct (validateHabitat_spec Math_cos Math_sin (modules state) (connections state))
    as (issues & Hwarnings & Hreport).
  unfold validateAndUpdateErrors. rewrite Hreport. simpl.
  eexists _, _. split; [reflexivity|]. simpl.
  set (errs := reportErrors Math_cos Math_sin (modules state) (connections state)).
  assert (Herrors : List.filter countsAsError (errs ++ issues) = errs).
  { rewrite List.filter_app.
    rewrite (filter_all countsAsError errs).
    - rewrite (proj2 (filter_nil_iff countsAsError issues)); [apply app_nil_r|].
      intros w Hw. destruct (connectivityWarnings_shape _ _ _ _ Hwarnings Hw) as (n & ->).
      reflexivity.
    - intros e He. apply reportErrors_shape in He as [Hseverity _].
      unfold countsAsError. rewrite Hseverity. apply orb_true_r. }
  assert (Hwarns : List.filter countsAsWarning (errs ++ issues) = issues).
  { rewrite List.filter_app.
    rewrite (proj2 (filter_nil_iff countsAsWarning errs)).
    - apply filter_all. intros w Hw.
      destruct (connectivityWarnings_shape _ _ _ _ Hwarnings Hw) as (n & ->). reflexivity.
    - intros e He. apply reportErrors_shape in He as [Hseverity _].
      unfold countsAsWarning. rewrite Hseverity. reflexivity. }
  unfold getValidationSummary. cbn [validationErrors setValidationErrors
    errorCount warningCount totalIssues vs_isValid criticalIssues].
  rewrite Herrors, Hwarns, length_app.
  repeat split.
  f_equal. apply filter_ext_in. intros e He.
  apply reportErrors_shape in He as [_ [Htype|[Htype|Htype]]];
    unfold countsAsCritical; rewrite Htype; reflexivity.
Qed.

(** X20: in a habitat without modules [validateHabitat] reports one error
    for every connection, the connection being dangling, and no warning;
    the auto-validation does not run it and leaves no validation error. *)
Theorem autoValidate_without_modules (state : HabitatState) :
  modules state = [] →
  (∃ report,
     validateHabitat Math_cos Math_sin (modules state) (connections state) = Some report
     ∧ errors report
       = map (connectionIssue "invalid_connection"
                (Text "Connection references non-existent module"))
             (connections state)
     ∧ warnings report = [])
  ∧ ∃ validated,
      autoValidate Math_cos Math_sin state = Some validated
      ∧ validationErrors validated = []
      ∧ vs_isValid (getValidationSummary validated) = true.
Proof.
  intros Hempty. split.
  - rewrite Hempty. eexists. split; [reflexivity|]. simpl. split; [|reflexivity].
    unfold reportErrors. simpl.
    induction (connections state) as [|c cs IH]; [reflexivity|].
    simpl. rewrite IH. reflexivity.
  - unfold autoValidate. rewrite Hempty. eexists. split; [reflexivity|].
    split; reflexivity.
Qed.

End Summary.

(** ** Dismissing a validation error *)

Lemma withoutIndex_delete {A : Type} (l : list A) (index errorIndex : nat) :
  withoutIndex l index errorIndex
  = if errorIndex <? index then l else delete (errorIndex - index) l.
Proof.
  revert index. induction l as [|x l IH]; intros index; simpl.
  - destruct (errorIndex <? index); reflexivity.
  - rewrite IH.
    destruct (index =? errorIndex) eqn:Hhere.
    + apply Nat.eqb_eq in Hhere as ->.
      rewrite (proj2 (Nat.ltb_lt errorIndex (S errorIndex))) by lia.
      rewrite (proj2 (Nat.ltb_ge errorIndex errorIndex)) by lia.
      rewrite Nat.sub_diag. reflexivity.
    + apply Nat.eqb_neq in Hhere.
      destruct (errorIndex <? index) eqn:Hbefore.
      * apply Nat.ltb_lt in Hbefore.
        rewrite (proj2 (Nat.ltb_lt errorIndex (S index))) by lia. reflexivity.
      * apply Nat.ltb_ge in Hbefore.
        rewrite (proj2 (Nat.ltb_ge errorIndex (S index))) by lia.
        replace (errorIndex - index) with (S (errorIndex - S index)) by lia.
        reflexivity.
Qed.

(** X21: [dismissValidationError] removes the entry at the index and no
    other: the entries before it keep their place and the later ones move
    up by one.  An index past the end changes nothing.  The dismissal
    does not last: the next validation gives the same result as without
    it. *)
Theorem dismissValidationError_removes_one (Math_cos Math_sin : float → float)
    (state : HabitatState) (errorIndex : nat) :
  validationErrors (dismissValidationError state errorIndex)
  = delete errorIndex (validationErrors state)
  ∧ (∀ index,
       validationErrors (dismissValidationError state errorIndex) !! index
       = validationErrors state !! (if index <? errorIndex then index else S index))
  ∧ (errorIndex < length (validationErrors state) →
     S (length (validationErrors (dismissValidationError state errorIndex)))
     = length (validationErrors state))
  ∧ (length (validationErrors state) ≤ errorIndex →
     dismissValidationError state errorIndex = state)
  ∧ validateAndUpdateErrors Math_cos Math_sin (dismissValidationError state errorIndex)
    = validateAndUpdateErrors Math_cos Math_sin state.
Proof.
  assert (Hdelete : validationErrors (dismissValidationError state errorIndex)
                    = delete errorIndex (validationErrors state)).
  { unfold dismissValidationError. simpl. rewrite withoutIndex_delete.
    simpl. rewrite Nat.sub_0_r. reflexivity. }
  split; [exact Hdelete|]. split; [|split; [|split]].
  - intros index. rewrite Hdelete.
    destruct (index <? errorIndex) eqn:Hbefore.
    + apply Nat.ltb_lt in Hbefore. apply list_lookup_delete_lt. exact Hbefore.
    + apply Nat.ltb_ge in Hbefore. apply list_lookup_delete_ge. exact Hbefore.
  - intros Hin. rewrite Hdelete, length_delete; [lia|].
    apply lookup_lt_is_Some. exact Hin.
  - intros Hout.
    assert (Hsame : delete errorIndex (validationErrors state) = validationErrors state).
    { apply list_eq. intros index.
      destruct (decide (index < errorIndex)) as [Hlt|Hge].
      - apply list_lookup_delete_lt. exact Hlt.
      - rewrite list_lookup_delete_ge by lia.
        rewrite !lookup_ge_None_2 by lia. reflexivity. }
    unfold dismissValidationError in *. simpl in Hdelete. rewrite Hdelete, Hsame.
    destruct state. reflexivity.
  - reflexivity.
Qed.

(** A collision, a connection to an unknown port and an unreached module:
    two errors, one of them critical, and one warning. *)
Lemma getValidationSummary_after_validation_witness :
  ∃ report validated,
    validateAndUpdateErrors taylor_cos taylor_sin habitatWithIssues = Some (report, validated)
    ∧ map i_type (validationErrors validated)
      = ["collision"; "invalid_connection_point"; "disconnected_modules"]
    ∧ getValidationSummary validated
      = {| vs_isValid := false; errorCount := 2; warningCount := 1;
           totalIssues := 3; criticalIssues := 1 |}.
Proof.
  destruct (getValidationSummary_after_validation taylor_cos taylor_sin habitatWithIssues)
    as (report & validated & Hvalidated & _).
  exists report, validated. split; [exact Hvalidated|].
  vm_compute in Hvalidated. injection Hvalidated as <- <-.
  split; vm_compute; reflexivity.
Defined.

(** With both modules removed the connection stays and [validateHabitat]
    reports it, but the auto-validation shows nothing. *)
Lemma autoValidate_without_modules_witness :
  (∃ report,
     validateHabitat taylor_cos taylor_sin (modules connectionWithoutModules)
       (connections connectionWithoutModules) = Some report
     ∧ errors report
       = [connectionIssue "invalid_connection"
            (Text "Connection references non-existent module") hubToQuarters]
     ∧ warnings report = [])
  ∧ ∃ validated,
      autoValidate taylor_cos taylor_sin connectionWithoutModules = Some validated
      ∧ validationErrors validated = []
      ∧ vs_isValid (getValidationSummary validated) = true.
Proof.
  apply (autoValidate_without_modules taylor_cos taylor_sin connectionWithoutModules).
  reflexivity.
Defined.

(** Dismissing the second of three entries keeps the first and the third;
    dismissing a fourth changes nothing. *)
Lemma dismissValidationError_removes_one_witness :
  map i_type
    (validationErrors
       (dismissValidationError
          (setValidationErrors initialState
             [collisionError hubAtOrigin quartersOverlapping;
              connectionIssue "invalid_connection_point"
                (Text "Connection references invalid connection point") hubToQuarters;
              disconnectedWarning 1])
          1))
  = ["collision"; "disconnected_modules"]
  ∧ dismissValidationError
      (setValidationErrors initialState
         [collisionError hubAtOrigin quartersOverlapping;
          connectionIssue "invalid_connection_point"
            (Text "Connection references invalid connection point") hubToQuarters;
          disconnectedWarning 1])
      3
    = setValidationErrors initialState
        [collisionError hubAtOrigin quartersOverlapping;
         connectionIssue "invalid_connection_point"
           (Text "Connection references invalid connection point") hubToQuarters;
         disconnectedWarning 1].
Proof.
  split.
  - destruct (dismissValidationError_removes_one taylor_cos taylor_sin
                (setValidationErrors initialState
                   [collisionError hubAtOrigin quartersOverlapping;
                    connectionIssue "invalid_connection_point"
                      (Text "Connection references invalid connection point") hubToQuarters;
                    disconnectedWarning 1])
                1) as (-> & _).
    reflexivity.
  - destruct (dismissValidationError_removes_one taylor_cos taylor_sin
                (setValidationErrors initialState
                   [collisionError hubAtOrigin quartersOverlapping;
                    connectionIssue "invalid_connection_point"
                      (Text "Connection references invalid connection point") hubToQuarters;
                    disconnectedWarning 1])
                3) as (_ & _ & _ & Hpast & _).
    apply Hpast. simpl. lia.
Defined.

(** ** Single connections and single modules *)

Lemma find_connection_None (connections : list Connection) (connectionId : string) :
  (∀ c, In c connections → c_id c ≠ connectionId) →
  List.find (fun c => String.eqb (c_id c) connectionId) connections = None.
Proof.
  induction connections as [|c connections IH]; intros Hother; [reflexivity|]. simpl.
  destruct (String.eqb_spec (c_id c) connectionId) as [Heq|_].
  - exfalso. exact (Hother c (or_introl eq_refl) Heq).
  - apply IH. intros c' Hc'. apply Hother. right. exact Hc'.
Qed.

Lemma getModuleConnections_In (state : HabitatState) (moduleId : string) (c : Connection) :
  In c (getModuleConnections state moduleId)
  ↔ In c (connections state) ∧ (moduleId1 c = moduleId ∨ moduleId2 c = moduleId).
Proof.
  unfold getModuleConnections. rewrite filter_In, orb_true_iff, !String.eqb_eq. reflexivity.
Qed.

Section SingleConnection.
Variables Math_cos Math_sin : float → float.

(** X22: [validateConnection] of an id that no connection has answers
    that the connection is not found.  With distinct connection ids, it
    accepts the connection of a given id exactly when [validateHabitat]
    pushes no error for this connection. *)
Theorem validateConnection_agrees_with_validateHabitat (state : HabitatState) :
  NoDup (map c_id (connections state)) →
  (∀ connectionId,
     (∀ c, In c (connections state) → c_id c ≠ connectionId) →
     validateConnection Math_cos Math_sin state connectionId
     = {| cv_isValid := false; cv_reason := Text "Connection not found";
          cv_connectionId := None |})
  ∧ (∀ connection,
       In connection (connections state) →
       cv_connectionId (validateConnection Math_cos Math_sin state (c_id connection))
       = Some (c_id connection)
       ∧ (cv_isValid (validateConnection Math_cos Math_sin state (c_id connection)) = true
          ↔ connectionErrors Math_cos Math_sin (modules state) connection = [])).
Proof.
  intros Hdistinct. split.
  - intros connectionId Hother. unfold validateConnection.
    rewrite (find_connection_None _ _ Hother). reflexivity.
  - intros connection Hin. unfold validateConnection.
    rewrite (find_unique c_id _ _ Hdistinct Hin). simpl. split; [reflexivity|].
    rewrite connectionErrors_canModulesConnect.
    destruct (mc_canConnect _); split; intros H; try reflexivity; discriminate H.
Qed.

End SingleConnection.

(** X23: in a habitat of two modules or more, a module that no connection
    mentions is not connected: [isModuleConnected] answers false when
    [getModuleConnections] is empty. *)
Theorem unconnected_module_not_connected (state : HabitatState) (moduleId : string) :
  getModuleConnections state moduleId = [] →
  2 ≤ length (modules state) →
  isModuleConnected state moduleId = Some false.
Proof.
  intros Hnone Hmany.
  destruct (isModuleConnected_reached state moduleId) as (reached & Hreached & ->).
  assert (Halone : reached = {[moduleId]}).
  { apply set_eq. intros x. rewrite Hreached, elem_of_singleton. split.
    - intros Hpath. inversion Hpath as [|? y ? (c & Hc & Hends) _]; subst; [reflexivity|].
      assert (Hmine : In c (getModuleConnections state moduleId)).
      { apply getModuleConnections_In. split; [apply list_elem_of_In, Hc|].
        destruct Hends as [[H1 _]|[H2 _]]; auto. }
      rewrite Hnone in Hmine. destruct Hmine.
    - intros ->. apply rtc_refl. }
  rewrite Halone, size_singleton.
  rewrite (proj2 (Nat.leb_gt (length (modules state)) 1)) by lia.
  rewrite (proj2 (Nat.eqb_neq 1 (length (modules state)))) by lia.
  reflexivity.
Qed.

(** X24: [resetHabitat] gives the initial state, whatever the state was,
    and so does loading a configuration that has neither modules nor
    connections. *)
Theorem resetHabitat_initial (state : HabitatState) (config : Configuration) :
  resetHabitat state = initialState
  ∧ (cfg_modules config = None → cfg_connections config = None →
     loadConfiguration state config = initialState).
Proof.
  split; [reflexivity|].
  intros Hmodules Hconnections. unfold loadConfiguration.
  rewrite Hmodules, Hconnections. reflexivity.
Qed.

(** X25: the selected module after a removal.  Removing the selected
    module leaves no selected module; removing another module leaves the
    selected module as it was.  Selecting the empty id selects nothing,
    even when a module has this id. *)
Theorem getSelectedModule_after_removeModule (state : HabitatState) (moduleId : string) :
  getSelectedModule (removeModule state moduleId)
  = (if bool_decide (selectedModuleId state = Some moduleId) then None
     else getSelectedModule state)
  ∧ getSelectedModule (selectModule state moduleId)
    = (if String.eqb moduleId "" then None else getModule state moduleId).
Proof.
  split.
  - unfold getSelectedModule, removeModule, getModule. simpl.
    destruct (selectedModuleId state) as [selected|]; [|reflexivity].
    destruct (String.eqb_spec selected moduleId) as [->|Hother].
    + rewrite bool_decide_eq_true_2 by reflexivity. reflexivity.
    + rewrite bool_decide_eq_false_2 by congruence.
      destruct (truthy (Some selected)); [|reflexivity].
      rewrite findModule_filter.
      destruct (String.eqb_spec selected moduleId); [contradiction|reflexivity].
  - unfold getSelectedModule, selectModule, getModule. simpl.
    destruct (String.eqb moduleId ""); reflexivity.
Qed.

Lemma validateConnection_agrees_with_validateHabitat_witness :
  cv_isValid (validateConnection taylor_cos taylor_sin hubJoinedToQuarters "conn-2") = true
  ∧ connectionErrors taylor_cos taylor_sin (modules hubJoinedToQuarters) hubToQuarters = []
  ∧ cv_reason (validateConnection taylor_cos taylor_sin hubJoinedToQuarters "conn-9")
    = Text "Connection not found".
Proof.
  destruct (validateConnection_agrees_with_validateHabitat taylor_cos taylor_sin
              hubJoinedToQuarters) as [Hmissing Hfound].
  { refine (bool_decide_unpack _ _). vm_compute. exact I. }
  destruct (Hfound hubToQuarters (or_introl eq_refl)) as [_ Hvalid].
  assert (Herrors : connectionErrors taylor_cos taylor_sin (modules hubJoinedToQuarters)
                      hubToQuarters = []) by (vm_compute; reflexivity).
  split; [apply Hvalid, Herrors|]. split; [exact Herrors|].
  rewrite (Hmissing "conn-9"); [reflexivity|].
  intros c [<-|[]]. discriminate.
Defined.

(** The far storage module of the habitat with issues has no connection. *)
Lemma unconnected_module_not_connected_witness :
  getModuleConnections habitatWithIssues "storage-1" = []
  ∧ isModuleConnected habitatWithIssues "storage-1" = Some false.
Proof.
  split; [reflexivity|].
  apply unconnected_module_not_connected; [reflexivity|]. simpl. lia.
Defined.

Lemma resetHabitat_initial_witness :
  resetHabitat hubJoinedToQuarters = initialState
  ∧ loadConfiguration hubJoinedToQuarters
      {| cfg_name := "Empty"; cfg_description := "Nothing yet"; cfg_modules := None;
         cfg_connections := None; cfg_statistics := None; exportTimestamp := None |}
    = initialState.
Proof.
  destruct (resetHabitat_initial hubJoinedToQuarters
              {| cfg_name := "Empty"; cfg_description := "Nothing yet"; cfg_modules := None;
                 cfg_connections := None; cfg_statistics := None; exportTimestamp := None |})
    as [Hreset Hload].
  split; [exact Hreset | apply Hload; reflexivity].
Defined.
